(** * scm-workbench: the Git project model and the unified-diff view

    A shallow embedding of [Source/Git/wb_git_project.py] and of
    [Source/Common/wb_diff_view.py].

    Conventions of the embedding.
    - A Python [dict] is an insertion-ordered association list with unique
      keys: assigning to an existing key keeps its position, assigning to a
      new key appends it.
    - A Python [set] of strings is a duplicate-free list.  Python does not fix
      the iteration order of a set, so the properties proved about values that
      went through a set speak about membership only.
    - A call that can raise returns an [outcome]; methods that mutate [self]
      thread the object explicitly and keep the mutations made before a raise.
    - The wrapped libraries (GitPython, pathlib, Qt) are not part of the
      program: what they return enters as data or as Section variables. *)

From Stdlib Require Import List String Ascii Bool Arith Lia ZArith.
Import ListNotations.
Open Scope string_scope.
Open Scope list_scope.

(** ** Python values, exceptions, dicts and sets *)

Module Py.

Inductive exn :=
| AssertionError (msg : string)
| KeyError (key : string)
| IndexError
| AttributeError (msg : string)
| LibraryError (msg : string).

Inductive outcome (A : Type) :=
| Normal (a : A)
| Raise (e : exn).
Arguments Normal {A} a.
Arguments Raise {A} e.

Definition bind {A B} (m : outcome A) (k : A -> outcome B) : outcome B :=
  match m with
  | Normal a => k a
  | Raise e => Raise e
  end.

(** Values that travel through keyword arguments. *)
Inductive pyval :=
| PyNone
| PyInt (n : Z)
| PyStr (s : string).

Definition is_not_None (v : pyval) : bool :=
  match v with PyNone => false | _ => true end.

Section Dict.
Context {V : Type}.

Definition dict := list (string * V).

Fixpoint dict_get (k : string) (d : dict) : option V :=
  match d with
  | [] => None
  | (k', v) :: d' => if String.eqb k k' then Some v else dict_get k d'
  end.

Definition dict_mem (k : string) (d : dict) : bool :=
  match dict_get k d with Some _ => true | None => false end.

(** [d[k] = v] *)
Fixpoint dict_set (k : string) (v : V) (d : dict) : dict :=
  match d with
  | [] => [(k, v)]
  | (k', v') :: d' =>
      if String.eqb k k' then (k', v) :: d' else (k', v') :: dict_set k v d'
  end.

Definition dict_keys (d : dict) : list string := map fst d.

(** [d[k]], which raises [KeyError] on a missing key *)
Definition dict_index (k : string) (d : dict) : outcome V :=
  match dict_get k d with
  | Some v => Normal v
  | None => Raise (KeyError k)
  end.
End Dict.
Arguments dict V : clear implicits.

Definition pyset := list string.

Definition set_mem (x : string) (s : pyset) : bool :=
  existsb (String.eqb x) s.

Definition set_diff (a b : pyset) : pyset :=
  filter (fun x => negb (set_mem x b)) a.

Definition set_discard (x : string) (s : pyset) : pyset :=
  filter (fun y => negb (String.eqb x y)) s.

(** [s.remove(x)], which raises [KeyError] when [x] is not a member *)
Definition set_remove (x : string) (s : pyset) : outcome pyset :=
  if set_mem x s then Normal (set_discard x s) else Raise (KeyError x).

Definition set_add (x : string) (s : pyset) : pyset :=
  if set_mem x s then s else s ++ [x].

(** [sep.join(parts)] *)
Fixpoint join (sep : string) (parts : list string) : string :=
  match parts with
  | [] => ""
  | [p] => p
  | p :: rest => p ++ sep ++ join sep rest
  end.

(** [s.split(sep)] for a one-character separator *)
Fixpoint split (sep : ascii) (s : string) : list string :=
  match s with
  | EmptyString => [EmptyString]
  | String c s' =>
      if Ascii.eqb c sep then EmptyString :: split sep s'
      else match split sep s' with
           | [] => [String c EmptyString]
           | h :: t => String c h :: t
           end
  end.

End Py.

Notation "x <- m ;; k" := (Py.bind m (fun x => k))
  (at level 61, m at next level, right associativity).
Notation "' pat <- m ;; k" :=
  (Py.bind m (fun x => match x with pat => k end))
  (at level 61, pat pattern, m at next level, right associativity).

(** ** Commit logs: [GitCommitLogNode] and the change information *)

Module CommitLog.
Import Py.

(** The objects GitPython yields when a tree is iterated: blobs
    ([type == 'blob']), sub-trees ([type == 'tree']) and submodules
    ([type == 'commit']).  [tree.trees] is the sub-trees, in order. *)
Inductive Tree := mkTree (tree_path : string) (entries : list TreeEntry)
with TreeEntry :=
| EBlob (path hexsha : string)
| ETree (t : Tree)
| ESubmodule (path hexsha : string).

#[warnings="-register-all"]
Inductive Commit :=
  mkCommit (hexsha : string) (tree : Tree) (parents : list Commit).

Definition commit_tree (c : Commit) : Tree :=
  match c with mkCommit _ t _ => t end.
Definition commit_parents (c : Commit) : list Commit :=
  match c with mkCommit _ _ ps => ps end.

(** (change-kind, path, old-path) *)
Definition change := (string * string * string)%type.

Record GitCommitLogNode := mkLogNode {
  commit : Commit;
  all_changes : list change
}.

(** [GitCommitLogNode.__init__] *)
Definition newGitCommitLogNode (c : Commit) : GitCommitLogNode :=
  mkLogNode c [].

Definition commitTree (n : GitCommitLogNode) : Tree :=
  commit_tree (commit n).

Definition commitPreviousTree (n : GitCommitLogNode) : option Tree :=
  match commit_parents (commit n) with
  | [] => None
  | previous_commit :: _ => Some (commit_tree previous_commit)
  end.

Definition commitFileChanges (n : GitCommitLogNode) : list change :=
  all_changes n.

(** [GitCommitLogNode._addChanges] *)
Definition _addChanges (n : GitCommitLogNode)
    (all_added all_deleted : pyset) (all_renamed : list (string * string))
    (all_modified : pyset) : GitCommitLogNode :=
  let ch := all_changes n in
  let ch := ch ++ map (fun name => ("A", name, "")) all_added in
  let ch := ch ++ map (fun name => ("D", name, "")) all_deleted in
  let ch := ch ++ map (fun '(name, old_name) => ("R", name, old_name)) all_renamed in
  let ch := ch ++ map (fun name => ("M", name, "")) all_modified in
  mkLogNode (commit n) ch.

(** First loop of [__treeToDict]: the blobs directly in the tree. *)
Fixpoint add_blobs (l : list TreeEntry) (all_entries : dict string) : dict string :=
  match l with
  | [] => all_entries
  | EBlob path hexsha :: rest => add_blobs rest (dict_set path hexsha all_entries)
  | _ :: rest => add_blobs rest all_entries
  end.

(** [GitProject.__treeToDict]; the dict it fills is threaded. *)
Fixpoint treeToDict (tree : Tree) (all_entries : dict string) {struct tree}
  : dict string :=
  match tree with
  | mkTree _ entries =>
      (fix children (l : list TreeEntry) (d : dict string) : dict string :=
         match l with
         | [] => d
         | ETree child :: rest => children rest (treeToDict child d)
         | _ :: rest => children rest d
         end) entries (add_blobs entries all_entries)
  end.

(** The body of [for name, id_ in all_old.items()]. *)
Definition old_id_to_name (all_old : dict string) : dict string :=
  fold_left (fun acc '(name, id_) => dict_set id_ name acc) all_old [].

(** One round of [for name in list(all_added)]. *)
Definition rename_step (all_new all_old_id_to_name : dict string)
    (st : pyset * pyset * list (string * string)) (name : string)
  : outcome (pyset * pyset * list (string * string)) :=
  let '(all_added, all_deleted, all_renamed) := st in
  id_ <- dict_index name all_new ;;
  match dict_get id_ all_old_id_to_name with
  | Some old_name =>
      all_added' <- set_remove name all_added ;;
      all_deleted' <- set_remove old_name all_deleted ;;
      Normal (all_added', all_deleted', all_renamed ++ [(name, old_name)])
  | None => Normal st
  end.

Fixpoint rename_loop (all_new all_old_id_to_name : dict string)
    (names : list string) (st : pyset * pyset * list (string * string))
  : outcome (pyset * pyset * list (string * string)) :=
  match names with
  | [] => Normal st
  | name :: rest =>
      st' <- rename_step all_new all_old_id_to_name st name ;;
      rename_loop all_new all_old_id_to_name rest st'
  end.

(** The body of [for key in all_new] that collects the modified paths. *)
Definition modified_step (all_new all_old : dict string)
    (all_modified : pyset) (key : string) : pyset :=
  match dict_get key all_old, dict_get key all_new with
  | Some old_id, Some new_id =>
      if String.eqb new_id old_id then all_modified else set_add key all_modified
  | _, _ => all_modified
  end.

(** The body of the loop of [GitProject.__addCommitChangeInformation],
    for the node at one offset. *)
Definition addChangeInformation (node : GitCommitLogNode)
  : outcome GitCommitLogNode :=
  let new_tree := commitTree node in
  let old_tree := commitPreviousTree node in
  let all_new := treeToDict new_tree [] in
  let new_set := dict_keys all_new in
  match old_tree with
  | None => Normal (_addChanges node new_set [] [] [])
  | Some old_tree =>
      let all_old := treeToDict old_tree [] in
      let old_set := dict_keys all_old in
      let all_added := set_diff new_set old_set in
      let all_deleted := set_diff old_set new_set in
      let all_renamed : list (string * string) := [] in
      '(all_added, all_deleted, all_renamed) <-
        (if (0 <? List.length all_added)%nat
         then rename_loop all_new (old_id_to_name all_old) all_added
                (all_added, all_deleted, all_renamed)
         else Normal (all_added, all_deleted, all_renamed)) ;;
      let all_modified :=
        fold_left (modified_step all_new all_old) (dict_keys all_new) [] in
      Normal (_addChanges node all_added all_deleted all_renamed all_modified)
  end.

(** [GitProject.__addCommitChangeInformation]: the nodes are mutated in
    place, so those handled before a raise keep their changes. *)
Fixpoint addCommitChangeInformation (all_commit_logs : list GitCommitLogNode)
  : outcome unit * list GitCommitLogNode :=
  match all_commit_logs with
  | [] => (Normal tt, [])
  | node :: rest =>
      match addChangeInformation node with
      | Raise e => (Raise e, node :: rest)
      | Normal node' =>
          let '(r, rest') := addCommitChangeInformation rest in
          (r, node' :: rest')
      end
  end.

(** What [self.repo.iter_commits( rev, *paths, **kwds )] is called with. *)
Record IterCommitsCall := mkIterCall {
  ic_rev : pyval;
  ic_paths : list string;
  ic_kwds : dict pyval
}.

(** The call made by [cmdCommitLogForRepository( limit, since, until )]. *)
Definition repositoryLogCall (limit since until : pyval) : IterCommitsCall :=
  let kwds : dict pyval := [] in
  let kwds := if is_not_None limit then dict_set "max_count" limit kwds else kwds in
  let kwds := if is_not_None since then dict_set "since" since kwds else kwds in
  let kwds := if is_not_None since then dict_set "until" until kwds else kwds in
  mkIterCall PyNone [] kwds.

(** The call made by [cmdCommitLogForFile( filename, limit, since, until )];
    [filename] stands for [str(filename)]. *)
Definition fileLogCall (filename : string) (limit since until : pyval)
  : IterCommitsCall :=
  let kwds : dict pyval := [] in
  let kwds := if is_not_None limit then dict_set "max_count" limit kwds else kwds in
  let kwds := if is_not_None since then dict_set "since" since kwds else kwds in
  let kwds := if is_not_None since then dict_set "until" until kwds else kwds in
  mkIterCall PyNone [filename] kwds.

Section Log.
(** The commit iterator of the wrapped library. *)
Variable iter_commits : IterCommitsCall -> list Commit.

Definition commitLog (call : IterCommitsCall) : outcome (list GitCommitLogNode) :=
  let all_commit_logs := map newGitCommitLogNode (iter_commits call) in
  match addCommitChangeInformation all_commit_logs with
  | (Normal _, all_commit_logs) => Normal all_commit_logs
  | (Raise e, _) => Raise e
  end.

Definition cmdCommitLogForRepository (limit since until : pyval)
  : outcome (list GitCommitLogNode) :=
  commitLog (repositoryLogCall limit since until).

Definition cmdCommitLogForFile (filename : string) (limit since until : pyval)
  : outcome (list GitCommitLogNode) :=
  commitLog (fileLogCall filename limit since until).
End Log.

(** *** Vocabulary of the properties *)

(** [path] is the path of a blob of the tree, at any depth. *)
Inductive blob_path : Tree -> string -> Prop :=
| blob_here (tp : string) (entries : list TreeEntry) (path hexsha : string) :
    In (EBlob path hexsha) entries -> blob_path (mkTree tp entries) path
| blob_below (tp : string) (entries : list TreeEntry) (child : Tree) (path : string) :
    In (ETree child) entries -> blob_path child path ->
    blob_path (mkTree tp entries) path.

(** The second loop of [__treeToDict]. *)
Fixpoint subtreesToDict (l : list TreeEntry) (d : dict string) : dict string :=
  match l with
  | [] => d
  | ETree child :: rest => subtreesToDict rest (treeToDict child d)
  | _ :: rest => subtreesToDict rest d
  end.

(** The old path the rename loop pairs with an added path: the one that
    [all_old_id_to_name] holds for the blob id of the new path. *)
Definition rename_source (all_new all_old : dict string) (name : string)
  : option string :=
  match dict_get name all_new with
  | Some id_ => dict_get id_ (old_id_to_name all_old)
  | None => None
  end.

(** Paths in one tree only, and pairs of paths with the same blob. *)
Definition only_in (d d' : dict string) (path : string) : Prop :=
  dict_mem path d = true /\ dict_mem path d' = false.

Definition same_blob (all_new all_old : dict string) (name old_name : string) : Prop :=
  exists id_, dict_get name all_new = Some id_ /\ dict_get old_name all_old = Some id_.

(** A first commit with a file at the top and one in a folder. *)
Definition first_commit : Commit :=
  mkCommit "c0"
    (mkTree "" [EBlob "README" "h1"; ETree (mkTree "src" [EBlob "src/main.py" "h2"])])
    [].

(** A commit that copies the file [a] to [b], and its parent. *)
Definition copy_parent : Commit :=
  mkCommit "c1" (mkTree "" [EBlob "a" "h1"]) [].

Definition copy_commit : Commit :=
  mkCommit "c2" (mkTree "" [EBlob "a" "h1"; EBlob "b" "h1"]) [copy_parent].

(** A commit that renames [a] to [b] beside [c], which has the same blob
    and stays. *)
Definition twin_parent : Commit :=
  mkCommit "c3" (mkTree "" [EBlob "a" "h1"; EBlob "c" "h1"]) [].

Definition twin_commit : Commit :=
  mkCommit "c4" (mkTree "" [EBlob "b" "h1"; EBlob "c" "h1"]) [twin_parent].

(** *** Further vocabulary *)

Definition commit_hexsha (c : Commit) : string :=
  match c with mkCommit h _ _ => h end.

(** The tree has a blob with this path and this id, at any depth. *)
Inductive blob_entry : Tree -> string -> string -> Prop :=
| blob_entry_here (tp : string) (entries : list TreeEntry) (path hexsha : string) :
    In (EBlob path hexsha) entries -> blob_entry (mkTree tp entries) path hexsha
| blob_entry_below (tp : string) (entries : list TreeEntry) (child : Tree)
    (path hexsha : string) :
    In (ETree child) entries -> blob_entry child path hexsha ->
    blob_entry (mkTree tp entries) path hexsha.

(** Every added path whose blob an old path has is paired with a deleted
    path, and no two added paths are paired with the same one. *)
Definition renames_ok (all_new all_old : dict string) : Prop :=
  forall n o,
    only_in all_new all_old n -> rename_source all_new all_old n = Some o ->
    only_in all_old all_new o
    /\ forall n', only_in all_new all_old n' ->
                  rename_source all_new all_old n' = Some o -> n' = n.

(** A commit that renames [old.txt] to [new.txt] and edits [doc.txt]. *)
Definition rename_parent : Commit :=
  mkCommit "c5" (mkTree "" [EBlob "doc.txt" "h2"; EBlob "old.txt" "h1"]) [].

Definition rename_commit : Commit :=
  mkCommit "c6" (mkTree "" [EBlob "doc.txt" "h3"; EBlob "new.txt" "h1"])
    [rename_parent].

(** A commit that only edits [doc.txt]. *)
Definition edit_commit : Commit :=
  mkCommit "c7" (mkTree "" [EBlob "doc.txt" "h4"; EBlob "new.txt" "h1"])
    [rename_commit].

(** A commit log command's result against the commits the iterator
    yielded: when it returns, one node per commit, in order, each with its
    commit and that commit's changes; it returns exactly when the changes of
    every commit can be made; when it raises, the exception is that of one
    of the commits. *)
Definition log_of_commits (result : outcome (list GitCommitLogNode))
    (commits : list Commit) : Prop :=
  (forall logs,
      result = Normal logs ->
      map commit logs = commits
      /\ Forall2 (fun c node => addChangeInformation (newGitCommitLogNode c)
                                = Normal node)
           commits logs)
  /\ ((exists logs, result = Normal logs)
      <-> Forall (fun c => exists node,
                     addChangeInformation (newGitCommitLogNode c) = Normal node)
            commits)
  /\ (forall e, result = Raise e ->
                exists c, In c commits
                          /\ addChangeInformation (newGitCommitLogNode c) = Raise e).

(** An iterator that yields a commit exactly when it is called with an
    [until] keyword, whatever its value. *)
Definition until_only_iter (call : IterCommitsCall) : list Commit :=
  if dict_mem "until" (ic_kwds call) then [first_commit] else [].

End CommitLog.

(** ** Per-file status: [WbGitFileState] *)

Module FileState.
Import Py.

Record Blob := mkBlob {
  blob_hexsha : string;
  blob_mode : N
}.

(** A [git.diff.Diff]: the two sides are [a] and [b]; a side that does not
    exist has no blob. *)
Record Diff := mkDiff {
  a_path : string;
  b_path : string;
  a_blob : option Blob;
  b_blob : option Blob;
  new_file : bool;
  deleted_file : bool;
  renamed : bool
}.

Record IndexEntry := mkIndexEntry {
  entry_path : string;
  entry_hexsha : string;
  entry_stage : nat
}.

(** The [repo] attribute is a handle on the library's repository object and
    is left out. *)
Record WbGitFileState := mkFileState {
  index_entry : option IndexEntry;
  unstaged_diff : option Diff;
  staged_diff : option Diff;
  untracked : bool;
  state_calculated : bool;
  staged_is_modified : bool;
  unstaged_is_modified : bool;
  staged_abbrev : option string;
  unstaged_abbrev : option string;
  head_blob : option Blob;
  staged_blob : option Blob
}.

(** [WbGitFileState.__init__] *)
Definition newWbGitFileState (index_entry : option IndexEntry) : WbGitFileState :=
  mkFileState index_entry None None false false false false None None None None.

Definition _addStaged (diff : Diff) (self : WbGitFileState) : WbGitFileState :=
  mkFileState (index_entry self) (unstaged_diff self) (Some diff) (untracked self)
    false (staged_is_modified self) (unstaged_is_modified self)
    (staged_abbrev self) (unstaged_abbrev self) (head_blob self) (staged_blob self).

Definition _addUnstaged (diff : Diff) (self : WbGitFileState) : WbGitFileState :=
  mkFileState (index_entry self) (Some diff) (staged_diff self) (untracked self)
    false (staged_is_modified self) (unstaged_is_modified self)
    (staged_abbrev self) (unstaged_abbrev self) (head_blob self) (staged_blob self).

Definition _setUntracked (self : WbGitFileState) : WbGitFileState :=
  mkFileState (index_entry self) (unstaged_diff self) (staged_diff self) true
    (state_calculated self) (staged_is_modified self) (unstaged_is_modified self)
    (staged_abbrev self) (unstaged_abbrev self) (head_blob self) (staged_blob self).

(** The first [if] of [__calculateState], on the staged diff. *)
Definition calculateStaged (self : WbGitFileState) : WbGitFileState :=
  let set_abbrev (c : string) :=
    mkFileState (index_entry self) (unstaged_diff self) (staged_diff self)
      (untracked self) (state_calculated self) (staged_is_modified self)
      (unstaged_is_modified self) (Some c) (unstaged_abbrev self)
      (head_blob self) (staged_blob self) in
  match staged_diff self with
  | None => set_abbrev ""
  | Some d =>
      if renamed d then set_abbrev "R"
      else if deleted_file d then set_abbrev "A"
      else if new_file d then set_abbrev "D"
      else
        mkFileState (index_entry self) (unstaged_diff self) (staged_diff self)
          (untracked self) (state_calculated self) true
          (unstaged_is_modified self) (Some "M") (unstaged_abbrev self)
          (b_blob d) (a_blob d)
  end.

(** The second [if] of [__calculateState], on the unstaged diff. *)
Definition calculateUnstaged (self : WbGitFileState) : WbGitFileState :=
  let set_abbrev (c : string) :=
    mkFileState (index_entry self) (unstaged_diff self) (staged_diff self)
      (untracked self) (state_calculated self) (staged_is_modified self)
      (unstaged_is_modified self) (staged_abbrev self) (Some c)
      (head_blob self) (staged_blob self) in
  match unstaged_diff self with
  | None => set_abbrev ""
  | Some d =>
      if deleted_file d then set_abbrev "D"
      else if new_file d then set_abbrev "A"
      else
        mkFileState (index_entry self) (unstaged_diff self) (staged_diff self)
          (untracked self) (state_calculated self) (staged_is_modified self)
          true (staged_abbrev self) (Some "M")
          (match head_blob self with
           | None => a_blob d
           | Some b => Some b
           end)
          (staged_blob self)
  end.

(** [WbGitFileState.__calculateState] *)
Definition calculateState (self : WbGitFileState) : WbGitFileState :=
  if state_calculated self then self
  else
    let self := calculateUnstaged (calculateStaged self) in
    mkFileState (index_entry self) (unstaged_diff self) (staged_diff self)
      (untracked self) true (staged_is_modified self)
      (unstaged_is_modified self) (staged_abbrev self) (unstaged_abbrev self)
      (head_blob self) (staged_blob self).

(** [attr == 'c'] for an attribute that holds [None] or a [str] *)
Definition abbrev_is (attr : option string) (c : string) : bool :=
  match attr with
  | Some s => String.eqb s c
  | None => false
  end.

(** The accessors return their result and the object as they leave it. *)
Definition getStagedAbbreviatedStatus (self : WbGitFileState)
  : option string * WbGitFileState :=
  let self := calculateState self in (staged_abbrev self, self).

Definition getUnstagedAbbreviatedStatus (self : WbGitFileState)
  : option string * WbGitFileState :=
  let self := calculateState self in (unstaged_abbrev self, self).

Definition isStagedNew (self : WbGitFileState) : bool * WbGitFileState :=
  let self := calculateState self in (abbrev_is (staged_abbrev self) "A", self).

Definition isStagedModified (self : WbGitFileState) : bool * WbGitFileState :=
  let self := calculateState self in (abbrev_is (staged_abbrev self) "M", self).

Definition isStagedDeleted (self : WbGitFileState) : bool * WbGitFileState :=
  let self := calculateState self in (abbrev_is (staged_abbrev self) "D", self).

Definition isUnstagedModified (self : WbGitFileState) : bool * WbGitFileState :=
  let self := calculateState self in (abbrev_is (unstaged_abbrev self) "M", self).

Definition isUnstagedDeleted (self : WbGitFileState) : bool * WbGitFileState :=
  let self := calculateState self in (abbrev_is (unstaged_abbrev self) "D", self).

Definition isUntracked (self : WbGitFileState) : bool := untracked self.

Definition canDiffHeadVsStaged (self : WbGitFileState) : bool * WbGitFileState :=
  let self := calculateState self in (staged_is_modified self, self).

Definition canDiffStagedVsWorking (self : WbGitFileState) : bool * WbGitFileState :=
  let self := calculateState self in
  (unstaged_is_modified self && staged_is_modified self, self).

Definition canDiffHeadVsWorking (self : WbGitFileState) : bool * WbGitFileState :=
  let self := calculateState self in (unstaged_is_modified self, self).

Definition getHeadBlob (self : WbGitFileState) : option Blob := head_blob self.
Definition getStagedBlob (self : WbGitFileState) : option Blob := staged_blob self.

(** *** Vocabulary of the properties *)

(** The states a [WbGitFileState] goes through: made by [__init__], then
    changed by its methods only (every accessor leaves what
    [__calculateState] leaves). *)
Inductive reachable : WbGitFileState -> Prop :=
| reach_init (e : option IndexEntry) : reachable (newWbGitFileState e)
| reach_addStaged (d : Diff) (s : WbGitFileState) :
    reachable s -> reachable (_addStaged d s)
| reach_addUnstaged (d : Diff) (s : WbGitFileState) :
    reachable s -> reachable (_addUnstaged d s)
| reach_setUntracked (s : WbGitFileState) :
    reachable s -> reachable (_setUntracked s)
| reach_calculateState (s : WbGitFileState) :
    reachable s -> reachable (calculateState s).

(** The code [__calculateState] gives to a staged diff. *)
Definition staged_code (d : option Diff) : string :=
  match d with
  | None => ""
  | Some d =>
      if renamed d then "R"
      else if deleted_file d then "A"
      else if new_file d then "D"
      else "M"
  end.

(** The code [__calculateState] gives to an unstaged diff. *)
Definition unstaged_code (d : option Diff) : string :=
  match d with
  | None => ""
  | Some d =>
      if deleted_file d then "D"
      else if new_file d then "A"
      else "M"
  end.

(** The accessors that report the classification, and all the accessors
    that go through [__calculateState]. *)
Inductive Accessor :=
| GetStagedAbbreviatedStatus
| GetUnstagedAbbreviatedStatus
| IsStagedNew
| IsStagedModified
| IsStagedDeleted
| IsUnstagedModified
| IsUnstagedDeleted
| CanDiffHeadVsStaged
| CanDiffStagedVsWorking
| CanDiffHeadVsWorking.

Inductive Answer :=
| AStr (s : option string)
| ABool (b : bool).

Definition call (a : Accessor) (self : WbGitFileState) : Answer * WbGitFileState :=
  match a with
  | GetStagedAbbreviatedStatus =>
      let '(r, s) := getStagedAbbreviatedStatus self in (AStr r, s)
  | GetUnstagedAbbreviatedStatus =>
      let '(r, s) := getUnstagedAbbreviatedStatus self in (AStr r, s)
  | IsStagedNew => let '(r, s) := isStagedNew self in (ABool r, s)
  | IsStagedModified => let '(r, s) := isStagedModified self in (ABool r, s)
  | IsStagedDeleted => let '(r, s) := isStagedDeleted self in (ABool r, s)
  | IsUnstagedModified => let '(r, s) := isUnstagedModified self in (ABool r, s)
  | IsUnstagedDeleted => let '(r, s) := isUnstagedDeleted self in (ABool r, s)
  | CanDiffHeadVsStaged => let '(r, s) := canDiffHeadVsStaged self in (ABool r, s)
  | CanDiffStagedVsWorking => let '(r, s) := canDiffStagedVsWorking self in (ABool r, s)
  | CanDiffHeadVsWorking => let '(r, s) := canDiffHeadVsWorking self in (ABool r, s)
  end.


(** What holds of the cache while it is marked valid. *)
Definition cache_valid (s : WbGitFileState) : Prop :=
  state_calculated s = true ->
  staged_abbrev s = Some (staged_code (staged_diff s))
  /\ unstaged_abbrev s = Some (unstaged_code (unstaged_diff s)).


(** In an entry of [index.diff( repo.head.commit )] side [a] is the index
    and side [b] is HEAD: [__calculateState] takes [b_blob] for the head
    blob and [a_blob] for the staged one. *)

(** In the index, absent from HEAD. *)
Definition added_to_index (d : Diff) : Prop :=
  a_blob d <> None /\ b_blob d = None.

(** In HEAD, absent from the index. *)
Definition removed_from_index (d : Diff) : Prop :=
  a_blob d = None /\ b_blob d <> None.

(** On both sides, with different content. *)
Definition changed_in_index (d : Diff) : Prop :=
  exists a b, a_blob d = Some a /\ b_blob d = Some b
              /\ blob_hexsha a <> blob_hexsha b.

(** On both sides, whatever the content. *)
Definition on_both_sides (d : Diff) : Prop :=
  a_blob d <> None /\ b_blob d <> None.

(** The entries on which the two flags say which side is missing:
    [deleted_file] is set exactly when there is no [b] side, [new_file]
    exactly when there is no [a] side, and some side is there.  Nothing in
    [__calculateState] checks this; it reads the flags only. *)
Definition flags_agree_with_sides (d : Diff) : Prop :=
  (deleted_file d = true <-> b_blob d = None)
  /\ (new_file d = true <-> a_blob d = None)
  /\ (a_blob d <> None \/ b_blob d <> None).

(** *** Further methods *)

Definition newline_char : ascii := ascii_of_nat 10.

(** The lines of a text as [getTextLinesWorking], [getTextLinesHead] and
    [getTextLinesStaged] make them: [text.split('\n')], without its last
    element when that is the empty string. *)
Definition text_lines (text : string) : list string :=
  let all_lines := split newline_char text in
  if String.eqb (last all_lines "") "" then removelast all_lines else all_lines.

Section TextLines.
(** [blob.data_stream.read().decode( 'utf-8' )], and the text of a file of
    the working tree, by its path in the repository. *)
Variable blob_text : Blob -> outcome string.
Variable working_text : string -> outcome string.

Definition getTextLinesWorking (self : WbGitFileState) : outcome (list string) :=
  match unstaged_diff self with
  | None => Raise (AttributeError "'NoneType' object has no attribute 'a_path'")
  | Some diff =>
      text <- working_text (a_path diff) ;;
      Normal (text_lines text)
  end.

Definition getTextLinesHead (self : WbGitFileState) : outcome (list string) :=
  match getHeadBlob self with
  | None => Raise (AttributeError "'NoneType' object has no attribute 'data_stream'")
  | Some blob =>
      text <- blob_text blob ;;
      Normal (text_lines text)
  end.

Definition getTextLinesStaged (self : WbGitFileState) : outcome (list string) :=
  match getStagedBlob self with
  | None => Raise (AttributeError "'NoneType' object has no attribute 'data_stream'")
  | Some blob =>
      text <- blob_text blob ;;
      Normal (text_lines text)
  end.
End TextLines.

(** *** Further vocabulary *)

Fixpoint has_char (c : ascii) (s : string) : bool :=
  match s with
  | EmptyString => false
  | String c' s' => Ascii.eqb c' c || has_char c s'
  end.

(** A file state on which [__calculateState] has not run yet: made by
    [__init__] and changed by [_addStaged], [_addUnstaged] and
    [_setUntracked] only. *)
Definition pristine (s : WbGitFileState) : Prop :=
  state_calculated s = false
  /\ staged_is_modified s = false
  /\ unstaged_is_modified s = false
  /\ staged_abbrev s = None
  /\ unstaged_abbrev s = None
  /\ head_blob s = None
  /\ staged_blob s = None.

(** A file with a staged and an unstaged modification. *)
Definition twice_modified_state : WbGitFileState :=
  _addUnstaged
    (mkDiff "f" "f" (Some (mkBlob "h2" 33188%N)) None false false false)
    (_addStaged
       (mkDiff "f" "f" (Some (mkBlob "h2" 33188%N)) (Some (mkBlob "h1" 33188%N))
          false false false)
       (newWbGitFileState None)).

End FileState.

(** ** The project: [GitProject] and [GitProjectTreeNode] *)

Module Project.
Import Py FileState.

(** What the library reports about the repository when the status is
    calculated. *)
Record Repo := mkRepo {
  index_entries : list IndexEntry;     (* [index.entries.values()] *)
  head_vs_index : list Diff;           (* [index.diff( repo.head.commit )] *)
  index_vs_working : list Diff;        (* [index.diff( None )] *)
  untracked_files : list string        (* [repo.untracked_files] *)
}.

(** [git.index.IndexFile( repo )] *)
Record IndexFile := mkIndexFile {
  entries : list IndexEntry
}.

Section WithLibrary.

(** [pathlib]: the path objects, their constructor and [str()]. *)
Variable PurePath : Type.
Variable pathlib_Path : string -> PurePath.
Variable path_str : PurePath -> string.

(** The calls that change the repository or the working copy. *)
Inductive ExtCall :=
| GitAdd (filename : PurePath)               (* [repo.git.add( filename )] *)
| GitResetHead (filename : PurePath)         (* [repo.git.reset( 'HEAD', filename, mixed=True )] *)
| GitCheckoutHead (filename : PurePath)      (* [repo.git.checkout( 'HEAD', filename )] *)
| Unlink (filename : PurePath)               (* [(path / filename).unlink()] *)
| IndexWrite                                 (* [repo.index.write()] *)
| IndexCommit (message : string).            (* [index.commit( message )] *)

(** What such a call does: it returns or raises, and leaves a repository. *)
Variable ext_exec : ExtCall -> Repo -> outcome string * Repo.

#[warnings="-register-all"]
Inductive GitProjectTreeNode :=
  mkTreeNode (name : string) (path : PurePath)
    (all_folders : list (string * GitProjectTreeNode))
    (all_files : list (string * string)).

Definition node_name (n : GitProjectTreeNode) : string :=
  match n with mkTreeNode name _ _ _ => name end.
Definition relativePath (n : GitProjectTreeNode) : PurePath :=
  match n with mkTreeNode _ path _ _ => path end.
Definition all_folders (n : GitProjectTreeNode) : dict GitProjectTreeNode :=
  match n with mkTreeNode _ _ folders _ => folders end.
Definition all_files (n : GitProjectTreeNode) : dict string :=
  match n with mkTreeNode _ _ _ files => files end.

(** [GitProjectTreeNode.__init__]; the [project] back reference is passed
    to the methods that use it instead. *)
Definition newGitProjectTreeNode (name : string) (path : PurePath)
  : GitProjectTreeNode :=
  mkTreeNode name path [] [].

Record GitProject := mkProject {
  prefs_name : string;                      (* [prefs_project.name] *)
  prefs_path : PurePath;                    (* [prefs_project.path] *)
  repo : Repo;
  ext_calls : list ExtCall;                 (* the calls made so far, oldest first *)
  index : option IndexFile;
  tree : GitProjectTreeNode;
  all_file_state : dict WbGitFileState;
  dirty_index : bool;
  stale_index : bool;
  num_staged_files : nat
}.

(** [GitProject.__init__] on an opened repository *)
Definition newGitProject (name : string) (path : PurePath) (r : Repo) : GitProject :=
  mkProject name path r [] None (newGitProjectTreeNode name (pathlib_Path "."))
    [] false false 0.

Definition set_flags (dirty stale : bool) (self : GitProject) : GitProject :=
  mkProject (prefs_name self) (prefs_path self) (repo self) (ext_calls self)
    (index self) (tree self) (all_file_state self) dirty stale
    (num_staged_files self).

Definition set_tree (t : GitProjectTreeNode) (self : GitProject) : GitProject :=
  mkProject (prefs_name self) (prefs_path self) (repo self) (ext_calls self)
    (index self) t (all_file_state self) (dirty_index self) (stale_index self)
    (num_staged_files self).

(** A call into the library: logged, and the repository is what it leaves. *)
Definition call_ext (c : ExtCall) (self : GitProject) : outcome string * GitProject :=
  let '(r, repo') := ext_exec c (repo self) in
  (r, mkProject (prefs_name self) (prefs_path self) repo' (ext_calls self ++ [c])
        (index self) (tree self) (all_file_state self) (dirty_index self)
        (stale_index self) (num_staged_files self)).

(** [self.all_file_state[ path ]] is created when absent, then mutated. *)
Definition touch_state (path : string) (f : WbGitFileState -> WbGitFileState)
    (all_file_state : dict WbGitFileState) : dict WbGitFileState :=
  match dict_get path all_file_state with
  | Some fs => dict_set path (f fs) all_file_state
  | None => dict_set path (f (newWbGitFileState None)) all_file_state
  end.

(** The four loops of [GitProject.__calculateStatus]. *)
Definition status_of_repo (r : Repo) : dict WbGitFileState :=
  let s := fold_left
    (fun s entry => dict_set (entry_path entry) (newWbGitFileState (Some entry)) s)
    (index_entries r) [] in
  let s := fold_left
    (fun s diff => touch_state (b_path diff) (_addStaged diff) s)
    (head_vs_index r) s in
  let s := fold_left
    (fun s diff => touch_state (a_path diff) (_addUnstaged diff) s)
    (index_vs_working r) s in
  fold_left (fun s path => touch_state path _setUntracked s) (untracked_files r) s.

(** [GitProject.__calculateStatus] *)
Definition calculateStatus (self : GitProject) : GitProject :=
  mkProject (prefs_name self) (prefs_path self) (repo self) (ext_calls self)
    (Some (mkIndexFile (index_entries (repo self)))) (tree self)
    (status_of_repo (repo self)) (dirty_index self) (stale_index self)
    (List.length (head_vs_index (repo self))).

(** The loop of [GitProject.__updateTree], from [depth] on, at [node];
    [depths] is what is left of [range( len(path_parts) - 1 )].  The node
    objects are shared with their parent's [all_folders], so a change below
    shows in the parent. *)
Fixpoint updateTreeFrom (path : string) (path_parts : list string)
    (depths : list nat) (node : GitProjectTreeNode) : GitProjectTreeNode :=
  match depths with
  | [] =>
      mkTreeNode (node_name node) (relativePath node) (all_folders node)
        (dict_set (last path_parts "") path (all_files node))
  | depth :: depths' =>
      let node_name' := nth depth path_parts "" in
      let child :=
        match dict_get node_name' (all_folders node) with
        | Some n => n
        | None =>
            newGitProjectTreeNode node_name'
              (pathlib_Path (join "/" (firstn (depth + 1) path_parts)))
        end in
      mkTreeNode (node_name node) (relativePath node)
        (dict_set node_name' (updateTreeFrom path path_parts depths' child)
           (all_folders node))
        (all_files node)
  end.

(** [GitProject.__updateTree] *)
Definition updateTree (path : string) (t : GitProjectTreeNode) : GitProjectTreeNode :=
  let path_parts := split "/" path in
  updateTreeFrom path path_parts (seq 0 (List.length path_parts - 1)) t.

(** [GitProject.updateState] *)
Definition updateState (self : GitProject) : outcome unit * GitProject :=
  if dirty_index self
  then (Raise (AssertionError "repo is dirty, forgot to call saveChanges?"), self)
  else
    let self := set_tree (newGitProjectTreeNode (prefs_name self) (pathlib_Path ".")) self in
    let self := calculateStatus self in
    let t := fold_left (fun t path => updateTree path t)
               (dict_keys (all_file_state self)) (tree self) in
    (Normal tt, set_tree t self).

(** [GitProject.saveChanges] *)
Definition saveChanges (self : GitProject) : outcome unit * GitProject :=
  if negb (dirty_index self || stale_index self)
  then (Raise (AssertionError "Only call saveChanges if something was changed"), self)
  else
    let '(r, self) :=
      if dirty_index self
      then
        match call_ext IndexWrite self with
        | (Normal _, self) => (Normal tt, set_flags false (stale_index self) self)
        | (Raise e, self) => (Raise e, self)
        end
      else (Normal tt, self) in
    match r with
    | Raise e => (Raise e, self)
    | Normal _ => updateState (set_flags (dirty_index self) false self)
    end.

(** The [cmd] methods. *)
Definition cmdStage (filename : PurePath) (self : GitProject)
  : outcome unit * GitProject :=
  match call_ext (GitAdd filename) self with
  | (Normal _, self) => (Normal tt, set_flags (dirty_index self) true self)
  | (Raise e, self) => (Raise e, self)
  end.

Definition cmdUnstage (rev : pyval) (filename : PurePath) (self : GitProject)
  : outcome unit * GitProject :=
  match call_ext (GitResetHead filename) self with
  | (Normal _, self) => (Normal tt, set_flags (dirty_index self) true self)
  | (Raise e, self) => (Raise e, self)
  end.

Definition cmdRevert (rev : pyval) (filename : PurePath) (self : GitProject)
  : outcome unit * GitProject :=
  match call_ext (GitCheckoutHead filename) self with
  | (Normal _, self) => (Normal tt, set_flags (dirty_index self) true self)
  | (Raise e, self) => (Raise e, self)
  end.

Definition cmdDelete (filename : PurePath) (self : GitProject)
  : outcome unit * GitProject :=
  match call_ext (Unlink filename) self with
  | (Normal _, self) => (Normal tt, set_flags (dirty_index self) true self)
  | (Raise e, self) => (Raise e, self)
  end.

(** [cmdCommit] sets the flag first; [self.index] is [None] until the first
    [updateState]. *)
Definition cmdCommit (message : string) (self : GitProject)
  : outcome string * GitProject :=
  let self := set_flags (dirty_index self) true self in
  match index self with
  | None => (Raise (AttributeError "'NoneType' object has no attribute 'commit'"), self)
  | Some _ => call_ext (IndexCommit message) self
  end.

(** [GitProject.getFileState] *)
Definition getFileState (filename : PurePath) (self : GitProject)
  : outcome WbGitFileState :=
  dict_index (path_str filename) (all_file_state self).

(** [GitProjectTreeNode.getStatusEntry]; [project] is [self.project]. *)
Definition getStatusEntry (project : GitProject) (name : string)
    (self : GitProjectTreeNode) : outcome WbGitFileState :=
  path <- dict_index name (all_files self) ;;
  if dict_mem path (all_file_state project)
  then dict_index path (all_file_state project)
  else Normal (newWbGitFileState None).

(** *** Vocabulary of the properties *)


(** Going down from a node through [all_folders], one name at a time. *)
Fixpoint descend (dirs : list string) (n : GitProjectTreeNode)
  : option GitProjectTreeNode :=
  match dirs with
  | [] => Some n
  | d :: rest =>
      match dict_get d (all_folders n) with
      | Some child => descend rest child
      | None => None
      end
  end.

(** [__updateTree] by recursion on the folder names still to go:
    [prefix] is the names already passed. *)
Fixpoint insertFile (path fname : string) (prefix dirs : list string)
    (node : GitProjectTreeNode) : GitProjectTreeNode :=
  match dirs with
  | [] =>
      mkTreeNode (node_name node) (relativePath node) (all_folders node)
        (dict_set fname path (all_files node))
  | d :: rest =>
      let child :=
        match dict_get d (all_folders node) with
        | Some n => n
        | None =>
            newGitProjectTreeNode d (pathlib_Path (join "/" (prefix ++ [d])))
        end in
      mkTreeNode (node_name node) (relativePath node)
        (dict_set d (insertFile path fname (prefix ++ [d]) rest child)
           (all_folders node))
        (all_files node)
  end.

(** Every node below [node], reached by [loc], has the relative path made
    of [prefix] and [loc]. *)
Definition paths_ok (prefix : list string) (node : GitProjectTreeNode) : Prop :=
  forall loc nd,
    loc <> [] -> descend loc node = Some nd ->
    relativePath nd = pathlib_Path (join "/" (prefix ++ loc)).

(** The file [path] is found in the tree [t] where its components lead. *)
Definition filed (t : GitProjectTreeNode) (path : string) : Prop :=
  exists nd,
    descend (removelast (split "/" path)) t = Some nd
    /\ dict_get (last (split "/" path) "") (all_files nd) = Some path.

End WithLibrary.

Arguments descend {PurePath} dirs n.
Arguments insertFile {PurePath} pathlib_Path path fname prefix dirs node.
Arguments paths_ok {PurePath} pathlib_Path prefix node.
Arguments filed {PurePath} t path.

(** *** Further methods *)

Section MoreMethods.
Variable PurePath : Type.

(** [T_], the translation function the application installs as a builtin. *)
Variable T_ : string -> string.

Definition set_all_file_state (states : dict WbGitFileState)
    (self : GitProject PurePath) : GitProject PurePath :=
  mkProject PurePath (prefs_name _ self) (prefs_path _ self) (repo _ self)
    (ext_calls _ self) (index _ self) (tree _ self) states
    (dirty_index _ self) (stale_index _ self) (num_staged_files _ self).

(** The body of the loop of [getReportStagedFiles]: the rows it appends
    for one item, and the file state as the accessors leave it. *)
Definition reportStagedItem (filename : string) (file_state : WbGitFileState)
  : list (string * string) * WbGitFileState :=
  let '(is_new, file_state) := isStagedNew file_state in
  if is_new then ([(T_ "New file", filename)], file_state)
  else
    let '(is_modified, file_state) := isStagedModified file_state in
    if is_modified then ([(T_ "Modified", filename)], file_state)
    else
      let '(is_deleted, file_state) := isStagedDeleted file_state in
      if is_deleted then ([(T_ "Deleted", filename)], file_state)
      else ([], file_state).

(** The body of the loop of [getReportUntrackedFiles]. *)
Definition reportUntrackedItem (filename : string) (file_state : WbGitFileState)
  : list (string * string) * WbGitFileState :=
  if isUntracked file_state then ([(T_ "New file", filename)], file_state)
  else
    let '(is_modified, file_state) := isUnstagedModified file_state in
    if is_modified then ([(T_ "Modified", filename)], file_state)
    else
      let '(is_deleted, file_state) := isUnstagedDeleted file_state in
      if is_deleted then ([(T_ "Deleted", filename)], file_state)
      else ([], file_state).

(** [for filename, file_state in self.all_file_state.items()]: the file
    states are changed in place, the dict keeps its keys and their order. *)
Fixpoint reportItems
    (item : string -> WbGitFileState -> list (string * string) * WbGitFileState)
    (items : dict WbGitFileState)
  : list (string * string) * dict WbGitFileState :=
  match items with
  | [] => ([], [])
  | (filename, file_state) :: rest =>
      let '(rows, file_state) := item filename file_state in
      let '(rows', rest) := reportItems item rest in
      (rows ++ rows', (filename, file_state) :: rest)
  end.

(** [GitProject.getReportStagedFiles] *)
Definition getReportStagedFiles (self : GitProject PurePath)
  : list (string * string) * GitProject PurePath :=
  let '(all_staged_files, states) :=
    reportItems reportStagedItem (all_file_state _ self) in
  (all_staged_files, set_all_file_state states self).

(** [GitProject.getReportUntrackedFiles] *)
Definition getReportUntrackedFiles (self : GitProject PurePath)
  : list (string * string) * GitProject PurePath :=
  let '(all_untracked_files, states) :=
    reportItems reportUntrackedItem (all_file_state _ self) in
  (all_untracked_files, set_all_file_state states self).

(** [GitProject.numStagedFiles] *)
Definition numStagedFiles (self : GitProject PurePath) : nat :=
  num_staged_files _ self.

(** The commit iterator of the library, and for every remote of the
    repository the [ref.commit.hexsha] of each of its refs, in order. *)
Variable iter_commits : CommitLog.IterCommitsCall -> list CommitLog.Commit.
Variable remotes : list (list string).

(** [for remote in self.repo.remotes: for ref in remote.refs: return ...]:
    the value returned at the first ref, if there is one. *)
Fixpoint firstRefDiffers (commit_id : string) (remotes : list (list string))
  : option bool :=
  match remotes with
  | [] => None
  | [] :: rest => firstRefDiffers commit_id rest
  | (remote_id :: _) :: _ => Some (negb (String.eqb commit_id remote_id))
  end.

Fixpoint canPushFrom (commits : list CommitLog.Commit) : bool :=
  match commits with
  | [] => false
  | commit :: rest =>
      match firstRefDiffers (CommitLog.commit_hexsha commit) remotes with
      | Some answer => answer
      | None => canPushFrom rest
      end
  end.

(** [GitProject.canPush] *)
Definition canPush : bool :=
  canPushFrom
    (iter_commits (CommitLog.mkIterCall PyNone [] [("max_count", PyInt 1)])).

(** The first two loops of [getUnpushedCommits]. *)
Definition lastPushedCommitId : string :=
  fold_left (fun last_pushed_commit_id remote =>
               fold_left (fun _ ref => ref) remote last_pushed_commit_id)
    remotes "".

Fixpoint unpushedFrom (last_pushed_commit_id : string)
    (commits : list CommitLog.Commit) : list CommitLog.Commit :=
  match commits with
  | [] => []
  | commit :: rest =>
      if String.eqb last_pushed_commit_id (CommitLog.commit_hexsha commit) then []
      else commit :: unpushedFrom last_pushed_commit_id rest
  end.

(** [GitProject.getUnpushedCommits] *)
Definition getUnpushedCommits : list CommitLog.Commit :=
  unpushedFrom lastPushedCommitId (iter_commits (CommitLog.mkIterCall PyNone [] [])).

End MoreMethods.

(** *** Further vocabulary *)

(** The row label [getReportStagedFiles] gives to a staged code. *)
Definition staged_report_label (code : string) : option string :=
  if String.eqb code "A" then Some "New file"
  else if String.eqb code "M" then Some "Modified"
  else if String.eqb code "D" then Some "Deleted"
  else None.

(** The row label [getReportUntrackedFiles] gives to a file. *)
Definition untracked_report_label (is_untracked : bool) (code : string)
  : option string :=
  if is_untracked then Some "New file"
  else if String.eqb code "M" then Some "Modified"
  else if String.eqb code "D" then Some "Deleted"
  else None.

(** The operations on a project, and the state each leaves, whether it
    returns or raises. *)
Inductive ProjectOp (PurePath : Type) :=
| OpStage (filename : PurePath)
| OpUnstage (rev : pyval) (filename : PurePath)
| OpRevert (rev : pyval) (filename : PurePath)
| OpDelete (filename : PurePath)
| OpCommit (message : string)
| OpSaveChanges
| OpUpdateState
| OpReportStaged
| OpReportUntracked.

Definition run_op {PurePath : Type} (pathlib_Path : string -> PurePath)
    (ext_exec : ExtCall PurePath -> Repo -> outcome string * Repo)
    (T_ : string -> string) (op : ProjectOp PurePath) (self : GitProject PurePath)
  : GitProject PurePath :=
  match op with
  | OpStage _ filename => snd (cmdStage _ ext_exec filename self)
  | OpUnstage _ rev filename => snd (cmdUnstage _ ext_exec rev filename self)
  | OpRevert _ rev filename => snd (cmdRevert _ ext_exec rev filename self)
  | OpDelete _ filename => snd (cmdDelete _ ext_exec filename self)
  | OpCommit _ message => snd (cmdCommit _ ext_exec message self)
  | OpSaveChanges _ => snd (saveChanges _ pathlib_Path ext_exec self)
  | OpUpdateState _ => snd (updateState _ pathlib_Path self)
  | OpReportStaged _ => snd (getReportStagedFiles _ T_ self)
  | OpReportUntracked _ => snd (getReportUntrackedFiles _ T_ self)
  end.

(** The last element of a list that is stored under [path]. *)
Definition last_with {X : Type} (key : X -> string) (path : string) (xs : list X)
  : option X :=
  last (map Some (filter (fun x => String.eqb (key x) path) xs)) None.

(** The file state [__calculateStatus] leaves for [path], from what the
    library reported: none when nothing names the path. *)
Definition expected_state (entries : list IndexEntry) (staged unstaged : list Diff)
    (untracked_paths : list string) (path : string) : option WbGitFileState :=
  if existsb (fun e => String.eqb (entry_path e) path) entries
     || existsb (fun d => String.eqb (b_path d) path) staged
     || existsb (fun d => String.eqb (a_path d) path) unstaged
     || existsb (fun p => String.eqb p path) untracked_paths
  then Some (mkFileState (last_with entry_path path entries)
               (last_with a_path path unstaged)
               (last_with b_path path staged)
               (existsb (fun p => String.eqb p path) untracked_paths)
               false false false None None None None)
  else None.

(** The rows of the two reports, from the diffs a file state holds. *)
Definition staged_rows (T_ : string -> string) (item : string * WbGitFileState)
  : list (string * string) :=
  match staged_report_label (staged_code (staged_diff (snd item))) with
  | Some label => [(T_ label, fst item)]
  | None => []
  end.

Definition untracked_rows (T_ : string -> string) (item : string * WbGitFileState)
  : list (string * string) :=
  match untracked_report_label (untracked (snd item))
          (unstaged_code (unstaged_diff (snd item))) with
  | Some label => [(T_ label, fst item)]
  | None => []
  end.

(** All the file states of a status map were made by the class's methods. *)
Definition states_reachable (states : dict WbGitFileState) : Prop :=
  forall path fs, In (path, fs) states -> reachable fs.

(** Every file entry of the tree is one of the paths in [P], filed under
    its own components; every node below the root is named by the last
    component that leads to it. *)
Definition files_from {PurePath : Type} (P : string -> Prop)
    (t : GitProjectTreeNode PurePath) : Prop :=
  forall loc nd name path,
    descend loc t = Some nd -> dict_get name (all_files _ nd) = Some path ->
    P path /\ split "/" path = loc ++ [name].

Definition names_follow {PurePath : Type} (t : GitProjectTreeNode PurePath) : Prop :=
  forall loc nd, loc <> [] -> descend loc t = Some nd -> node_name _ nd = last loc "".

(** The projects a program can hold: made by [__init__], then changed by
    the methods only. *)
Inductive project_reachable {PurePath : Type} (pathlib_Path : string -> PurePath)
    (ext_exec : ExtCall PurePath -> Repo -> outcome string * Repo)
    (T_ : string -> string) : GitProject PurePath -> Prop :=
| reach_newGitProject (name : string) (path : PurePath) (r : Repo) :
    project_reachable pathlib_Path ext_exec T_
      (newGitProject _ pathlib_Path name path r)
| reach_run_op (op : ProjectOp PurePath) (self : GitProject PurePath) :
    project_reachable pathlib_Path ext_exec T_ self ->
    project_reachable pathlib_Path ext_exec T_
      (run_op pathlib_Path ext_exec T_ op self).

(** What every method keeps: the index is never marked dirty, so it is
    never written, and the file states are those the class's methods make. *)
Definition run_invariant {PurePath : Type} (self : GitProject PurePath) : Prop :=
  dirty_index _ self = false
  /\ ~ In (IndexWrite PurePath) (ext_calls _ self)
  /\ states_reachable (all_file_state _ self).

(** The items of a status map that hold a staged diff. *)
Definition has_staged_diff (item : string * WbGitFileState) : bool :=
  match staged_diff (snd item) with Some _ => true | None => false end.

End Project.

(** ** The unified-diff view: [WbDiffView] *)

Module DiffView.
Import Py.

Definition style_header : nat := 0.
Definition style_normal : nat := 1.
Definition style_add : nat := 2.
Definition style_delete : nat := 3.

Definition all_style_colours : list (nat * string * string) :=
  [ (style_header, "#00cc00", "#ffffff");
    (style_normal, "#000000", "#ffffff");
    (style_add,    "#DC143C", "#ffffff");
    (style_delete, "#1919c0", "#ffffff") ].

(** A [QTextCharFormat]: foreground and background colour. *)
Definition TextFormat := (string * string)%type.

Inductive Cursor := AtStart | AtEnd.

(** The widget: the formats made by [__init__], the runs of text inserted
    in the [QTextEdit] with their format, and where its cursor is. *)
Record WbDiffView := mkView {
  all_text_formats : list (nat * TextFormat);
  text_edit : list (string * TextFormat);
  cursor : Cursor
}.

(** The part of [WbDiffView.__init__] that fills the widget's state. *)
Definition newWbDiffView : WbDiffView :=
  mkView (map (fun '(style, fg_colour, bg_colour) => (style, (fg_colour, bg_colour)))
            all_style_colours)
         [] AtStart.

Fixpoint format_of (style : nat) (formats : list (nat * TextFormat))
  : option TextFormat :=
  match formats with
  | [] => None
  | (s, f) :: rest => if Nat.eqb style s then Some f else format_of style rest
  end.

Definition newline : string := String (ascii_of_nat 10) EmptyString.

(** [WbDiffView.writeStyledText] *)
Definition writeStyledText (text : string) (style : nat) (self : WbDiffView)
  : outcome unit * WbDiffView :=
  let self := mkView (all_text_formats self) (text_edit self) AtEnd in
  match format_of style (all_text_formats self) with
  | None => (Raise (KeyError "style"), self)
  | Some format =>
      (Normal tt,
       mkView (all_text_formats self) (text_edit self ++ [(text, format)]) AtEnd)
  end.

(** [WbDiffView.ensureStartVisible] *)
Definition ensureStartVisible (self : WbDiffView) : WbDiffView :=
  mkView (all_text_formats self) (text_edit self) AtStart.

(** [line[0]], which raises [IndexError] on the empty string *)
Definition first_char (line : string) : outcome string :=
  match line with
  | EmptyString => Raise IndexError
  | String c _ => Normal (String c EmptyString)
  end.

(** The body of the loop of [setUnifiedDiffText]. *)
Definition writeDiffLine (line : string) (self : WbDiffView)
  : outcome unit * WbDiffView :=
  match first_char line with
  | Raise e => (Raise e, self)
  | Normal c =>
      if String.eqb c "-" then writeStyledText (line ++ newline) style_delete self
      else if String.eqb c "+" then writeStyledText (line ++ newline) style_add self
      else if String.eqb c " " then writeStyledText (line ++ newline) style_normal self
      else writeStyledText (line ++ newline) style_header self
  end.

Fixpoint writeDiffLines (all_lines : list string) (self : WbDiffView)
  : outcome unit * WbDiffView :=
  match all_lines with
  | [] => (Normal tt, self)
  | line :: rest =>
      match writeDiffLine line self with
      | (Normal _, self) => writeDiffLines rest self
      | (Raise e, self) => (Raise e, self)
      end
  end.

(** [WbDiffView.setUnifiedDiffText] *)
Definition setUnifiedDiffText (all_lines : list string) (self : WbDiffView)
  : outcome unit * WbDiffView :=
  match writeDiffLines all_lines self with
  | (Normal _, self) => (Normal tt, ensureStartVisible self)
  | (Raise e, self) => (Raise e, self)
  end.

(** *** Vocabulary of the properties *)

(** The style the claim gives to a line that starts with [c]. *)
Definition style_of_first (c : ascii) : nat :=
  if Ascii.eqb c "-" then style_delete
  else if Ascii.eqb c "+" then style_add
  else if Ascii.eqb c " " then style_normal
  else style_header.

(** What a rendered line looks like in the text edit. *)
Definition rendered (line : string) : list (string * TextFormat) :=
  match line with
  | EmptyString => []
  | String c _ =>
      match format_of (style_of_first c) (all_text_formats newWbDiffView) with
      | Some f => [((line ++ newline)%string, f)]
      | None => []
      end
  end.

Definition initial_formats (v : WbDiffView) : Prop :=
  all_text_formats v = all_text_formats newWbDiffView.

(** The lines before the first empty one. *)
Fixpoint before_empty (all_lines : list string) : list string :=
  match all_lines with
  | [] => []
  | EmptyString :: _ => []
  | line :: rest => line :: before_empty rest
  end.

(** *** The registry of the open views *)

(** The class attributes [uid] and [all_diff_views].  The dict maps a
    window uid to the view object that got it; it is kept by its keys, in
    the order of the dict. *)
Record DiffViewClass := mkClass {
  uid : nat;
  all_diff_views : list nat
}.

Definition initialDiffViewClass : DiffViewClass := mkClass 0 [].

(** The part of [WbDiffView.__init__] that registers the view; it returns
    the view's [window_uid]. *)
Definition registerView (cls : DiffViewClass) : nat * DiffViewClass :=
  let uid' := uid cls + 1 in
  let window_uid := uid' in
  (window_uid,
   mkClass uid'
     (if existsb (Nat.eqb window_uid) (all_diff_views cls)
      then all_diff_views cls
      else all_diff_views cls ++ [window_uid])).

(** [WbDiffView.closeEvent]: [del WbDiffView.all_diff_views[ self.window_uid ]] *)
Definition closeEvent (window_uid : nat) (cls : DiffViewClass)
  : outcome unit * DiffViewClass :=
  if existsb (Nat.eqb window_uid) (all_diff_views cls)
  then (Normal tt,
        mkClass (uid cls)
          (filter (fun k => negb (Nat.eqb window_uid k)) (all_diff_views cls)))
  else (Raise (KeyError "window_uid"), cls).

(** The class states a program can reach. *)
Inductive class_reachable : DiffViewClass -> Prop :=
| reach_initial : class_reachable initialDiffViewClass
| reach_register (cls : DiffViewClass) :
    class_reachable cls -> class_reachable (snd (registerView cls))
| reach_close (window_uid : nat) (cls : DiffViewClass) :
    class_reachable cls -> class_reachable (snd (closeEvent window_uid cls)).

End DiffView.

(** ** Example data *)

Module Examples.
Import Py FileState Project.

(** A library instance: paths are their strings, every call returns. *)
Definition demo_Path (s : string) : string := s.
Definition demo_exec (c : ExtCall string) (r : Repo) : outcome string * Repo :=
  (Normal "", r).


(** A repository with two tracked files, one of them newly staged, and an
    untracked file two folders down. *)
Definition staged_new_diff : Diff :=
  mkDiff "src/a.py" "src/a.py" (Some (mkBlob "h1" 33188%N)) None false true false.

Definition demo_repo : Repo :=
  mkRepo [mkIndexEntry "src/a.py" "h1" 0; mkIndexEntry "README" "h2" 0]
         [staged_new_diff] [] ["doc/x/notes.txt"].

Definition demo_project : GitProject string :=
  newGitProject string demo_Path "demo" "/work/demo" demo_repo.

(** The same project and repository, holding an unrelated tree and map. *)
Definition demo_project_old_state : GitProject string :=
  mkProject string "demo" "/work/demo" demo_repo [] None
    (mkTreeNode string "demo" "." [] [("gone", "gone")])
    [("gone", newWbGitFileState None)] false true 7.

Definition staged_new_state : WbGitFileState :=
  _addStaged staged_new_diff (newWbGitFileState None).

(** A staged change of the file mode alone: the same blob id on both sides,
    mode 100755 in the index and 100644 in HEAD. *)
Definition mode_change_diff : Diff :=
  mkDiff "run.sh" "run.sh" (Some (mkBlob "h3" 33261%N)) (Some (mkBlob "h3" 33188%N))
    false false false.

Definition mode_change_state : WbGitFileState :=
  _addStaged mode_change_diff
    (newWbGitFileState (Some (mkIndexEntry "run.sh" "h3" 0))).

(** An entry that has no HEAD side and on which no flag is set. *)
Definition unflagged_diff : Diff :=
  mkDiff "merge.txt" "merge.txt" (Some (mkBlob "h4" 33188%N)) None false false false.

Definition unflagged_state : WbGitFileState :=
  _addStaged unflagged_diff (newWbGitFileState None).

End Examples.

(** * Properties *)

Import Py.

(** ** Keyword arguments of the commit iterator *)

Section CommitLogCalls.
Import CommitLog.

Lemma repositoryLogCall_until (limit since until : pyval) :
  dict_get "until" (ic_kwds (repositoryLogCall limit since until))
  = if is_not_None since then Some until else None.
Proof.
  unfold repositoryLogCall.
  destruct limit, since; reflexivity.
Qed.

Lemma fileLogCall_until (filename : string) (limit since until : pyval) :
  dict_get "until" (ic_kwds (fileLogCall filename limit since until))
  = if is_not_None since then Some until else None.
Proof.
  unfold fileLogCall.
  destruct limit, since; reflexivity.
Qed.

Lemma repositoryLogCall_no_since (limit until until' : pyval) :
  repositoryLogCall limit PyNone until = repositoryLogCall limit PyNone until'.
Proof. destruct limit; reflexivity. Qed.

Lemma fileLogCall_no_since (filename : string) (limit until until' : pyval) :
  fileLogCall filename limit PyNone until = fileLogCall filename limit PyNone until'.
Proof. destruct limit; reflexivity. Qed.

End CommitLogCalls.

(** ** The unified-diff view *)

Section DiffViewFacts.
Import DiffView.

Lemma one_char_eqb (c d : ascii) :
  String.eqb (String c EmptyString) (String d EmptyString) = Ascii.eqb c d.
Proof. simpl. destruct (Ascii.eqb c d); reflexivity. Qed.

Lemma writeDiffLine_nonempty (c : ascii) (rest : string) (v : WbDiffView) :
  initial_formats v ->
  writeDiffLine (String c rest) v
  = (Normal tt,
     mkView (all_text_formats v) (text_edit v ++ rendered (String c rest)) AtEnd).
Proof.
  intros Hf. unfold writeDiffLine, first_char.
  change "-" with (String "-"%char EmptyString).
  change "+" with (String "+"%char EmptyString).
  change " " with (String " "%char EmptyString).
  rewrite !one_char_eqb.
  unfold rendered, style_of_first, writeStyledText. cbn [all_text_formats text_edit].
  rewrite Hf.
  destruct (Ascii.eqb c "-"); [reflexivity|].
  destruct (Ascii.eqb c "+"); [reflexivity|].
  destruct (Ascii.eqb c " "); reflexivity.
Qed.

Lemma writeDiffLine_empty (v : WbDiffView) :
  writeDiffLine "" v = (Raise IndexError, v).
Proof. reflexivity. Qed.

Lemma writeDiffLines_text (all_lines : list string) :
  forall v, initial_formats v ->
    let '(r, v') := writeDiffLines all_lines v in
    initial_formats v'
    /\ text_edit v' = text_edit v ++ flat_map rendered (before_empty all_lines)
    /\ r = (if existsb (String.eqb "") all_lines then Raise IndexError else Normal tt).
Proof.
  induction all_lines as [|line rest IH]; intros v Hf.
  - cbn. rewrite app_nil_r. auto.
  - destruct line as [|c s].
    + cbn. rewrite app_nil_r. auto.
    + cbn [writeDiffLines]. rewrite (writeDiffLine_nonempty c s v Hf).
      set (v1 := mkView _ _ _).
      assert (Hf1 : initial_formats v1) by exact Hf.
      specialize (IH v1 Hf1).
      destruct (writeDiffLines rest v1) as [r v'].
      destruct IH as (H1 & H2 & H3).
      split; [exact H1|]. split.
      * rewrite H2. subst v1. cbn [text_edit before_empty flat_map].
        now rewrite <- app_assoc.
      * exact H3.
Qed.

Lemma existsb_empty_In (all_lines : list string) :
  In "" all_lines -> existsb (String.eqb "") all_lines = true.
Proof.
  intros H. apply existsb_exists. exists "". split; [exact H | reflexivity].
Qed.

Lemma before_empty_prefix (all_lines : list string) :
  In "" all_lines ->
  exists rest, all_lines = before_empty all_lines ++ "" :: rest.
Proof.
  induction all_lines as [|line rest IH]; intros H; [destruct H|].
  destruct line as [|c s].
  - exists rest. reflexivity.
  - destruct H as [H|H]; [discriminate|].
    destruct (IH H) as [rest' E]. exists rest'.
    cbn [before_empty app]. now rewrite <- E.
Qed.

Lemma before_empty_all (all_lines : list string) :
  existsb (String.eqb "") all_lines = false -> before_empty all_lines = all_lines.
Proof.
  induction all_lines as [|line rest IH]; intros H; [reflexivity|].
  destruct line as [|c s]; [discriminate|].
  cbn in H. cbn. now rewrite IH.
Qed.

(** C9: a line is styled by its first character alone ('-' delete, '+' add,
    ' ' normal, anything else header); when the list holds an empty string,
    [setUnifiedDiffText] raises [IndexError] at the first one, with the lines
    before it written and none after it. *)
Theorem setUnifiedDiffText_first_char :
  forall (all_lines : list string) (v : WbDiffView),
    initial_formats v ->
    (forall c rest rest',
        snd (writeDiffLine (String c rest) v)
        = mkView (all_text_formats v)
            (text_edit v ++ [((String c rest ++ newline)%string,
                              (match style_of_first c with
                               | 0 => ("#00cc00", "#ffffff")
                               | 1 => ("#000000", "#ffffff")
                               | 2 => ("#DC143C", "#ffffff")
                               | _ => ("#1919c0", "#ffffff")
                               end))]) AtEnd
        /\ map snd (rendered (String c rest)) = map snd (rendered (String c rest')))
    /\ (In "" all_lines ->
        fst (setUnifiedDiffText all_lines v) = Raise IndexError
        /\ exists rest,
             all_lines = before_empty all_lines ++ "" :: rest
             /\ text_edit (snd (setUnifiedDiffText all_lines v))
                = text_edit v ++ flat_map rendered (before_empty all_lines))
    /\ (~ In "" all_lines ->
        setUnifiedDiffText all_lines v
        = (Normal tt,
           mkView (all_text_formats v)
             (text_edit v ++ flat_map rendered all_lines) AtStart)).
Proof.
  intros all_lines v Hf. split; [|split].
  - intros c rest rest'. rewrite (writeDiffLine_nonempty c rest v Hf).
    cbn [snd]. split.
    + unfold rendered, style_of_first.
      destruct (Ascii.eqb c "-"); [reflexivity|].
      destruct (Ascii.eqb c "+"); [reflexivity|].
      destruct (Ascii.eqb c " "); reflexivity.
    + unfold rendered.
      destruct (format_of (style_of_first c) (all_text_formats newWbDiffView));
        reflexivity.
  - intros Hin.
    pose proof (writeDiffLines_text all_lines v Hf) as H.
    unfold setUnifiedDiffText.
    destruct (writeDiffLines all_lines v) as [r v'].
    destruct H as (_ & H2 & H3).
    rewrite (existsb_empty_In _ Hin) in H3. subst r. cbn [fst snd].
    split; [reflexivity|].
    destruct (before_empty_prefix _ Hin) as [rest E].
    exists rest. split; [exact E | exact H2].
  - intros Hnin.
    assert (He : existsb (String.eqb "") all_lines = false).
    { destruct (existsb (String.eqb "") all_lines) eqn:E; [|reflexivity].
      apply existsb_exists in E. destruct E as (x & Hx & Ex).
      apply String.eqb_eq in Ex. subst x. contradiction. }
    pose proof (writeDiffLines_text all_lines v Hf) as H.
    unfold setUnifiedDiffText.
    destruct (writeDiffLines all_lines v) as [r v'].
    destruct H as (H1 & H2 & H3).
    rewrite He in H3. subst r.
    rewrite (before_empty_all _ He) in H2.
    unfold ensureStartVisible. rewrite H2. now rewrite H1, Hf.
Qed.

(** A diff with a blank line in the middle: the header and the first
    context line are written, then the call raises. *)
Lemma setUnifiedDiffText_first_char_witness :
  initial_formats newWbDiffView
  /\ In "" ["@@ -1 +1 @@"; " a"; ""; "+b"]
  /\ fst (setUnifiedDiffText ["@@ -1 +1 @@"; " a"; ""; "+b"] newWbDiffView)
     = Raise IndexError.
Proof.
  split; [reflexivity|]. split; [simpl; auto|].
  apply (setUnifiedDiffText_first_char
           ["@@ -1 +1 @@"; " a"; ""; "+b"] newWbDiffView eq_refl).
  simpl; auto.
Defined.

End DiffViewFacts.

(** ** The project: flags, refresh and look-ups *)

Section ProjectFacts.
Import FileState Project.

Variable PurePath : Type.
Variable pathlib_Path : string -> PurePath.
Variable path_str : PurePath -> string.
Variable ext_exec : ExtCall PurePath -> Repo -> outcome string * Repo.

#[local, warnings="-notation-for-abbreviation"]
Notation GitProject := (GitProject PurePath).
#[local, warnings="-notation-for-abbreviation"]
Notation updateState := (updateState PurePath pathlib_Path).
#[local, warnings="-notation-for-abbreviation"]
Notation saveChanges := (saveChanges PurePath pathlib_Path ext_exec).
#[local, warnings="-notation-for-abbreviation"]
Notation call_ext := (call_ext PurePath ext_exec).




Lemma updateState_normal (self : GitProject) :
  dirty_index _ self = false ->
  exists self',
    updateState self = (Normal tt, self')
    /\ dirty_index _ self' = false
    /\ stale_index _ self' = stale_index _ self
    /\ ext_calls _ self' = ext_calls _ self
    /\ repo _ self' = repo _ self
    /\ all_file_state _ self' = status_of_repo (repo _ self)
    /\ num_staged_files _ self' = List.length (head_vs_index (repo _ self))
    /\ tree _ self'
       = fold_left (fun t path => updateTree _ pathlib_Path path t)
           (dict_keys (status_of_repo (repo _ self)))
           (newGitProjectTreeNode _ (prefs_name _ self) (pathlib_Path ".")).
Proof.
  intros Hd. unfold Project.updateState. rewrite Hd.
  eexists. split; [reflexivity|]. cbn. rewrite Hd. repeat split.
Qed.


(** C7: [updateState] rebuilds the tree and the status map from the
    repository (and the project name) alone: two projects over the same
    repository get equal trees and equal maps, whatever they held before. *)
Theorem updateState_rebuilds_wholesale :
  forall (s1 s2 : GitProject),
    prefs_name _ s1 = prefs_name _ s2 ->
    repo _ s1 = repo _ s2 ->
    dirty_index _ s1 = false ->
    dirty_index _ s2 = false ->
    fst (updateState s1) = Normal tt
    /\ fst (updateState s2) = Normal tt
    /\ tree _ (snd (updateState s1)) = tree _ (snd (updateState s2))
    /\ all_file_state _ (snd (updateState s1)) = all_file_state _ (snd (updateState s2))
    /\ num_staged_files _ (snd (updateState s1)) = num_staged_files _ (snd (updateState s2)).
Proof.
  intros s1 s2 Hn Hr Hd1 Hd2.
  destruct (updateState_normal s1 Hd1) as (t1 & E1 & _ & _ & _ & _ & A1 & N1 & T1).
  destruct (updateState_normal s2 Hd2) as (t2 & E2 & _ & _ & _ & _ & A2 & N2 & T2).
  rewrite E1, E2. cbn [fst snd].
  rewrite A1, A2, N1, N2, T1, T2, Hn, Hr. auto.
Qed.

(** C10: [getFileState] raises [KeyError] when [str(filename)] is not a key
    of [all_file_state]; [getStatusEntry] returns for every name in the
    node's [all_files], and for a path that has no state it returns a fresh
    [WbGitFileState]: no index entry, no diffs, not untracked, and both
    abbreviated statuses empty. *)
Theorem getFileState_raises_getStatusEntry_defaults :
  forall (project : GitProject) (filename : PurePath)
         (node : GitProjectTreeNode PurePath) (name : string),
    (dict_mem (path_str filename) (all_file_state _ project) = false ->
     getFileState _ path_str filename project = Raise (KeyError (path_str filename)))
    /\ (dict_mem name (all_files _ node) = true ->
        exists path entry,
          dict_get name (all_files _ node) = Some path
          /\ getStatusEntry _ project name node = Normal entry
          /\ (dict_mem path (all_file_state _ project) = true ->
              dict_get path (all_file_state _ project) = Some entry)
          /\ (dict_mem path (all_file_state _ project) = false ->
              entry = newWbGitFileState None
              /\ index_entry entry = None
              /\ staged_diff entry = None
              /\ unstaged_diff entry = None
              /\ isUntracked entry = false
              /\ fst (getStagedAbbreviatedStatus entry) = Some ""
              /\ fst (getUnstagedAbbreviatedStatus entry) = Some "")).
Proof.
  intros project filename node name. split.
  - unfold dict_mem, Project.getFileState, dict_index.
    destruct (dict_get (path_str filename) (all_file_state _ project));
      [discriminate | reflexivity].
  - unfold Project.getStatusEntry, dict_index, dict_mem.
    destruct (dict_get name (all_files _ node)) as [path|]; [|discriminate].
    intros _. cbn [bind].
    destruct (dict_get path (all_file_state _ project)) as [fs|] eqn:E.
    + exists path, fs. rewrite E. split; [reflexivity|]. split; [reflexivity|].
      split; [reflexivity | discriminate].
    + exists path, (newWbGitFileState None). rewrite E.
      split; [reflexivity|]. split; [reflexivity|].
      split; [discriminate|]. intros _. repeat split.
Qed.

End ProjectFacts.

(** ** Per-file status: classification and its cache *)

Section FileStateFacts.
Import FileState.

Lemma calculateStaged_abbrev (s : WbGitFileState) :
  staged_abbrev (calculateStaged s) = Some (staged_code (staged_diff s))
  /\ staged_diff (calculateStaged s) = staged_diff s
  /\ unstaged_diff (calculateStaged s) = unstaged_diff s
  /\ index_entry (calculateStaged s) = index_entry s
  /\ untracked (calculateStaged s) = untracked s.
Proof.
  unfold calculateStaged, staged_code.
  destruct (staged_diff s) as [d|] eqn:E; [|cbn; auto].
  destruct (renamed d); [cbn; auto|].
  destruct (deleted_file d); [cbn; auto|].
  destruct (new_file d); cbn; auto.
Qed.

Lemma calculateUnstaged_abbrev (s : WbGitFileState) :
  unstaged_abbrev (calculateUnstaged s) = Some (unstaged_code (unstaged_diff s))
  /\ staged_abbrev (calculateUnstaged s) = staged_abbrev s
  /\ staged_diff (calculateUnstaged s) = staged_diff s
  /\ unstaged_diff (calculateUnstaged s) = unstaged_diff s
  /\ index_entry (calculateUnstaged s) = index_entry s
  /\ untracked (calculateUnstaged s) = untracked s.
Proof.
  unfold calculateUnstaged, unstaged_code.
  destruct (unstaged_diff s) as [d|] eqn:E; [|cbn; auto 6].
  destruct (deleted_file d); [cbn; auto 6|].
  destruct (new_file d); cbn; auto 6.
Qed.

Lemma calculateState_fresh (s : WbGitFileState) :
  state_calculated s = false ->
  state_calculated (calculateState s) = true
  /\ staged_abbrev (calculateState s) = Some (staged_code (staged_diff s))
  /\ unstaged_abbrev (calculateState s) = Some (unstaged_code (unstaged_diff s))
  /\ staged_diff (calculateState s) = staged_diff s
  /\ unstaged_diff (calculateState s) = unstaged_diff s.
Proof.
  intros H. unfold calculateState. rewrite H. cbn.
  destruct (calculateUnstaged_abbrev (calculateStaged s)) as (U1 & U2 & U3 & U4 & _).
  destruct (calculateStaged_abbrev s) as (S1 & S2 & S3 & _).
  rewrite U1, U2, U3, U4, S1, S2, S3. auto.
Qed.

Lemma calculateState_cached (s : WbGitFileState) :
  state_calculated s = true -> calculateState s = s.
Proof. intros H. unfold calculateState. now rewrite H. Qed.

Lemma calculateState_calculated (s : WbGitFileState) :
  state_calculated (calculateState s) = true.
Proof.
  destruct (state_calculated s) eqn:E.
  - now rewrite calculateState_cached.
  - now apply calculateState_fresh.
Qed.

Lemma reachable_cache_valid (s : WbGitFileState) :
  reachable s -> cache_valid s.
Proof.
  induction 1 as [e|d s _ _|d s _ _|s _ IH|s _ IH]; unfold cache_valid in *.
  - discriminate.
  - discriminate.
  - discriminate.
  - exact IH.
  - intros _. destruct (state_calculated s) eqn:E.
    + rewrite (calculateState_cached s E). now apply IH.
    + destruct (calculateState_fresh s E) as (_ & H1 & H2 & H3 & H4).
      now rewrite H1, H2, H3, H4.
Qed.

(** After [__calculateState] the codes are those of the diffs held. *)
Lemma calculateState_codes (s : WbGitFileState) :
  reachable s ->
  staged_abbrev (calculateState s) = Some (staged_code (staged_diff s))
  /\ unstaged_abbrev (calculateState s) = Some (unstaged_code (unstaged_diff s)).
Proof.
  intros R. destruct (state_calculated s) eqn:E.
  - rewrite (calculateState_cached s E). now apply reachable_cache_valid.
  - destruct (calculateState_fresh s E) as (_ & H1 & H2 & _). auto.
Qed.

Lemma call_state (a : Accessor) (s : WbGitFileState) :
  snd (call a s) = calculateState s.
Proof. destruct a; reflexivity. Qed.







(** The flag behind [canDiffHeadVsStaged] is set by [__calculateState] and
    never cleared: it outlives the staged diff that set it. *)
Lemma canDiffHeadVsStaged_outlives_diff :
  let modified := mkDiff "f" "f" (Some (mkBlob "h2" 33188%N))
                    (Some (mkBlob "h1" 33188%N)) false false false in
  let added := mkDiff "f" "f" (Some (mkBlob "h2" 33188%N)) None false true false in
  let s1 := snd (isStagedModified (_addStaged modified (newWbGitFileState None))) in
  let s2 := _addStaged added s1 in
  fst (getStagedAbbreviatedStatus s2) = Some "A"
  /\ fst (canDiffHeadVsStaged s2) = true.
Proof. split; reflexivity. Qed.

(** C3: for a file state that holds a staged diff, a renamed entry is 'R'
    whatever else it says; otherwise the classification reads the two flags
    of the diff and nothing else: [isStagedNew] holds exactly when
    [deleted_file] is set (the diff runs from the index to HEAD, so the flag
    marks a file that HEAD does not have), [isStagedDeleted] exactly when
    [deleted_file] is not set and [new_file] is, [isStagedModified] exactly
    when neither is set.  On the entries whose flags say which side is
    missing, new means in the index and not in HEAD, deleted means in HEAD
    and not in the index, and modified means on both sides, with the same
    content or not. *)
Theorem staged_classification :
  forall (s : WbGitFileState) (d : Diff),
    reachable s ->
    staged_diff s = Some d ->
    (renamed d = true ->
     fst (getStagedAbbreviatedStatus s) = Some "R"
     /\ fst (isStagedNew s) = false
     /\ fst (isStagedDeleted s) = false
     /\ fst (isStagedModified s) = false)
    /\ (renamed d = false ->
        (fst (isStagedNew s) = true <-> deleted_file d = true)
        /\ (fst (isStagedDeleted s) = true
            <-> deleted_file d = false /\ new_file d = true)
        /\ (fst (isStagedModified s) = true
            <-> deleted_file d = false /\ new_file d = false)
        /\ (flags_agree_with_sides d ->
            (fst (isStagedNew s) = true <-> added_to_index d)
            /\ (fst (isStagedDeleted s) = true <-> removed_from_index d)
            /\ (fst (isStagedModified s) = true <-> on_both_sides d))).
Proof.
  intros s d R Hd.
  destruct (calculateState_codes s R) as [H1 _].
  unfold getStagedAbbreviatedStatus, isStagedNew, isStagedDeleted, isStagedModified.
  cbn [fst]. rewrite H1, Hd. unfold staged_code, abbrev_is.
  split; intros Hr; rewrite Hr; [auto|].
  split; [|split; [|split]].
  - destruct (deleted_file d), (new_file d); cbn; split; congruence.
  - destruct (deleted_file d), (new_file d); cbn;
      (split; [try discriminate; auto | intros [? ?]; congruence]).
  - destruct (deleted_file d), (new_file d); cbn;
      (split; [try discriminate; auto | intros [? ?]; congruence]).
  - intros (Hdel & Hnew & Hside).
    unfold added_to_index, removed_from_index, on_both_sides.
    destruct (deleted_file d) eqn:Ed; destruct (new_file d) eqn:En;
      destruct (a_blob d) as [a|] eqn:Ea; destruct (b_blob d) as [b|] eqn:Eb;
      cbn;
      try (destruct Hdel as [Hdel1 Hdel2]; destruct Hnew as [Hnew1 Hnew2];
           first [ now (specialize (Hdel1 eq_refl); discriminate)
                 | now (specialize (Hnew1 eq_refl); discriminate)
                 | now (specialize (Hdel2 eq_refl); discriminate)
                 | now (specialize (Hnew2 eq_refl); discriminate) ]).
    + destruct Hside as [H|H]; now contradiction H.
    + split; [|split].
      * split; [intros _; split; [discriminate | reflexivity] | reflexivity].
      * split; [discriminate | intros (H & _); discriminate].
      * split; [discriminate | intros (_ & H); now contradiction H].
    + split; [|split].
      * split; [discriminate | intros (H & _); now contradiction H].
      * split; [intros _; split; [reflexivity | discriminate] | reflexivity].
      * split; [discriminate | intros (H & _); now contradiction H].
    + split; [|split].
      * split; [discriminate | intros (_ & H); discriminate].
      * split; [discriminate | intros (H & _); discriminate].
      * split; [|reflexivity]. intros _. split; discriminate.
Qed.

End FileStateFacts.

(** ** Dicts, [split] and [join] *)

Section DictFacts.
Context {V : Type}.
Implicit Types (d : dict V) (k : string) (v : V).

Lemma dict_get_set_same k v d : dict_get k (dict_set k v d) = Some v.
Proof.
  induction d as [|[k' v'] d IH]; cbn.
  - now rewrite String.eqb_refl.
  - destruct (String.eqb k k') eqn:E; cbn; rewrite E; [reflexivity | exact IH].
Qed.

Lemma dict_get_set_other k k' v d :
  k <> k' -> dict_get k (dict_set k' v d) = dict_get k d.
Proof.
  intros Hne. induction d as [|[k0 v0] d IH]; cbn.
  - apply String.eqb_neq in Hne. now rewrite Hne.
  - destruct (String.eqb k' k0) eqn:E; cbn.
    + apply String.eqb_eq in E. subst k0.
      apply String.eqb_neq in Hne. now rewrite Hne.
    + now rewrite IH.
Qed.

Lemma dict_get_In_keys k d :
  In k (dict_keys d) <-> exists v, dict_get k d = Some v.
Proof.
  induction d as [|[k' v'] d IH]; cbn.
  - split; [tauto | intros [v H]; discriminate].
  - destruct (String.eqb k k') eqn:E.
    + apply String.eqb_eq in E. subst k'. split; eauto.
    + apply String.eqb_neq in E. rewrite <- IH. split; [|tauto].
      intros [H|H]; [congruence | exact H].
Qed.

Lemma dict_mem_In_keys k d : dict_mem k d = true <-> In k (dict_keys d).
Proof.
  rewrite dict_get_In_keys. unfold dict_mem.
  destruct (dict_get k d); split; eauto; try discriminate.
  intros [v H]; discriminate.
Qed.

Lemma dict_keys_set k k' v d :
  In k (dict_keys (dict_set k' v d)) <-> k = k' \/ In k (dict_keys d).
Proof.
  rewrite !dict_get_In_keys.
  destruct (string_dec k k') as [->|Hne].
  - rewrite dict_get_set_same. split; eauto.
  - rewrite (dict_get_set_other _ _ _ _ Hne). split; [auto|].
    intros [H|H]; [contradiction | exact H].
Qed.

End DictFacts.

Lemma split_nonempty (sep : ascii) (s : string) : split sep s <> [].
Proof.
  destruct s as [|c s]; cbn; [discriminate|].
  destruct (Ascii.eqb c sep); [discriminate|].
  destruct (split sep s); discriminate.
Qed.

Lemma join_split (sep : ascii) (s : string) :
  join (String sep EmptyString) (split sep s) = s.
Proof.
  induction s as [|c s IH]; [reflexivity|].
  cbn [split]. destruct (Ascii.eqb c sep) eqn:E.
  - apply Ascii.eqb_eq in E. subst c.
    pose proof (split_nonempty sep s) as Hne.
    destruct (split sep s) as [|h t]; [contradiction|].
    cbn [join]. cbn [join] in IH. rewrite IH. reflexivity.
  - pose proof (split_nonempty sep s) as Hne.
    destruct (split sep s) as [|h t]; [contradiction|].
    destruct t as [|h' t'].
    + cbn in *. now rewrite IH.
    + change (String c (join (String sep EmptyString) (h :: h' :: t')) = String c s).
      now rewrite IH.
Qed.

Lemma split_injective (sep : ascii) (s s' : string) :
  split sep s = split sep s' -> s = s'.
Proof.
  intros H. rewrite <- (join_split sep s), <- (join_split sep s'). now rewrite H.
Qed.

(** ** The project tree built by [updateState] *)

Section TreeFacts.
Import FileState Project.

Variable PurePath : Type.
Variable pathlib_Path : string -> PurePath.

#[local, warnings="-notation-for-abbreviation"]
Notation Node := (GitProjectTreeNode PurePath).
#[local, warnings="-notation-for-abbreviation"]
Notation insertFile := (insertFile pathlib_Path).
#[local, warnings="-notation-for-abbreviation"]
Notation paths_ok := (paths_ok pathlib_Path).

Lemma skipn_nth_cons (l : list string) (k : nat) :
  k < List.length l -> skipn k l = nth k l "" :: skipn (S k) l.
Proof.
  revert k. induction l as [|x l IH]; intros k Hk; cbn in Hk; [lia|].
  destruct k as [|k]; [reflexivity|].
  cbn [skipn nth]. apply IH. lia.
Qed.

Lemma firstn_succ_nth (l : list string) (k : nat) :
  k < List.length l -> firstn (k + 1) l = firstn k l ++ [nth k l ""].
Proof.
  revert k. induction l as [|x l IH]; intros k Hk; cbn in Hk; [lia|].
  destruct k as [|k]; [reflexivity|].
  cbn [Nat.add firstn nth app]. f_equal. apply IH. lia.
Qed.

Lemma updateTreeFrom_insertFile (path : string) (parts : list string) :
  forall n k node,
    k + n <= List.length parts ->
    updateTreeFrom _ pathlib_Path path parts (seq k n) node
    = insertFile path (last parts "") (firstn k parts)
        (firstn n (skipn k parts)) node.
Proof.
  induction n as [|n IH]; intros k node Hk.
  - reflexivity.
  - cbn [seq updateTreeFrom].
    rewrite (skipn_nth_cons parts k) by lia.
    cbn [firstn insertFile].
    rewrite (firstn_succ_nth parts k) by lia.
    rewrite IH by lia.
    replace (S k) with (k + 1) by lia.
    rewrite (firstn_succ_nth parts k) by lia.
    reflexivity.
Qed.

Lemma updateTree_insertFile (path : string) (t : Node) :
  updateTree _ pathlib_Path path t
  = insertFile path (last (split "/" path) "") []
      (removelast (split "/" path)) t.
Proof.
  unfold updateTree.
  rewrite updateTreeFrom_insertFile by (cbn; lia).
  cbn [firstn skipn].
  rewrite removelast_firstn_len. f_equal. f_equal. lia.
Qed.

Lemma insertFile_root (path fname : string) (prefix dirs : list string) (node : Node) :
  relativePath _ (insertFile path fname prefix dirs node) = relativePath _ node
  /\ node_name _ (insertFile path fname prefix dirs node) = node_name _ node.
Proof. destruct dirs; cbn; auto. Qed.

(** The file is where its folders lead. *)
Lemma insertFile_target (path fname : string) :
  forall dirs prefix node,
  exists nd,
    descend dirs (insertFile path fname prefix dirs node) = Some nd
    /\ dict_get fname (all_files _ nd) = Some path.
Proof.
  induction dirs as [|d rest IH]; intros prefix node.
  - eexists. split; [reflexivity|]. cbn. apply dict_get_set_same.
  - cbn [insertFile descend all_folders]. rewrite dict_get_set_same. apply IH.
Qed.

(** What was reachable stays reachable, with the same relative path and the
    same files, but for the one file that is set. *)
Lemma insertFile_keeps (path fname : string) :
  forall dirs prefix node loc nd,
    descend loc node = Some nd ->
    exists nd',
      descend loc (insertFile path fname prefix dirs node) = Some nd'
      /\ relativePath _ nd' = relativePath _ nd
      /\ ((loc <> dirs /\ all_files _ nd' = all_files _ nd)
          \/ (loc = dirs /\ all_files _ nd' = dict_set fname path (all_files _ nd))).
Proof.
  induction dirs as [|d rest IH]; intros prefix node loc nd Hd.
  - destruct loc as [|c l].
    + injection Hd as <-. eexists. split; [reflexivity|]. cbn. auto.
    + exists nd. split; [exact Hd|]. split; [reflexivity|].
      left. split; [discriminate | reflexivity].
  - destruct loc as [|c l].
    + injection Hd as <-. eexists. split; [reflexivity|]. cbn.
      split; [reflexivity|]. left. split; [discriminate | reflexivity].
    + cbn [descend] in Hd. cbn [insertFile descend all_folders].
      destruct (string_dec c d) as [->|Hne].
      * rewrite dict_get_set_same.
        destruct (dict_get d (all_folders _ node)) as [child|]; [|discriminate].
        destruct (IH (prefix ++ [d]) child l nd Hd) as (nd' & H1 & H2 & H3).
        exists nd'. split; [exact H1|]. split; [exact H2|].
        destruct H3 as [[H3 H4]|[H3 H4]]; [left | right]; (split; [|exact H4]).
        -- congruence.
        -- now subst l.
      * rewrite (dict_get_set_other _ _ _ _ Hne).
        exists nd. split; [exact Hd|]. split; [reflexivity|].
        left. split; [congruence | reflexivity].
Qed.

Lemma paths_ok_new (prefix : list string) (name : string) (p : PurePath) :
  paths_ok prefix (newGitProjectTreeNode _ name p).
Proof.
  intros loc nd Hne Hd. destruct loc as [|c l]; [contradiction|]. discriminate.
Qed.

Lemma paths_ok_child (prefix : list string) (node child : Node) (d : string) :
  paths_ok prefix node ->
  dict_get d (all_folders _ node) = Some child ->
  paths_ok (prefix ++ [d]) child.
Proof.
  intros Hok Hc loc nd Hne Hd.
  rewrite <- app_assoc. cbn [app]. apply Hok; [discriminate|].
  cbn [descend]. now rewrite Hc.
Qed.

Lemma insertFile_paths_ok (path fname : string) :
  forall dirs prefix node,
    paths_ok prefix node ->
    paths_ok prefix (insertFile path fname prefix dirs node).
Proof.
  induction dirs as [|d rest IH]; intros prefix node Hok loc nd Hne Hd.
  - destruct loc as [|c l]; [contradiction|]. apply Hok; [discriminate|exact Hd].
  - destruct loc as [|c l]; [contradiction|].
    cbn [insertFile descend all_folders] in Hd.
    destruct (string_dec c d) as [->|Hcd].
    + rewrite dict_get_set_same in Hd.
      set (child := match dict_get d (all_folders _ node) with
                    | Some n => n
                    | None => newGitProjectTreeNode _ d
                                (pathlib_Path (join "/" (prefix ++ [d])))
                    end) in *.
      assert (Hchild : paths_ok (prefix ++ [d]) child
                       /\ relativePath _ child = pathlib_Path (join "/" (prefix ++ [d]))).
      { subst child. destruct (dict_get d (all_folders _ node)) as [n|] eqn:E.
        - split; [eapply paths_ok_child; eauto|].
          apply Hok; [discriminate|]. cbn [descend]. now rewrite E.
        - split; [apply paths_ok_new | reflexivity]. }
      destruct Hchild as [Hc1 Hc2].
      destruct l as [|c' l'].
      * injection Hd as <-.
        destruct (insertFile_root path fname (prefix ++ [d]) rest child) as [Hr _].
        now rewrite Hr.
      * specialize (IH (prefix ++ [d]) child Hc1 (c' :: l') nd).
        rewrite <- app_assoc in IH. cbn [app] in IH.
        apply IH; [discriminate | exact Hd].
    + rewrite (dict_get_set_other _ _ _ _ Hcd) in Hd.
      apply Hok; [discriminate | exact Hd].
Qed.

Lemma descend_prefix (dirs : list string) :
  forall (node nd : Node) k,
    descend dirs node = Some nd ->
    exists nd', descend (firstn k dirs) node = Some nd'.
Proof.
  induction dirs as [|d rest IH]; intros node nd k Hd.
  - rewrite firstn_nil. eauto.
  - destruct k as [|k]; [cbn; eauto|].
    cbn [firstn descend] in *.
    destruct (dict_get d (all_folders _ node)) as [child|]; [|discriminate].
    eapply IH; eauto.
Qed.

Lemma updateTree_filed_same (path : string) (t : Node) :
  filed (updateTree _ pathlib_Path path t) path.
Proof.
  unfold filed. rewrite updateTree_insertFile. apply insertFile_target.
Qed.

Lemma updateTree_filed_other (path path' : string) (t : Node) :
  filed t path' -> filed (updateTree _ pathlib_Path path t) path'.
Proof.
  intros (nd & Hd & Hf). unfold filed. rewrite updateTree_insertFile.
  destruct (insertFile_keeps path (last (split "/" path) "")
              (removelast (split "/" path)) [] t _ nd Hd)
    as (nd' & H1 & _ & H3).
  exists nd'. split; [exact H1|].
  destruct H3 as [[_ H4]|[H3 H4]]; rewrite H4; [exact Hf|].
  destruct (string_dec (last (split "/" path') "") (last (split "/" path) ""))
    as [El|Nl].
  - assert (E : split "/" path' = split "/" path).
    { rewrite (app_removelast_last "" (split_nonempty "/" path')).
      rewrite (app_removelast_last "" (split_nonempty "/" path)).
      now rewrite H3, El. }
    apply split_injective in E. subst path'. apply dict_get_set_same.
  - now rewrite (dict_get_set_other _ _ _ _ Nl).
Qed.

Lemma updateTree_paths_ok (path : string) (t : Node) :
  paths_ok [] t -> paths_ok [] (updateTree _ pathlib_Path path t).
Proof.
  intros H. rewrite updateTree_insertFile. now apply insertFile_paths_ok.
Qed.

Lemma updateTree_root (path : string) (t : Node) :
  relativePath _ (updateTree _ pathlib_Path path t) = relativePath _ t.
Proof.
  rewrite updateTree_insertFile. apply insertFile_root.
Qed.

Lemma fold_updateTree (paths : list string) :
  forall t : Node,
    paths_ok [] t ->
    let t' := fold_left (fun t path => updateTree _ pathlib_Path path t) paths t in
    paths_ok [] t'
    /\ relativePath _ t' = relativePath _ t
    /\ (forall path, filed t path \/ In path paths -> filed t' path).
Proof.
  induction paths as [|p paths IH]; intros t Hok; cbn [fold_left].
  - split; [exact Hok|]. split; [reflexivity|]. intros path [H|[]]. exact H.
  - destruct (IH (updateTree _ pathlib_Path p t) (updateTree_paths_ok p t Hok))
      as (H1 & H2 & H3).
    split; [exact H1|]. split; [now rewrite H2, updateTree_root|].
    intros path [H|[H|H]]; apply H3.
    + left. now apply updateTree_filed_other.
    + left. subst p. apply updateTree_filed_same.
    + now right.
Qed.

Lemma firstn_removelast_le (l : list string) (k : nat) :
  k <= List.length (removelast l) -> firstn k (removelast l) = firstn k l.
Proof.
  rewrite removelast_firstn_len. intros Hk.
  rewrite firstn_firstn. f_equal.
  rewrite length_firstn in Hk. lia.
Qed.

(** C4: after [updateState] every path of [all_file_state] is filed in the
    tree: going down from the root through [all_folders] by the folder
    components of the path, in order, ends at a node whose [all_files] maps
    the last component to the path, and the node reached after the first
    [k] components has the relative path [Path( '/'.join( first k
    components ) )]; the root keeps [Path( '.' )]. *)
Theorem updateState_files_every_path :
  forall (self : GitProject PurePath),
    dirty_index _ self = false ->
    exists self',
      updateState _ pathlib_Path self = (Normal tt, self')
      /\ relativePath _ (tree _ self') = pathlib_Path "."
      /\ forall path,
           dict_mem path (all_file_state _ self') = true ->
           let path_parts := split "/" path in
           let dirs := removelast path_parts in
           exists node,
             descend dirs (tree _ self') = Some node
             /\ dict_get (last path_parts "") (all_files _ node) = Some path
             /\ forall k, 1 <= k <= List.length dirs ->
                  exists nd,
                    descend (firstn k path_parts) (tree _ self') = Some nd
                    /\ relativePath _ nd
                       = pathlib_Path (join "/" (firstn k path_parts)).
Proof.
  intros self Hd.
  destruct (updateState_normal _ pathlib_Path self Hd)
    as (self' & E & _ & _ & _ & _ & Ha & _ & Ht).
  exists self'. split; [exact E|].
  destruct (fold_updateTree (dict_keys (status_of_repo (repo _ self)))
              (newGitProjectTreeNode _ (prefs_name _ self) (pathlib_Path "."))
              (paths_ok_new [] _ _)) as (Hok & Hroot & Hfiled).
  rewrite <- Ht in Hok, Hroot, Hfiled.
  split; [exact Hroot|].
  intros path Hmem path_parts dirs.
  rewrite Ha in Hmem. apply dict_mem_In_keys in Hmem.
  destruct (Hfiled path (or_intror Hmem)) as (node & Hn & Hf).
  exists node. split; [exact Hn|]. split; [exact Hf|].
  intros k Hk.
  destruct (descend_prefix _ _ _ k Hn) as [nd Hnd].
  fold path_parts in Hnd. fold dirs in Hnd.
  unfold dirs in Hnd. rewrite firstn_removelast_le in Hnd by (fold dirs; lia).
  exists nd. split; [exact Hnd|].
  apply (Hok (firstn k path_parts) nd); [|exact Hnd].
  intros Hnil. apply (f_equal (@List.length string)) in Hnil.
  rewrite length_firstn in Hnil. cbn in Hnil.
  assert (List.length dirs <= List.length path_parts).
  { unfold dirs. rewrite removelast_firstn_len, length_firstn. lia. }
  lia.
Qed.

End TreeFacts.

(** ** Commit logs: the change list *)

Section CommitLogFacts.
Import CommitLog.

(** Induction on trees, with the hypothesis for every sub-tree. *)
Lemma Tree_nested_ind (P : Tree -> Prop) :
  (forall tp entries,
      (forall child, In (ETree child) entries -> P child) ->
      P (mkTree tp entries)) ->
  forall t, P t.
Proof.
  intros H.
  fix IH 1.
  intros [tp entries]. apply H.
  induction entries as [|e rest IHrest]; intros child Hin.
  - destruct Hin.
  - destruct Hin as [He|Hin].
    + destruct e as [p h|t|p h]; try discriminate.
      injection He as <-. apply IH.
    + now apply IHrest.
Qed.

Lemma treeToDict_unfold (tp : string) (entries : list TreeEntry) (d : dict string) :
  treeToDict (mkTree tp entries) d = subtreesToDict entries (add_blobs entries d).
Proof. reflexivity. Qed.

Lemma add_blobs_keys (l : list TreeEntry) :
  forall (d : dict string) (p : string),
    In p (dict_keys (add_blobs l d))
    <-> In p (dict_keys d) \/ exists h, In (EBlob p h) l.
Proof.
  induction l as [|e rest IH]; intros d p; cbn [add_blobs].
  - split; [auto | intros [H|[h []]]; exact H].
  - destruct e as [q h|t|q h].
    + rewrite IH, dict_keys_set. split.
      * intros [[->|H]|[h' H]]; [right; exists h; now left | now left |].
        right. exists h'. now right.
      * intros [H|[h' [H|H]]]; [left; now right | | right; eauto].
        injection H as -> ->. left. now left.
    + rewrite IH. split.
      * intros [H|[h' H]]; [now left | right; exists h'; now right].
      * intros [H|[h' [H|H]]]; [now left | discriminate | right; eauto].
    + rewrite IH. split.
      * intros [H|[h' H]]; [now left | right; exists h'; now right].
      * intros [H|[h' [H|H]]]; [now left | discriminate | right; eauto].
Qed.

Lemma subtreesToDict_keys (l : list TreeEntry) :
  (forall child, In (ETree child) l ->
     forall d p, In p (dict_keys (treeToDict child d))
                 <-> In p (dict_keys d) \/ blob_path child p) ->
  forall (d : dict string) (p : string),
    In p (dict_keys (subtreesToDict l d))
    <-> In p (dict_keys d) \/ exists child, In (ETree child) l /\ blob_path child p.
Proof.
  induction l as [|e rest IH]; intros Hc d p; cbn [subtreesToDict].
  - split; [auto | intros [H|(c & [] & _)]; exact H].
  - assert (Hrest : forall child, In (ETree child) rest ->
              forall d p, In p (dict_keys (treeToDict child d))
                          <-> In p (dict_keys d) \/ blob_path child p).
    { intros child Hin. apply Hc. now right. }
    specialize (IH Hrest).
    destruct e as [q h|t|q h].
    + rewrite IH. split.
      * intros [H|(c & H & B)]; [now left | right; exists c; split; [now right|exact B]].
      * intros [H|(c & [H|H] & B)]; [now left | discriminate | right; eauto].
    + rewrite IH, (Hc t (or_introl eq_refl)). split.
      * intros [[H|H]|(c & H & B)]; [now left | right; exists t; split; [now left|exact H] |].
        right. exists c. split; [now right | exact B].
      * intros [H|(c & [H|H] & B)]; [left; now left | | right; eauto].
        injection H as ->. left. now right.
    + rewrite IH. split.
      * intros [H|(c & H & B)]; [now left | right; exists c; split; [now right|exact B]].
      * intros [H|(c & [H|H] & B)]; [now left | discriminate | right; eauto].
Qed.

(** The keys [__treeToDict] adds are the paths of the blobs of the tree. *)
Lemma treeToDict_keys (t : Tree) :
  forall (d : dict string) (p : string),
    In p (dict_keys (treeToDict t d)) <-> In p (dict_keys d) \/ blob_path t p.
Proof.
  induction t as [tp entries IH] using Tree_nested_ind. intros d p.
  rewrite treeToDict_unfold, (subtreesToDict_keys entries IH), add_blobs_keys.
  split.
  - intros [[H|[h H]]|(c & H & B)].
    + now left.
    + right. eapply blob_here; eauto.
    + right. eapply blob_below; eauto.
  - intros [H|B]; [left; now left|].
    inversion B as [tp' es path h Hin|tp' es c path Hin Hb]; subst.
    + left. right. eauto.
    + right. eauto.
Qed.

(** C6: for a commit with no parent the change list is one
    [('A', path, '')] for every blob path of the commit's tree, sub-trees
    included, and nothing else: no deletion, rename or modification. *)
Theorem initial_commit_all_additions :
  forall (c : Commit),
    commit_parents c = [] ->
    exists node',
      addChangeInformation (newGitCommitLogNode c) = Normal node'
      /\ commit node' = c
      /\ (forall path,
            blob_path (commit_tree c) path
            <-> In ("A", path, "") (commitFileChanges node'))
      /\ (forall kind path old_path,
            In (kind, path, old_path) (commitFileChanges node') ->
            kind = "A" /\ old_path = "" /\ blob_path (commit_tree c) path).
Proof.
  intros c Hp.
  unfold addChangeInformation, commitPreviousTree, commitTree.
  cbn [newGitCommitLogNode commit]. rewrite Hp.
  eexists. split; [reflexivity|].
  unfold _addChanges, commitFileChanges, newGitCommitLogNode.
  cbn [commit all_changes map app].
  rewrite !app_nil_r. split; [reflexivity|]. split.
  - intros path. rewrite in_map_iff. split.
    + intros B. exists path. split; [reflexivity|].
      apply treeToDict_keys. now right.
    + intros (x & E & Hin). injection E as ->.
      apply treeToDict_keys in Hin. destruct Hin as [[]|B]. exact B.
  - intros kind path old_path Hin. apply in_map_iff in Hin.
    destruct Hin as (x & E & Hin). injection E as <- <- <-.
    split; [reflexivity|]. split; [reflexivity|].
    apply treeToDict_keys in Hin. destruct Hin as [[]|B]. exact B.
Qed.

Lemma initial_commit_all_additions_witness :
  commit_parents first_commit = []
  /\ exists node',
       addChangeInformation (newGitCommitLogNode first_commit) = Normal node'
       /\ In ("A", "src/main.py", "") (commitFileChanges node').
Proof.
  split; [reflexivity|].
  destruct (initial_commit_all_additions first_commit eq_refl)
    as (node' & E & _ & H & _).
  exists node'. split; [exact E|].
  apply H. eapply blob_below; [right; left; reflexivity|].
  eapply blob_here. left. reflexivity.
Defined.

(** *** The change list of a commit with a parent, when the call returns *)

Lemma set_mem_In (x : string) (s : pyset) : set_mem x s = true <-> In x s.
Proof.
  unfold set_mem. rewrite existsb_exists. split.
  - intros (y & Hy & E). apply String.eqb_eq in E. now subst y.
  - intros H. exists x. split; [exact H | apply String.eqb_refl].
Qed.

Lemma set_discard_In (x y : string) (s : pyset) :
  In y (set_discard x s) <-> In y s /\ y <> x.
Proof.
  unfold set_discard. rewrite filter_In. split.
  - intros [H E]. split; [exact H|]. intros ->. now rewrite String.eqb_refl in E.
  - intros [H E]. split; [exact H|].
    destruct (String.eqb x y) eqn:Exy; [|reflexivity].
    apply String.eqb_eq in Exy. congruence.
Qed.

Lemma set_add_In (x y : string) (s : pyset) :
  In y (set_add x s) <-> y = x \/ In y s.
Proof.
  unfold set_add. destruct (set_mem x s) eqn:E.
  - apply set_mem_In in E. split; [auto | intros [->|H]; assumption].
  - rewrite in_app_iff. cbn. split; [intros [H|[H|[]]]; auto | intros [H|H]; auto].
Qed.

Lemma set_diff_In (x : string) (a b : pyset) :
  In x (set_diff a b) <-> In x a /\ ~ In x b.
Proof.
  unfold set_diff. rewrite filter_In, <- (set_mem_In x b).
  destruct (set_mem x b); cbn.
  - split; intros [H1 H2]; [discriminate | now contradiction H2].
  - split; intros [H1 H2]; (split; [exact H1|]); [discriminate | reflexivity].
Qed.

Lemma set_remove_Normal (x : string) (s s' : pyset) :
  set_remove x s = Normal s' -> In x s /\ s' = set_discard x s.
Proof.
  unfold set_remove. destruct (set_mem x s) eqn:E; [|discriminate].
  intros H. injection H as <-. split; [now apply set_mem_In | reflexivity].
Qed.

Lemma dict_get_In (d : dict string) (k v : string) :
  dict_get k d = Some v -> In (k, v) d.
Proof.
  induction d as [|[k' v'] d IH]; cbn; [discriminate|].
  destruct (String.eqb k k') eqn:E.
  - apply String.eqb_eq in E. subst k'. intros H. injection H as ->. now left.
  - intros H. right. now apply IH.
Qed.

Lemma In_dict_get (d : dict string) (k v : string) :
  NoDup (dict_keys d) -> In (k, v) d -> dict_get k d = Some v.
Proof.
  induction d as [|[k' v'] d IH]; cbn; [intros _ []|].
  intros Hnd [H|H].
  - injection H as -> ->. now rewrite String.eqb_refl.
  - inversion Hnd as [|? ? Hnot Hnd']; subst.
    destruct (String.eqb k k') eqn:E.
    + apply String.eqb_eq in E. subst k'. exfalso. apply Hnot.
      change (In (fst (k, v)) (map fst d)). now apply in_map.
    + now apply IH.
Qed.

Lemma dict_set_NoDup (d : dict string) (k v : string) :
  NoDup (dict_keys d) -> NoDup (dict_keys (dict_set k v d)).
Proof.
  induction d as [|[k' v'] d IH]; cbn; intros Hnd.
  - constructor; [intros [] | constructor].
  - inversion Hnd as [|? ? Hnot Hnd']; subst.
    destruct (String.eqb k k') eqn:E; cbn.
    + constructor; assumption.
    + constructor; [|now apply IH].
      intros Hin. apply (dict_keys_set k' k v d) in Hin.
      destruct Hin as [->|Hin]; [|contradiction].
      now rewrite String.eqb_refl in E.
Qed.

Lemma add_blobs_NoDup (l : list TreeEntry) :
  forall d, NoDup (dict_keys d) -> NoDup (dict_keys (add_blobs l d)).
Proof.
  induction l as [|e rest IH]; intros d Hd; cbn [add_blobs]; [exact Hd|].
  destruct e; auto using dict_set_NoDup.
Qed.

Lemma treeToDict_NoDup (t : Tree) :
  forall d, NoDup (dict_keys d) -> NoDup (dict_keys (treeToDict t d)).
Proof.
  induction t as [tp entries IH] using Tree_nested_ind. intros d Hd.
  rewrite treeToDict_unfold.
  assert (H : forall l, (forall child, In (ETree child) l -> In (ETree child) entries) ->
                        forall d0, NoDup (dict_keys d0) ->
                                   NoDup (dict_keys (subtreesToDict l d0))).
  { induction l as [|e rest IHl]; intros Hsub d0 Hd0; cbn [subtreesToDict]; [exact Hd0|].
    assert (Hrest : forall child, In (ETree child) rest -> In (ETree child) entries)
      by (intros child Hin; apply Hsub; now right).
    destruct e as [q h|t|q h]; try (now apply IHl).
    apply IHl; [exact Hrest|]. apply IH; [|exact Hd0]. apply Hsub. now left. }
  apply H; [auto|]. now apply add_blobs_NoDup.
Qed.

Section WithParent.
Variables all_new all_old : dict string.

#[local, warnings="-notation-for-abbreviation"]
Notation rename_source := (rename_source all_new all_old).

Lemma old_id_to_name_from (l : dict string) :
  forall (acc : dict string) (id_ name : string),
    dict_get id_ (fold_left (fun acc '(name, id_) => dict_set id_ name acc) l acc)
    = Some name ->
    dict_get id_ acc = Some name \/ In (name, id_) l.
Proof.
  induction l as [|[n i] l IH]; intros acc id_ name H; cbn [fold_left] in H.
  - now left.
  - destruct (IH _ _ _ H) as [H'|H']; [|right; now right].
    destruct (string_dec id_ i) as [->|Hne].
    + rewrite dict_get_set_same in H'. injection H' as ->. right. now left.
    + rewrite (dict_get_set_other _ _ _ _ Hne) in H'. now left.
Qed.

Lemma old_id_to_name_keeps (l : dict string) :
  forall (acc : dict string) (id_ : string),
    (exists name, dict_get id_ acc = Some name) \/ (exists name, In (name, id_) l) ->
    exists name',
      dict_get id_ (fold_left (fun acc '(name, id_) => dict_set id_ name acc) l acc)
      = Some name'.
Proof.
  induction l as [|[n i] l IH]; intros acc id_ H; cbn [fold_left].
  - destruct H as [H|[name []]]. exact H.
  - apply IH. destruct (string_dec id_ i) as [->|Hne].
    + left. rewrite dict_get_set_same. eauto.
    + rewrite (dict_get_set_other _ _ _ _ Hne).
      destruct H as [H|[name [H|H]]]; [now left | congruence | right; eauto].
Qed.

(** [all_old_id_to_name] maps a blob id to an old path that has it, and
    has an entry for every blob id of the old tree. *)
Lemma old_id_to_name_sound (id_ name : string) :
  dict_get id_ (old_id_to_name all_old) = Some name -> In (name, id_) all_old.
Proof.
  intros H. apply old_id_to_name_from in H. destruct H as [H|H]; [discriminate|exact H].
Qed.

Lemma old_id_to_name_complete (id_ name : string) :
  In (name, id_) all_old ->
  exists name', dict_get id_ (old_id_to_name all_old) = Some name'.
Proof.
  intros H. apply old_id_to_name_keeps. right. eauto.
Qed.

Lemma rename_loop_returns (names : list string) :
  forall A D R A' D' R',
    rename_loop all_new (old_id_to_name all_old) names (A, D, R)
    = Normal (A', D', R') ->
    (forall n, In n A' <-> In n A /\ ~ (In n names /\ rename_source n <> None))
    /\ (forall o, In o D'
                  <-> In o D /\ ~ (exists n, In n names /\ rename_source n = Some o))
    /\ (forall n o, In (n, o) R'
                    <-> In (n, o) R \/ (In n names /\ rename_source n = Some o))
    /\ (forall n o, In n names -> rename_source n = Some o -> In o D).
Proof.
  induction names as [|name rest IH]; intros A D R A' D' R' H.
  - cbn in H. injection H as <- <- <-.
    split; [intros n; split; [intros Hn; split; [exact Hn|intros [[] _]] | tauto]|].
    split; [intros o; split; [intros Ho; split; [exact Ho|intros (n & [] & _)] | tauto]|].
    split; [intros n o; split; [auto | intros [Hn|[[] _]]; exact Hn]|].
    intros n o [].
  - cbn [rename_loop] in H. unfold rename_step, dict_index in H.
    destruct (dict_get name all_new) as [id_|] eqn:Eid; [|discriminate].
    cbn [bind] in H.
    assert (Esrc : rename_source name = dict_get id_ (old_id_to_name all_old))
      by (unfold rename_source; now rewrite Eid).
    destruct (dict_get id_ (old_id_to_name all_old)) as [old_name|] eqn:Eold.
    + destruct (set_remove name A) as [A1|] eqn:EA; [|discriminate].
      cbn [bind] in H.
      destruct (set_remove old_name D) as [D1|] eqn:ED; [|discriminate].
      cbn [bind] in H.
      apply set_remove_Normal in EA. destruct EA as [_ ->].
      apply set_remove_Normal in ED. destruct ED as [HoD ->].
      destruct (IH _ _ _ _ _ _ H) as (HA & HD & HR & Hsrc).
      split; [|split; [|split]].
      * intros n. rewrite HA, set_discard_In. split.
        -- intros [[Hn Hne] Hnot]. split; [exact Hn|].
           intros [[->|Hin] Hs]; [now apply Hne | apply Hnot; auto].
        -- intros [Hn Hnot]. split; [split; [exact Hn|] |].
           ++ intros ->. apply Hnot. split; [now left | congruence].
           ++ intros [Hin Hs]. apply Hnot. split; [now right | exact Hs].
      * intros o. rewrite HD, set_discard_In. split.
        -- intros [[Ho Hne] Hnot]. split; [exact Ho|].
           intros (n & [->|Hin] & Hs); [congruence | apply Hnot; eauto].
        -- intros [Ho Hnot]. split; [split; [exact Ho|] |].
           ++ intros ->. apply Hnot. exists name. split; [now left | congruence].
           ++ intros (n & Hin & Hs). apply Hnot. exists n. split; [now right | exact Hs].
      * intros n o. rewrite HR, in_app_iff. cbn [In]. split.
        -- intros [[Hin|[E|[]]]|[Hin Hs]]; [now left | | right; split; [now right|exact Hs]].
           injection E as <- <-. right. split; [now left | congruence].
        -- intros [Hin|[[->|Hin] Hs]]; [left; now left | | right; auto].
           left. right. left. f_equal. congruence.
      * intros n o [->|Hin] Hs; [congruence|].
        apply (Hsrc n o Hin) in Hs. now apply set_discard_In in Hs.
    + destruct (IH _ _ _ _ _ _ H) as (HA & HD & HR & Hsrc).
      split; [|split; [|split]].
      * intros n. rewrite HA. split; intros [Hn Hnot]; (split; [exact Hn|]).
        -- intros [[->|Hin] Hs]; [congruence | apply Hnot; auto].
        -- intros [Hin Hs]. apply Hnot. split; [now right | exact Hs].
      * intros o. rewrite HD. split; intros [Ho Hnot]; (split; [exact Ho|]).
        -- intros (n & [->|Hin] & Hs); [congruence | apply Hnot; eauto].
        -- intros (n & Hin & Hs). apply Hnot. exists n. split; [now right | exact Hs].
      * intros n o. rewrite HR. split.
        -- intros [Hin|[Hin Hs]]; [now left | right; split; [now right | exact Hs]].
        -- intros [Hin|[[->|Hin] Hs]]; [now left | congruence | right; auto].
      * intros n o [->|Hin] Hs; [congruence | eauto].
Qed.

Lemma modified_from (keys : list string) :
  forall (acc : pyset) (k : string),
    In k (fold_left (modified_step all_new all_old) keys acc)
    <-> In k acc
        \/ (In k keys
            /\ exists new_id old_id,
                 dict_get k all_new = Some new_id
                 /\ dict_get k all_old = Some old_id /\ new_id <> old_id).
Proof.
  induction keys as [|key rest IH]; intros acc k; cbn [fold_left].
  - split; [auto | intros [H|[[] _]]; exact H].
  - rewrite IH. unfold modified_step.
    destruct (dict_get key all_old) as [old_id|] eqn:Eo;
      destruct (dict_get key all_new) as [new_id|] eqn:En;
      try (split;
           [ intros [H|[Hin Hx]]; [now left | right; split; [now right | exact Hx]]
           | intros [H|[[->|Hin] (n & o & Hn & Ho & Hne)]];
             [now left | congruence | right; split; [exact Hin | eauto]] ]).
    destruct (String.eqb new_id old_id) eqn:E.
    + apply String.eqb_eq in E. subst old_id. split.
      * intros [H|[Hin Hx]]; [now left | right; split; [now right | exact Hx]].
      * intros [H|[[->|Hin] (n & o & Hn & Ho & Hne)]];
          [now left | congruence | right; split; [exact Hin | eauto]].
    + apply String.eqb_neq in E. rewrite set_add_In. split.
      * intros [[->|H]|[Hin Hx]]; [|now left | right; split; [now right | exact Hx]].
        right. split; [now left | eauto].
      * intros [H|[[->|Hin] Hx]]; [left; now right | left; now left | right; auto].
Qed.

End WithParent.

Lemma addChanges_fresh_In (c : Commit) (added deleted modified : pyset)
    (renamed : list (string * string)) :
  let ch := commitFileChanges
              (_addChanges (newGitCommitLogNode c) added deleted renamed modified) in
  (forall n, In ("A", n, "") ch <-> In n added)
  /\ (forall n, In ("D", n, "") ch <-> In n deleted)
  /\ (forall n o, In ("R", n, o) ch <-> In (n, o) renamed)
  /\ (forall n, In ("M", n, "") ch <-> In n modified).
Proof.
  unfold commitFileChanges, _addChanges, newGitCommitLogNode.
  cbn [all_changes commit app].
  split; [|split; [|split]]; intros n; [| | intros o|];
    rewrite !in_app_iff, !in_map_iff; split.
  - intros [[[(x & E & H)|(x & E & H)]|(x & E & H)]|(x & E & H)];
      try discriminate; [injection E as ->; exact H | destruct x; discriminate].
  - intros H. left. left. left. eauto.
  - intros [[[(x & E & H)|(x & E & H)]|(x & E & H)]|(x & E & H)];
      try discriminate; [injection E as ->; exact H | destruct x; discriminate].
  - intros H. left. left. right. eauto.
  - intros [[[(x & E & H)|(x & E & H)]|(x & E & H)]|(x & E & H)];
      try discriminate. destruct x as [x1 x2]. injection E as -> ->. exact H.
  - intros H. left. right. exists (n, o). auto.
  - intros [[[(x & E & H)|(x & E & H)]|(x & E & H)]|(x & E & H)];
      try discriminate; [destruct x; discriminate | injection E as ->; exact H].
  - intros H. right. eauto.
Qed.

Lemma rename_loop_guard (all_new id_to_name : dict string) (names : list string)
    (st : pyset * pyset * list (string * string)) :
  (if (0 <? List.length names)%nat
   then rename_loop all_new id_to_name names st
   else Normal st)
  = rename_loop all_new id_to_name names st.
Proof. destruct names; reflexivity. Qed.

Lemma only_in_set_diff (d d' : dict string) (path : string) :
  In path (set_diff (dict_keys d) (dict_keys d')) <-> only_in d d' path.
Proof.
  rewrite set_diff_In, <- !dict_mem_In_keys. unfold only_in.
  destruct (dict_mem path d').
  - split; intros [H1 H2]; [now contradiction H2 | discriminate].
  - split; intros [H1 H2]; (split; [exact H1|]); [reflexivity | discriminate].
Qed.

(** When the call returns for a commit with a parent, the change list is the
    one the change information describes: a rename for every added path
    whose blob an old path has, the remaining added and deleted paths, and
    the paths whose blob differs. *)
Lemma changes_with_parent_when_returns
    (c p : Commit) (ps : list Commit) (node' : GitCommitLogNode) :
  commit_parents c = p :: ps ->
  addChangeInformation (newGitCommitLogNode c) = Normal node' ->
  let all_new := treeToDict (commit_tree c) [] in
  let all_old := treeToDict (commit_tree p) [] in
  let ch := commitFileChanges node' in
  (forall n o, In ("R", n, o) ch
               <-> only_in all_new all_old n /\ rename_source all_new all_old n = Some o)
  /\ (forall n o, In ("R", n, o) ch ->
                  only_in all_old all_new o /\ same_blob all_new all_old n o)
  /\ (forall n, In ("A", n, "") ch
                <-> only_in all_new all_old n
                    /\ ~ exists o, only_in all_old all_new o
                                   /\ same_blob all_new all_old n o)
  /\ (forall o, In ("D", o, "") ch
                <-> only_in all_old all_new o /\ ~ exists n, In ("R", n, o) ch)
  /\ (forall k, In ("M", k, "") ch
                <-> exists new_id old_id,
                      dict_get k all_new = Some new_id
                      /\ dict_get k all_old = Some old_id /\ new_id <> old_id).
Proof.
  intros Hp Hret all_new all_old ch.
  unfold addChangeInformation, commitPreviousTree, commitTree in Hret.
  cbn [newGitCommitLogNode commit] in Hret. rewrite Hp in Hret.
  fold all_new in Hret. fold all_old in Hret.
  rewrite rename_loop_guard in Hret.
  destruct (rename_loop all_new (old_id_to_name all_old)
              (set_diff (dict_keys all_new) (dict_keys all_old))
              (set_diff (dict_keys all_new) (dict_keys all_old),
               set_diff (dict_keys all_old) (dict_keys all_new), []))
    as [[[A' D'] R']|e] eqn:Eloop; [|discriminate].
  cbn [bind] in Hret. injection Hret as <-.
  destruct (rename_loop_returns all_new all_old _ _ _ _ _ _ _ Eloop)
    as (HA & HD & HR & Hsrc).
  destruct (addChanges_fresh_In c A' D'
              (fold_left (modified_step all_new all_old) (dict_keys all_new) []) R')
    as (CA & CD & CR & CM).
  fold ch in CA, CD, CR, CM.
  assert (Hnd : NoDup (dict_keys all_old))
    by (apply treeToDict_NoDup; constructor).
  assert (Hsame : forall n o, only_in all_new all_old n ->
                    rename_source all_new all_old n = Some o ->
                    only_in all_old all_new o /\ same_blob all_new all_old n o).
  { intros n o Hn Hs. split.
    - apply only_in_set_diff. apply (Hsrc n o); [now apply only_in_set_diff | exact Hs].
    - unfold rename_source in Hs.
      destruct (dict_get n all_new) as [id_|] eqn:E; [|discriminate].
      exists id_. split; [exact E|].
      apply In_dict_get; [exact Hnd | now apply old_id_to_name_sound]. }
  assert (HRch : forall n o, In ("R", n, o) ch
                   <-> only_in all_new all_old n
                       /\ rename_source all_new all_old n = Some o).
  { intros n o. rewrite CR, HR, only_in_set_diff. cbn [In]. tauto. }
  split; [exact HRch|]. split; [|split; [|split]].
  - intros n o H. apply HRch in H. destruct H as [Hn Hs]. now apply Hsame.
  - intros n. rewrite CA, HA, only_in_set_diff. split.
    + intros [Hn Hnot]. split; [exact Hn|].
      intros (o & Ho & id_ & En & Eo).
      apply Hnot. split; [exact Hn|].
      unfold rename_source. rewrite En.
      destruct (old_id_to_name_complete all_old id_ o (dict_get_In _ _ _ Eo))
        as [o' E']. congruence.
    + intros [Hn Hnot]. split; [exact Hn|].
      intros [_ Hs].
      destruct (rename_source all_new all_old n) as [o|] eqn:E; [|congruence].
      apply Hnot. exists o. now apply Hsame.
  - intros o. rewrite CD, HD, only_in_set_diff. split.
    + intros [Ho Hnot]. split; [exact Ho|].
      intros (n & Hn). apply HRch in Hn. destruct Hn as [Hn Hs].
      apply Hnot. exists n. split; [now apply only_in_set_diff | exact Hs].
    + intros [Ho Hnot]. split; [exact Ho|].
      intros (n & Hn & Hs). apply Hnot. exists n. apply HRch.
      split; [now apply only_in_set_diff | exact Hs].
  - intros k. rewrite CM, modified_from. cbn [In]. split.
    + intros [[]|[_ H]]. exact H.
    + intros (n & o & Hn & Ho & Hne). right. split; [|eauto].
      apply dict_get_In_keys. eauto.
Qed.

(** C1, at a commit that copies a file: [b] is only in the new tree and no
    deleted path has its blob, so the claim reports [('A', 'b', '')]; the
    code finds [a] under the blob's id, removes it from the empty set of
    deleted paths and raises [KeyError], for the node and for the whole
    log.  At a rename beside a twin the claim reports [('R', 'b', 'a')];
    the code finds the twin [c], the last old path with the blob in the
    dict's insertion order, which is not deleted, and raises. *)
Theorem copied_file_raises_KeyError :
  addChangeInformation (newGitCommitLogNode copy_commit) = Raise (KeyError "a")
  /\ cmdCommitLogForRepository (fun _ => [copy_commit; copy_parent])
       PyNone PyNone PyNone
     = Raise (KeyError "a")
  /\ addChangeInformation (newGitCommitLogNode twin_commit) = Raise (KeyError "c").
Proof. split; [|split]; reflexivity. Qed.

(** When the whole loop returns, every node got the changes of its own
    commit. *)
Lemma addCommitChangeInformation_each (all_commit_logs : list GitCommitLogNode) :
  forall logs',
    addCommitChangeInformation all_commit_logs = (Normal tt, logs') ->
    Forall2 (fun node node' => addChangeInformation node = Normal node')
      all_commit_logs logs'.
Proof.
  induction all_commit_logs as [|node rest IH]; intros logs' H; cbn in H.
  - injection H as <-. constructor.
  - destruct (addChangeInformation node) as [node'|e] eqn:E; [|discriminate].
    destruct (addCommitChangeInformation rest) as [r rest'] eqn:Er.
    injection H as -> <-. constructor; [exact E | now apply IH].
Qed.

End CommitLogFacts.

(** ** Worked examples *)

Section ExampleFacts.
Import FileState Project Examples.

Lemma staged_new_diff_flags : flags_agree_with_sides staged_new_diff.
Proof.
  unfold flags_agree_with_sides, staged_new_diff. cbn.
  split; [split; reflexivity|].
  split; [split; discriminate|].
  left; discriminate.
Qed.

(** A staged change of mode alone is classified as modified although both
    sides hold the same content. *)
Lemma mode_change_is_staged_modified :
  reachable mode_change_state
  /\ staged_diff mode_change_state = Some mode_change_diff
  /\ renamed mode_change_diff = false
  /\ fst (getStagedAbbreviatedStatus mode_change_state) = Some "M"
  /\ fst (isStagedModified mode_change_state) = true
  /\ ~ changed_in_index mode_change_diff.
Proof.
  split; [apply reach_addStaged, reach_init|].
  split; [reflexivity|]. split; [reflexivity|].
  split; [reflexivity|]. split; [reflexivity|].
  intros (a & b & Ha & Hb & Hne). cbn in Ha, Hb.
  injection Ha as <-. injection Hb as <-. now apply Hne.
Qed.

(** An entry with no HEAD side and no flag set is classified as modified,
    not as new. *)
Lemma unflagged_entry_is_staged_modified :
  reachable unflagged_state
  /\ staged_diff unflagged_state = Some unflagged_diff
  /\ added_to_index unflagged_diff
  /\ fst (isStagedNew unflagged_state) = false
  /\ fst (isStagedModified unflagged_state) = true.
Proof.
  split; [apply reach_addStaged, reach_init|].
  split; [reflexivity|].
  split; [split; [discriminate | reflexivity]|].
  split; reflexivity.
Qed.


Lemma staged_classification_witness :
  reachable staged_new_state
  /\ staged_diff staged_new_state = Some staged_new_diff
  /\ fst (isStagedNew staged_new_state) = true
  /\ added_to_index staged_new_diff.
Proof.
  assert (R : reachable staged_new_state) by (apply reach_addStaged, reach_init).
  split; [exact R|]. split; [reflexivity|].
  destruct (staged_classification staged_new_state staged_new_diff R eq_refl)
    as [_ H].
  destruct (H eq_refl) as (Hnew & _ & _ & Hsides).
  assert (N : fst (isStagedNew staged_new_state) = true)
    by (apply Hnew; reflexivity).
  split; [exact N|].
  destruct (Hsides staged_new_diff_flags) as (Hadded & _).
  now apply Hadded.
Defined.

Lemma updateState_files_every_path_witness :
  dirty_index _ demo_project = false
  /\ exists self',
       updateState string demo_Path demo_project = (Normal tt, self')
       /\ dict_mem "doc/x/notes.txt" (all_file_state _ self') = true
       /\ exists node,
            descend ["doc"; "x"] (tree _ self') = Some node
            /\ dict_get "notes.txt" (all_files _ node) = Some "doc/x/notes.txt".
Proof.
  split; [reflexivity|].
  destruct (updateState_files_every_path string demo_Path demo_project eq_refl)
    as (self' & E & _ & H).
  exists self'. split; [exact E|].
  assert (M : dict_mem "doc/x/notes.txt" (all_file_state _ self') = true).
  { injection E as <-. reflexivity. }
  split; [exact M|].
  destruct (H "doc/x/notes.txt" M) as (node & H1 & H2 & _).
  exists node. split; [exact H1 | exact H2].
Defined.


Lemma updateState_rebuilds_wholesale_witness :
  prefs_name _ demo_project = prefs_name _ demo_project_old_state
  /\ repo _ demo_project = repo _ demo_project_old_state
  /\ dirty_index _ demo_project = false
  /\ dirty_index _ demo_project_old_state = false
  /\ tree _ demo_project <> tree _ demo_project_old_state
  /\ tree _ (snd (updateState string demo_Path demo_project))
     = tree _ (snd (updateState string demo_Path demo_project_old_state))
  /\ all_file_state _ (snd (updateState string demo_Path demo_project))
     = all_file_state _ (snd (updateState string demo_Path demo_project_old_state)).
Proof.
  split; [reflexivity|]. split; [reflexivity|].
  split; [reflexivity|]. split; [reflexivity|].
  split; [discriminate|].
  destruct (updateState_rebuilds_wholesale string demo_Path
              demo_project demo_project_old_state eq_refl eq_refl eq_refl eq_refl)
    as (_ & _ & Ht & Ha & _).
  split; [exact Ht | exact Ha].
Defined.

Lemma getFileState_raises_getStatusEntry_defaults_witness :
  dict_mem "gone" (all_file_state _ demo_project) = false
  /\ getFileState string demo_Path "gone" demo_project = Raise (KeyError "gone")
  /\ dict_mem "gone" (all_files _ (tree _ demo_project_old_state)) = true
  /\ getStatusEntry string demo_project "gone" (tree _ demo_project_old_state)
     = Normal (newWbGitFileState None).
Proof.
  destruct (getFileState_raises_getStatusEntry_defaults string demo_Path
              demo_project "gone" (tree _ demo_project_old_state) "gone")
    as [H1 H2].
  split; [reflexivity|]. split; [exact (H1 eq_refl)|]. split; [reflexivity|].
  destruct (H2 eq_refl) as (path & entry & Hp & He & _ & Hd).
  injection Hp as <-. destruct (Hd eq_refl) as [-> _]. exact He.
Defined.

End ExampleFacts.

(** ** Commit logs: what the trees hold and when the change list exists *)

Section CommitLogMore.
Import CommitLog.

Lemma add_blobs_get (l : list TreeEntry) :
  forall (d : dict string) (p h : string),
    dict_get p (add_blobs l d) = Some h ->
    dict_get p d = Some h \/ In (EBlob p h) l.
Proof.
  induction l as [|e rest IH]; intros d p h H; cbn [add_blobs] in H.
  - now left.
  - destruct e as [q h'|t|q h'].
    + destruct (IH _ _ _ H) as [H'|H']; [|right; now right].
      destruct (string_dec p q) as [->|Hne].
      * rewrite dict_get_set_same in H'. injection H' as ->. right. now left.
      * rewrite (dict_get_set_other _ _ _ _ Hne) in H'. now left.
    + destruct (IH _ _ _ H) as [H'|H']; [now left | right; now right].
    + destruct (IH _ _ _ H) as [H'|H']; [now left | right; now right].
Qed.

Lemma subtreesToDict_get (l : list TreeEntry) :
  (forall child, In (ETree child) l ->
     forall d p h, dict_get p (treeToDict child d) = Some h ->
                   dict_get p d = Some h \/ blob_entry child p h) ->
  forall (d : dict string) (p h : string),
    dict_get p (subtreesToDict l d) = Some h ->
    dict_get p d = Some h
    \/ exists child, In (ETree child) l /\ blob_entry child p h.
Proof.
  induction l as [|e rest IH]; intros Hc d p h H; cbn [subtreesToDict] in H.
  - now left.
  - assert (Hrest : forall child, In (ETree child) rest ->
              forall d p h, dict_get p (treeToDict child d) = Some h ->
                            dict_get p d = Some h \/ blob_entry child p h).
    { intros child Hin. apply Hc. now right. }
    destruct e as [q h'|t|q h'].
    + destruct (IH Hrest _ _ _ H) as [H'|(c & Hin & B)]; [now left|].
      right. exists c. split; [now right | exact B].
    + destruct (IH Hrest _ _ _ H) as [H'|(c & Hin & B)].
      * destruct (Hc t (or_introl eq_refl) _ _ _ H') as [H''|B]; [now left|].
        right. exists t. split; [now left | exact B].
      * right. exists c. split; [now right | exact B].
    + destruct (IH Hrest _ _ _ H) as [H'|(c & Hin & B)]; [now left|].
      right. exists c. split; [now right | exact B].
Qed.

Lemma treeToDict_get (t : Tree) :
  forall (d : dict string) (p h : string),
    dict_get p (treeToDict t d) = Some h ->
    dict_get p d = Some h \/ blob_entry t p h.
Proof.
  induction t as [tp entries IH] using Tree_nested_ind. intros d p h H.
  rewrite treeToDict_unfold in H.
  destruct (subtreesToDict_get entries IH _ _ _ H) as [H'|(c & Hin & B)].
  - destruct (add_blobs_get _ _ _ _ H') as [H''|Hin]; [now left|].
    right. eapply blob_entry_here; eauto.
  - right. eapply blob_entry_below; eauto.
Qed.

Lemma blob_entry_path (t : Tree) (p h : string) :
  blob_entry t p h -> blob_path t p.
Proof.
  induction 1; [eapply blob_here | eapply blob_below]; eauto.
Qed.

(** X1: [__treeToDict] on an empty dict gives one key for every blob path of
    the tree, sub-trees included, and no other key; no key twice; and the
    value under a key is the id of a blob of the tree with that path. *)
Theorem treeToDict_blobs :
  forall (t : Tree) (path : string),
    (In path (dict_keys (treeToDict t [])) <-> blob_path t path)
    /\ NoDup (dict_keys (treeToDict t []))
    /\ (forall hexsha, dict_get path (treeToDict t []) = Some hexsha ->
                       blob_entry t path hexsha)
    /\ (blob_path t path ->
        exists hexsha, dict_get path (treeToDict t []) = Some hexsha
                       /\ blob_entry t path hexsha).
Proof.
  intros t path.
  assert (K : In path (dict_keys (treeToDict t [])) <-> blob_path t path).
  { rewrite treeToDict_keys. cbn. tauto. }
  assert (G : forall hexsha, dict_get path (treeToDict t []) = Some hexsha ->
                             blob_entry t path hexsha).
  { intros h H. destruct (treeToDict_get t [] path h H) as [H'|B];
      [discriminate | exact B]. }
  split; [exact K|]. split; [apply treeToDict_NoDup; constructor|].
  split; [exact G|].
  intros B. apply K in B. apply dict_get_In_keys in B. destruct B as [h H].
  exists h. split; [exact H | now apply G].
Qed.

Lemma treeToDict_blobs_witness :
  blob_path (commit_tree first_commit) "src/main.py"
  /\ exists hexsha,
       dict_get "src/main.py" (treeToDict (commit_tree first_commit) []) = Some hexsha
       /\ blob_entry (commit_tree first_commit) "src/main.py" hexsha.
Proof.
  assert (B : blob_path (commit_tree first_commit) "src/main.py").
  { eapply blob_below; [right; left; reflexivity|].
    eapply blob_here. left. reflexivity. }
  split; [exact B|].
  destruct (treeToDict_blobs (commit_tree first_commit) "src/main.py")
    as (_ & _ & _ & H).
  exact (H B).
Defined.

Lemma addChangeInformation_with_parent (c p : Commit) (ps : list Commit) :
  commit_parents c = p :: ps ->
  let all_new := treeToDict (commit_tree c) [] in
  let all_old := treeToDict (commit_tree p) [] in
  addChangeInformation (newGitCommitLogNode c)
  = bind (rename_loop all_new (old_id_to_name all_old)
            (set_diff (dict_keys all_new) (dict_keys all_old))
            (set_diff (dict_keys all_new) (dict_keys all_old),
             set_diff (dict_keys all_old) (dict_keys all_new), []))
      (fun st =>
         let '(all_added, all_deleted, all_renamed) := st in
         Normal (_addChanges (newGitCommitLogNode c) all_added all_deleted all_renamed
                   (fold_left (modified_step all_new all_old) (dict_keys all_new) []))).
Proof.
  intros Hp all_new all_old.
  unfold addChangeInformation, commitPreviousTree, commitTree.
  cbn [newGitCommitLogNode commit]. rewrite Hp.
  fold all_new. fold all_old. now rewrite rename_loop_guard.
Qed.

Lemma rename_loop_sources_distinct (all_new all_old : dict string) (names : list string) :
  forall A D R st',
    rename_loop all_new (old_id_to_name all_old) names (A, D, R) = Normal st' ->
    forall n n' o,
      In n names -> In n' names ->
      rename_source all_new all_old n = Some o ->
      rename_source all_new all_old n' = Some o -> n = n'.
Proof.
  induction names as [|name rest IH]; intros A D R st' H n n' o Hn Hn' Hs Hs'.
  - destruct Hn.
  - cbn [rename_loop] in H. unfold rename_step, dict_index in H.
    destruct (dict_get name all_new) as [id_|] eqn:Eid; [|discriminate].
    cbn [bind] in H.
    assert (Esrc : rename_source all_new all_old name
                   = dict_get id_ (old_id_to_name all_old))
      by (unfold rename_source; now rewrite Eid).
    destruct (dict_get id_ (old_id_to_name all_old)) as [old_name|] eqn:Eold.
    + destruct (set_remove name A) as [A1|] eqn:EA; [|discriminate].
      cbn [bind] in H.
      destruct (set_remove old_name D) as [D1|] eqn:ED; [|discriminate].
      cbn [bind] in H.
      apply set_remove_Normal in ED. destruct ED as [_ ->].
      destruct st' as [[A' D'] R'].
      destruct (rename_loop_returns all_new all_old _ _ _ _ _ _ _ H)
        as (_ & _ & _ & Hsrc).
      assert (Hrest : forall m, In m rest ->
                rename_source all_new all_old m <> Some old_name).
      { intros m Hm E. apply (Hsrc m old_name Hm) in E.
        apply set_discard_In in E. now destruct E. }
      destruct Hn as [<-|Hn]; destruct Hn' as [<-|Hn'].
      * reflexivity.
      * exfalso. apply (Hrest n' Hn'). congruence.
      * exfalso. apply (Hrest n Hn). congruence.
      * eapply IH; eauto.
    + destruct Hn as [<-|Hn]; [congruence|].
      destruct Hn' as [<-|Hn']; [congruence|].
      eapply IH; eauto.
Qed.

Lemma rename_loop_succeeds (all_new all_old : dict string) (names : list string) :
  forall A D R,
    NoDup names ->
    (forall n, In n names -> In n A) ->
    (forall n, In n names -> exists id_, dict_get n all_new = Some id_) ->
    (forall n o, In n names -> rename_source all_new all_old n = Some o -> In o D) ->
    (forall n n' o, In n names -> In n' names ->
                    rename_source all_new all_old n = Some o ->
                    rename_source all_new all_old n' = Some o -> n = n') ->
    exists st', rename_loop all_new (old_id_to_name all_old) names (A, D, R)
                = Normal st'.
Proof.
  induction names as [|name rest IH]; intros A D R Hnd HA Hnew HD Hinj.
  - eexists. reflexivity.
  - inversion Hnd as [|? ? Hnotin Hnd']; subst.
    cbn [rename_loop]. unfold rename_step, dict_index.
    destruct (Hnew name (or_introl eq_refl)) as [id_ Eid]. rewrite Eid.
    cbn [bind].
    assert (Esrc : rename_source all_new all_old name
                   = dict_get id_ (old_id_to_name all_old))
      by (unfold rename_source; now rewrite Eid).
    destruct (dict_get id_ (old_id_to_name all_old)) as [old_name|] eqn:Eold.
    + unfold set_remove.
      assert (E1 : set_mem name A = true)
        by (apply set_mem_In, HA; now left).
      assert (E2 : set_mem old_name D = true)
        by (apply set_mem_In, (HD name); [now left | exact Esrc]).
      rewrite E1. cbn [bind]. rewrite E2. cbn [bind].
      apply IH.
      * exact Hnd'.
      * intros n Hn. apply set_discard_In. split; [apply HA; now right|].
        intros ->. contradiction.
      * intros n Hn. apply Hnew. now right.
      * intros n o Hn Hs. apply set_discard_In.
        split; [apply (HD n); [now right | exact Hs]|].
        intros ->. apply Hnotin.
        rewrite (Hinj name n old_name); [exact Hn | now left | now right | | exact Hs].
        exact Esrc.
      * intros n n' o Hn Hn'. apply Hinj; now right.
    + apply IH.
      * exact Hnd'.
      * intros n Hn. apply HA. now right.
      * intros n Hn. apply Hnew. now right.
      * intros n o Hn. apply HD. now right.
      * intros n n' o Hn Hn'. apply Hinj; now right.
Qed.

Lemma rename_loop_raises_KeyError (all_new id_to_name : dict string)
    (names : list string) :
  forall st e,
    rename_loop all_new id_to_name names st = Raise e -> exists k, e = KeyError k.
Proof.
  induction names as [|name rest IH]; intros [[A D] R] e H; [discriminate|].
  cbn [rename_loop] in H. unfold rename_step, dict_index in H.
  destruct (dict_get name all_new) as [id_|];
    [|cbn in H; injection H as <-; eauto].
  cbn [bind] in H.
  destruct (dict_get id_ id_to_name) as [old_name|]; [|now apply IH in H].
  unfold set_remove in H.
  destruct (set_mem name A); [|cbn in H; injection H as <-; eauto].
  cbn [bind] in H.
  destruct (set_mem old_name D); [|cbn in H; injection H as <-; eauto].
  cbn [bind] in H. now apply IH in H.
Qed.

(** X2: when the call returns for a commit with a parent, the change list
    has a rename [('R', new, old)] exactly for the added paths whose blob an
    old path has (the old path is deleted and has the same blob), an ['A']
    for the other added paths, a ['D'] for the deleted paths that no rename
    took, and an ['M'] for the paths in both trees whose blob differs. *)
Theorem parent_changes_when_returns :
  forall (c p : Commit) (ps : list Commit) (node' : GitCommitLogNode),
    commit_parents c = p :: ps ->
    addChangeInformation (newGitCommitLogNode c) = Normal node' ->
    let all_new := treeToDict (commit_tree c) [] in
    let all_old := treeToDict (commit_tree p) [] in
    let ch := commitFileChanges node' in
    (forall n o, In ("R", n, o) ch
                 <-> only_in all_new all_old n
                     /\ rename_source all_new all_old n = Some o)
    /\ (forall n o, In ("R", n, o) ch ->
                    only_in all_old all_new o /\ same_blob all_new all_old n o)
    /\ (forall n, In ("A", n, "") ch
                  <-> only_in all_new all_old n
                      /\ ~ exists o, only_in all_old all_new o
                                     /\ same_blob all_new all_old n o)
    /\ (forall o, In ("D", o, "") ch
                  <-> only_in all_old all_new o /\ ~ exists n, In ("R", n, o) ch)
    /\ (forall k, In ("M", k, "") ch
                  <-> exists new_id old_id,
                        dict_get k all_new = Some new_id
                        /\ dict_get k all_old = Some old_id /\ new_id <> old_id).
Proof.
  intros c p ps node' Hp Hret. exact (changes_with_parent_when_returns c p ps node' Hp Hret).
Qed.

Lemma parent_changes_when_returns_witness :
  commit_parents rename_commit = [rename_parent]
  /\ exists node',
       addChangeInformation (newGitCommitLogNode rename_commit) = Normal node'
       /\ In ("R", "new.txt", "old.txt") (commitFileChanges node')
       /\ In ("M", "doc.txt", "") (commitFileChanges node')
       /\ ~ In ("A", "new.txt", "") (commitFileChanges node').
Proof.
  split; [reflexivity|].
  eexists. split; [reflexivity|].
  destruct (parent_changes_when_returns rename_commit rename_parent [] _
              eq_refl eq_refl) as (HR & _ & HA & _ & HM).
  split; [|split].
  - apply HR. split; [split; reflexivity | reflexivity].
  - apply HM. exists "h3", "h2". split; [reflexivity|]. split; [reflexivity|discriminate].
  - intros H. apply HA in H. destruct H as [_ H]. apply H.
    exists "old.txt". split; [split; reflexivity|].
    exists "h1". split; reflexivity.
Defined.

Lemma addChangeInformation_returns_when_ok (c p : Commit) (ps : list Commit) :
  commit_parents c = p :: ps ->
  renames_ok (treeToDict (commit_tree c) []) (treeToDict (commit_tree p) []) ->
  exists node', addChangeInformation (newGitCommitLogNode c) = Normal node'.
Proof.
  intros Hp Hok.
  rewrite (addChangeInformation_with_parent c p ps Hp).
  set (all_new := treeToDict (commit_tree c) []) in *.
  set (all_old := treeToDict (commit_tree p) []) in *.
  set (names := set_diff (dict_keys all_new) (dict_keys all_old)).
  set (deleted := set_diff (dict_keys all_old) (dict_keys all_new)).
  destruct (rename_loop_succeeds all_new all_old names names deleted [])
    as [[[A' D'] R'] E].
  - apply NoDup_filter, treeToDict_NoDup. constructor.
  - auto.
  - intros n Hn. apply set_diff_In in Hn. destruct Hn as [Hn _].
    now apply dict_get_In_keys.
  - intros n o Hn Hs. apply only_in_set_diff in Hn.
    apply only_in_set_diff. now apply (Hok n o).
  - intros n n' o Hn Hn' Hs Hs'.
    apply only_in_set_diff in Hn. apply only_in_set_diff in Hn'.
    destruct (Hok n' o Hn' Hs') as [_ H]. now apply H.
  - match goal with
    | |- exists _, bind ?t _ = _ =>
        replace t with (@Normal (pyset * pyset * list (string * string)) (A', D', R'))
          by (symmetry; exact E)
    end.
    cbn [bind]. eauto.
Qed.

(** X3: for a commit with a parent the call returns exactly when every
    added path whose blob an old path has is paired (through
    [all_old_id_to_name]) with a deleted path, and no two added paths with
    the same one; in every other case it raises [KeyError]. *)
Theorem addChangeInformation_returns_iff :
  forall (c p : Commit) (ps : list Commit),
    commit_parents c = p :: ps ->
    let all_new := treeToDict (commit_tree c) [] in
    let all_old := treeToDict (commit_tree p) [] in
    ((exists node', addChangeInformation (newGitCommitLogNode c) = Normal node')
     <-> renames_ok all_new all_old)
    /\ (forall e, addChangeInformation (newGitCommitLogNode c) = Raise e ->
                  exists k, e = KeyError k).
Proof.
  intros c p ps Hp all_new all_old.
  rewrite (addChangeInformation_with_parent c p ps Hp).
  fold all_new. fold all_old.
  set (names := set_diff (dict_keys all_new) (dict_keys all_old)).
  set (deleted := set_diff (dict_keys all_old) (dict_keys all_new)).
  split; [split|].
  - intros [node' H].
    destruct (rename_loop all_new (old_id_to_name all_old) names (names, deleted, []))
      as [[[A' D'] R']|e] eqn:Eloop; [|discriminate].
    destruct (rename_loop_returns all_new all_old _ _ _ _ _ _ _ Eloop)
      as (_ & _ & _ & Hsrc).
    intros n o Hn Hs. apply only_in_set_diff in Hn. split.
    + apply only_in_set_diff. now apply (Hsrc n o).
    + intros n' Hn' Hs'. apply only_in_set_diff in Hn'.
      eapply (rename_loop_sources_distinct all_new all_old names); eauto.
  - intros Hok.
    pose proof (addChangeInformation_returns_when_ok c p ps Hp Hok) as Hret.
    rewrite (addChangeInformation_with_parent c p ps Hp) in Hret. exact Hret.
  - intros e H.
    destruct (rename_loop all_new (old_id_to_name all_old) names (names, deleted, []))
      as [[[A' D'] R']|e'] eqn:Eloop; [discriminate|].
    cbn [bind] in H. injection H as <-.
    eapply rename_loop_raises_KeyError; eauto.
Qed.

Lemma addChangeInformation_returns_iff_witness :
  commit_parents rename_commit = [rename_parent]
  /\ renames_ok (treeToDict (commit_tree rename_commit) [])
                (treeToDict (commit_tree rename_parent) [])
  /\ commit_parents copy_commit = [copy_parent]
  /\ ~ renames_ok (treeToDict (commit_tree copy_commit) [])
                  (treeToDict (commit_tree copy_parent) []).
Proof.
  destruct (addChangeInformation_returns_iff rename_commit rename_parent [] eq_refl)
    as [[H1 _] _].
  destruct (addChangeInformation_returns_iff copy_commit copy_parent [] eq_refl)
    as [[_ H2] _].
  split; [reflexivity|]. split; [apply H1; eexists; reflexivity|].
  split; [reflexivity|].
  intros Hok. destruct (H2 Hok) as [node' H]. discriminate.
Defined.

Lemma treeToDict_mem_blob (t : Tree) (path : string) :
  dict_mem path (treeToDict t []) = true <-> blob_path t path.
Proof.
  rewrite dict_mem_In_keys, treeToDict_keys. cbn. tauto.
Qed.

Lemma addChangeInformation_shape (node node' : GitCommitLogNode) :
  addChangeInformation node = Normal node' ->
  exists A D R M, node' = _addChanges node A D R M.
Proof.
  unfold addChangeInformation.
  destruct (commitPreviousTree node) as [old_tree|].
  - rewrite rename_loop_guard.
    destruct (rename_loop _ _ _ _) as [[[A D] R]|e]; [|discriminate].
    cbn [bind]. intros H. injection H as <-. eauto.
  - intros H. injection H as <-. eauto.
Qed.

Lemma addChanges_kinds (node : GitCommitLogNode) (A D M : pyset)
    (R : list (string * string)) (kind path old_path : string) :
  In (kind, path, old_path) (commitFileChanges (_addChanges node A D R M)) ->
  In (kind, path, old_path) (all_changes node)
  \/ (kind = "A" /\ old_path = "" /\ In path A)
  \/ (kind = "D" /\ old_path = "" /\ In path D)
  \/ (kind = "R" /\ In (path, old_path) R)
  \/ (kind = "M" /\ old_path = "" /\ In path M).
Proof.
  unfold commitFileChanges, _addChanges. cbn [all_changes].
  rewrite !in_app_iff, !in_map_iff.
  intros [[[[H|(x & E & H)]|(x & E & H)]|(x & E & H)]|(x & E & H)].
  - now left.
  - injection E as <- <- <-. right. left. auto.
  - injection E as <- <- <-. right. right. left. auto.
  - destruct x as [x1 x2]. injection E as <- <- <-. right. right. right. left. auto.
  - injection E as <- <- <-. right. right. right. right. auto.
Qed.

(** X4: a commit that adds no path (every blob path of its tree is in the
    first parent's tree) always gets its change list: it holds nothing but
    ['D'] and ['M'] entries, a ['D'] for every path that left the tree and an
    ['M'] for every path whose blob differs. *)
Theorem commit_without_added_paths :
  forall (c p : Commit) (ps : list Commit),
    commit_parents c = p :: ps ->
    (forall path, blob_path (commit_tree c) path -> blob_path (commit_tree p) path) ->
    let all_new := treeToDict (commit_tree c) [] in
    let all_old := treeToDict (commit_tree p) [] in
    exists node',
      addChangeInformation (newGitCommitLogNode c) = Normal node'
      /\ (forall kind path old_path,
            In (kind, path, old_path) (commitFileChanges node') ->
            (kind = "D" \/ kind = "M") /\ old_path = "")
      /\ (forall path,
            In ("D", path, "") (commitFileChanges node')
            <-> blob_path (commit_tree p) path /\ ~ blob_path (commit_tree c) path)
      /\ (forall path,
            In ("M", path, "") (commitFileChanges node')
            <-> exists new_id old_id,
                  dict_get path all_new = Some new_id
                  /\ dict_get path all_old = Some old_id /\ new_id <> old_id).
Proof.
  intros c p ps Hp Hsub all_new all_old.
  assert (Hnone : forall n, ~ only_in all_new all_old n).
  { intros n [H1 H2]. apply treeToDict_mem_blob in H1. apply Hsub in H1.
    apply treeToDict_mem_blob in H1. fold all_old in H1. congruence. }
  assert (Hok : renames_ok all_new all_old).
  { intros n o Hn. now apply Hnone in Hn. }
  destruct (addChangeInformation_returns_when_ok c p ps Hp Hok) as [node' E].
  exists node'. split; [exact E|].
  destruct (changes_with_parent_when_returns c p ps node' Hp E)
    as (HR & _ & HA & HD & HM).
  fold all_new in HR, HA, HD, HM. fold all_old in HR, HA, HD, HM.
  destruct (addChangeInformation_shape _ _ E) as (A & D & R & M & ->).
  split; [|split].
  - intros kind path old_path Hin.
    destruct (addChanges_kinds _ _ _ _ _ _ _ _ Hin)
      as [[]|[(-> & -> & _)|[(-> & -> & _)|[(-> & _)|(-> & -> & _)]]]].
    + apply HA in Hin. destruct Hin as [Hn _]. now apply Hnone in Hn.
    + auto.
    + apply HR in Hin. destruct Hin as [Hn _]. now apply Hnone in Hn.
    + auto.
  - intros path. rewrite HD. unfold only_in.
    rewrite <- !treeToDict_mem_blob. fold all_new. fold all_old. split.
    + intros [[H1 H2] _]. split; [exact H1 | congruence].
    + intros [H1 H2]. split.
      * split; [exact H1|]. destruct (dict_mem path all_new); [now contradiction H2 | reflexivity].
      * intros (n & Hn). apply HR in Hn. destruct Hn as [Hn _]. now apply Hnone in Hn.
  - exact HM.
Qed.

Lemma commit_without_added_paths_witness :
  commit_parents edit_commit = [rename_commit]
  /\ (forall path, blob_path (commit_tree edit_commit) path ->
                   blob_path (commit_tree rename_commit) path)
  /\ exists node',
       addChangeInformation (newGitCommitLogNode edit_commit) = Normal node'
       /\ In ("M", "doc.txt", "") (commitFileChanges node').
Proof.
  assert (Hsub : forall path, blob_path (commit_tree edit_commit) path ->
                              blob_path (commit_tree rename_commit) path).
  { intros path B. apply treeToDict_mem_blob.
    apply treeToDict_mem_blob in B. unfold dict_mem in *. cbn in B |- *.
    destruct (String.eqb path "doc.txt"); [reflexivity|].
    destruct (String.eqb path "new.txt"); [reflexivity | discriminate]. }
  split; [reflexivity|]. split; [exact Hsub|].
  destruct (commit_without_added_paths edit_commit rename_commit [] eq_refl Hsub)
    as (node' & E & _ & _ & HM).
  exists node'. split; [exact E|].
  apply HM. exists "h4", "h3". split; [reflexivity|]. split; [reflexivity|discriminate].
Defined.

Lemma addChanges_commit (node : GitCommitLogNode) (A D M : pyset)
    (R : list (string * string)) :
  commit (_addChanges node A D R M) = commit node.
Proof. reflexivity. Qed.

Lemma addCommitChangeInformation_raises (all_commit_logs : list GitCommitLogNode) :
  forall e logs',
    addCommitChangeInformation all_commit_logs = (Raise e, logs') ->
    exists node, In node all_commit_logs /\ addChangeInformation node = Raise e.
Proof.
  induction all_commit_logs as [|node rest IH]; intros e logs' H; cbn in H.
  - discriminate.
  - destruct (addChangeInformation node) as [node'|e'] eqn:E.
    + destruct (addCommitChangeInformation rest) as [r rest'] eqn:Er.
      injection H as -> <-. destruct (IH _ _ eq_refl) as (n & Hn & En).
      exists n. split; [now right | exact En].
    + injection H as <- <-. exists node. split; [now left | exact E].
Qed.

Lemma commitLog_spec (iter_commits : IterCommitsCall -> list Commit)
    (call : IterCommitsCall) :
  log_of_commits (commitLog iter_commits call) (iter_commits call).
Proof.
  unfold log_of_commits, commitLog.
  generalize (iter_commits call) as commits. intros commits.
  assert (Hnormal : forall logs,
             addCommitChangeInformation (map newGitCommitLogNode commits)
             = (Normal tt, logs) ->
             map commit logs = commits
             /\ Forall2 (fun c node => addChangeInformation (newGitCommitLogNode c)
                                       = Normal node) commits logs).
  { induction commits as [|c rest IH]; intros logs H; cbn in H.
    - injection H as <-. split; [reflexivity | constructor].
    - destruct (addChangeInformation (newGitCommitLogNode c)) as [node'|e] eqn:E;
        [|discriminate].
      destruct (addCommitChangeInformation (map newGitCommitLogNode rest))
        as [r rest'] eqn:Er.
      injection H as -> <-. destruct (IH _ eq_refl) as [H1 H2].
      destruct (addChangeInformation_shape _ _ E) as (A & D & R & M & ->).
      split; [cbn; now rewrite H1 | constructor; assumption]. }
  split; [|split].
  - intros logs H.
    destruct (addCommitChangeInformation (map newGitCommitLogNode commits))
      as [[[]|e] logs0] eqn:E; [|discriminate].
    injection H as <-. now apply Hnormal.
  - split.
    + intros [logs H].
      destruct (addCommitChangeInformation (map newGitCommitLogNode commits))
        as [[[]|e] logs0] eqn:E; [|discriminate].
      destruct (Hnormal _ eq_refl) as [_ H2].
      clear - H2. induction H2; constructor; eauto.
    + intros Hall.
      assert (Hex : exists logs,
                 addCommitChangeInformation (map newGitCommitLogNode commits)
                 = (Normal tt, logs)).
      { clear Hnormal. induction Hall as [|c rest [node Hc] _ IH]; cbn.
        - eauto.
        - rewrite Hc. destruct IH as [logs ->]. eauto. }
      destruct Hex as [logs ->]. eauto.
  - intros e H.
    destruct (addCommitChangeInformation (map newGitCommitLogNode commits))
      as [[[]|e'] logs0] eqn:E; [discriminate|].
    injection H as <-.
    destruct (addCommitChangeInformation_raises _ _ _ E) as (node & Hin & Hr).
    apply in_map_iff in Hin. destruct Hin as (c & <- & Hc). eauto.
Qed.

Lemma pyval_eq_dec (a b : pyval) : {a = b} + {a <> b}.
Proof. decide equality; [apply Z.eq_dec | apply string_dec]. Defined.

Lemma IterCommitsCall_eq_dec (a b : IterCommitsCall) : {a = b} + {a <> b}.
Proof.
  decide equality.
  - apply list_eq_dec. intros [k v] [k' v'].
    destruct (string_dec k k') as [->|Hk]; [|right; congruence].
    destruct (pyval_eq_dec v v') as [->|Hv]; [left; reflexivity | right; congruence].
  - apply list_eq_dec, string_dec.
  - apply pyval_eq_dec.
Defined.

(** The result shows which call the iterator got: two calls that give the
    same log with every iterator are one call. *)
Lemma commitLog_call_determined (c c' : IterCommitsCall) :
  (forall iter_commits, commitLog iter_commits c = commitLog iter_commits c') ->
  c = c'.
Proof.
  intros H.
  specialize (H (fun c0 => if IterCommitsCall_eq_dec c0 c then [first_commit] else [])).
  unfold commitLog in H.
  destruct (IterCommitsCall_eq_dec c c) as [_|Hne]; [|now contradiction Hne].
  destruct (IterCommitsCall_eq_dec c' c) as [->|_]; [reflexivity|].
  cbn in H. discriminate.
Qed.

(** X5: [cmdCommitLogForRepository] and [cmdCommitLogForFile] return
    exactly when the change list of every commit the iterator yields (at
    the call the command makes) can be made; they then return one node per
    commit, in the iterator's order, each with its own commit and the change
    list of that commit alone.  When they raise, the exception is that of
    one of the commits. *)
Theorem commitLog_nodes :
  forall (iter_commits : IterCommitsCall -> list Commit)
         (filename : string) (limit since until : pyval),
    log_of_commits (cmdCommitLogForRepository iter_commits limit since until)
      (iter_commits (repositoryLogCall limit since until))
    /\ log_of_commits (cmdCommitLogForFile iter_commits filename limit since until)
         (iter_commits (fileLogCall filename limit since until)).
Proof.
  intros iter_commits filename limit since until.
  split; apply commitLog_spec.
Qed.

Lemma commitLog_nodes_witness :
  exists logs,
    cmdCommitLogForRepository (fun _ => [edit_commit; rename_commit; rename_parent])
      PyNone PyNone PyNone = Normal logs
    /\ map commit logs = [edit_commit; rename_commit; rename_parent].
Proof.
  eexists. split; [reflexivity|].
  destruct (commitLog_nodes (fun _ => [edit_commit; rename_commit; rename_parent])
              "README" PyNone PyNone PyNone) as ((H & _ & _) & _).
  exact (proj1 (H _ eq_refl)).
Defined.

(** C8: each of [cmdCommitLogForRepository] and [cmdCommitLogForFile] calls
    the iterator once, with a call that no other call can stand for, and the
    commits of the nodes it returns are the ones the iterator yields at that
    call.  That call has an [until] keyword exactly when [since] is not
    [None], and then its value is the [until] argument as given, [None]
    included; with [since=None] the result of either command does not depend
    on [until]. *)
Theorem until_passed_only_with_since :
  forall (filename : string) (limit since until : pyval),
    let rcall := repositoryLogCall limit since until in
    let fcall := fileLogCall filename limit since until in
    ((forall iter_commits,
         cmdCommitLogForRepository iter_commits limit since until
         = commitLog iter_commits rcall)
     /\ (forall c,
           (forall iter_commits,
               cmdCommitLogForRepository iter_commits limit since until
               = commitLog iter_commits c) ->
           c = rcall)
     /\ (forall iter_commits logs,
           cmdCommitLogForRepository iter_commits limit since until = Normal logs ->
           map commit logs = iter_commits rcall))
    /\ ((forall iter_commits,
           cmdCommitLogForFile iter_commits filename limit since until
           = commitLog iter_commits fcall)
        /\ (forall c,
              (forall iter_commits,
                  cmdCommitLogForFile iter_commits filename limit since until
                  = commitLog iter_commits c) ->
              c = fcall)
        /\ (forall iter_commits logs,
              cmdCommitLogForFile iter_commits filename limit since until
              = Normal logs ->
              map commit logs = iter_commits fcall))
    /\ dict_get "until" (ic_kwds rcall)
       = (if is_not_None since then Some until else None)
    /\ dict_get "until" (ic_kwds fcall)
       = (if is_not_None since then Some until else None)
    /\ (since = PyNone ->
        dict_mem "until" (ic_kwds rcall) = false
        /\ dict_mem "until" (ic_kwds fcall) = false)
    /\ (since <> PyNone -> until = PyNone ->
        dict_get "until" (ic_kwds rcall) = Some PyNone
        /\ dict_get "until" (ic_kwds fcall) = Some PyNone)
    /\ (forall iter_commits until',
          cmdCommitLogForRepository iter_commits limit PyNone until
          = cmdCommitLogForRepository iter_commits limit PyNone until')
    /\ (forall iter_commits until',
          cmdCommitLogForFile iter_commits filename limit PyNone until
          = cmdCommitLogForFile iter_commits filename limit PyNone until').
Proof.
  intros filename limit since until rcall fcall.
  assert (Hcommits : forall iter_commits c logs,
             commitLog iter_commits c = Normal logs ->
             map commit logs = iter_commits c).
  { intros iter_commits c logs H.
    destruct (commitLog_spec iter_commits c) as (Hn & _ & _).
    exact (proj1 (Hn logs H)). }
  split; [|split].
  - split; [reflexivity|]. split.
    + intros c H. symmetry. apply commitLog_call_determined. exact H.
    + intros iter_commits logs H. now apply Hcommits.
  - split; [reflexivity|]. split.
    + intros c H. symmetry. apply commitLog_call_determined. exact H.
    + intros iter_commits logs H. now apply Hcommits.
  - subst rcall fcall.
    rewrite repositoryLogCall_until, fileLogCall_until.
    split; [reflexivity|]. split; [reflexivity|].
    split; [|split; [|split]].
    + intros ->. unfold dict_mem.
      now rewrite repositoryLogCall_until, fileLogCall_until.
    + intros Hs ->.
      destruct since; [now contradiction Hs | split; reflexivity ..].
    + intros iter_commits until'. unfold cmdCommitLogForRepository.
      now rewrite (repositoryLogCall_no_since limit until until').
    + intros iter_commits until'. unfold cmdCommitLogForFile.
      now rewrite (fileLogCall_no_since filename limit until until').
Qed.

Lemma until_passed_only_with_since_witness :
  (exists logs,
      cmdCommitLogForRepository until_only_iter PyNone (PyStr "2016-01-01") PyNone
      = Normal logs
      /\ map commit logs = [first_commit])
  /\ (exists logs,
        cmdCommitLogForFile until_only_iter "README" PyNone (PyStr "2016-01-01") PyNone
        = Normal logs
        /\ map commit logs = [first_commit])
  /\ cmdCommitLogForRepository until_only_iter PyNone PyNone (PyStr "2016-12-31")
     = Normal []
  /\ cmdCommitLogForFile until_only_iter "README" PyNone PyNone (PyStr "2016-12-31")
     = Normal [].
Proof.
  destruct (until_passed_only_with_since "README" PyNone (PyStr "2016-01-01") PyNone)
    as ((_ & _ & Hr) & (_ & _ & Hf) & _).
  destruct (until_passed_only_with_since "README" PyNone PyNone (PyStr "2016-12-31"))
    as ((Er & _) & (Ef & _) & _).
  split; [eexists; split; [reflexivity | exact (Hr until_only_iter _ eq_refl)]|].
  split; [eexists; split; [reflexivity | exact (Hf until_only_iter _ eq_refl)]|].
  split; [rewrite Er | rewrite Ef]; reflexivity.
Defined.

(** The calls in full: the two commit log commands call the iterator with revision [None],
    no path (repository) or the one file name (file), and keywords that are
    exactly: [max_count] with the limit when a limit is given, and [since]
    and [until] with their arguments when [since] is given. *)
Theorem log_call_keywords :
  forall (filename : string) (limit since until : pyval),
    let expected :=
      (if is_not_None limit then [("max_count", limit)] else [])
      ++ (if is_not_None since then [("since", since); ("until", until)] else []) in
    repositoryLogCall limit since until = mkIterCall PyNone [] expected
    /\ fileLogCall filename limit since until = mkIterCall PyNone [filename] expected.
Proof.
  intros filename limit since until.
  destruct limit, since; split; reflexivity.
Qed.

End CommitLogMore.

(** ** Per-file status: before the first calculation, and the text lines *)

Section FileStateMore.
Import FileState.

Lemma pristine_record (s : WbGitFileState) :
  pristine s ->
  s = mkFileState (index_entry s) (unstaged_diff s) (staged_diff s) (untracked s)
        false false false None None None None.
Proof.
  destruct s. unfold pristine. cbn.
  intros (-> & -> & -> & -> & -> & -> & ->). reflexivity.
Qed.

Lemma pristine_new (e : option IndexEntry) : pristine (newWbGitFileState e).
Proof. repeat split. Qed.

Lemma pristine_addStaged (d : Diff) (s : WbGitFileState) :
  pristine s -> pristine (_addStaged d s).
Proof. unfold pristine. cbn. tauto. Qed.

Lemma pristine_addUnstaged (d : Diff) (s : WbGitFileState) :
  pristine s -> pristine (_addUnstaged d s).
Proof. unfold pristine. cbn. tauto. Qed.

Lemma pristine_setUntracked (s : WbGitFileState) :
  pristine s -> pristine (_setUntracked s).
Proof. unfold pristine. cbn. tauto. Qed.

Lemma pristine_reachable (s : WbGitFileState) : pristine s -> reachable s.
Proof.
  intros H. rewrite (pristine_record s H).
  destruct (index_entry s) as [e|], (unstaged_diff s) as [u|],
    (staged_diff s) as [d|], (untracked s).
  all: first
    [ exact (reach_init _)
    | exact (reach_setUntracked _ (reach_init _))
    | exact (reach_addStaged _ _ (reach_init _))
    | exact (reach_addUnstaged _ _ (reach_init _))
    | exact (reach_setUntracked _ (reach_addStaged _ _ (reach_init _)))
    | exact (reach_setUntracked _ (reach_addUnstaged _ _ (reach_init _)))
    | exact (reach_addStaged _ _ (reach_addUnstaged _ _ (reach_init _)))
    | exact (reach_setUntracked _
               (reach_addStaged _ _ (reach_addUnstaged _ _ (reach_init _)))) ].
Qed.

(** X8: on a file state that has not been calculated yet, the three
    [canDiff...] accessors answer as the classification does
    ([canDiffHeadVsStaged] as [isStagedModified], [canDiffHeadVsWorking] as
    [isUnstagedModified], [canDiffStagedVsWorking] as both), and the
    calculation leaves as staged blob the index side of a modified staged
    diff and as head blob its HEAD side, or else the index side of a modified
    unstaged diff. *)
Theorem canDiff_follows_classification :
  forall (s : WbGitFileState),
    pristine s ->
    fst (canDiffHeadVsStaged s) = fst (isStagedModified s)
    /\ fst (canDiffHeadVsWorking s) = fst (isUnstagedModified s)
    /\ fst (canDiffStagedVsWorking s)
       = fst (isUnstagedModified s) && fst (isStagedModified s)
    /\ getStagedBlob (snd (isStagedModified s))
       = match staged_diff s with
         | Some d => if fst (isStagedModified s) then a_blob d else None
         | None => None
         end
    /\ getHeadBlob (snd (isStagedModified s))
       = match (match staged_diff s with
                | Some d => if fst (isStagedModified s) then b_blob d else None
                | None => None
                end) with
         | Some b => Some b
         | None =>
             match unstaged_diff s with
             | Some u => if fst (isUnstagedModified s) then a_blob u else None
             | None => None
             end
         end.
Proof.
  intros s H. rewrite (pristine_record s H).
  destruct (staged_diff s) as [d|]; destruct (unstaged_diff s) as [u|].
  - destruct d as [? ? ? ? dn dd dr], u as [? ? ? ? un ud ur].
    destruct dr, dd, dn, ud, un; cbn;
      repeat split; try reflexivity;
      match goal with |- context [match ?b with Some _ => _ | None => _ end] =>
        destruct b; reflexivity end.
  - destruct d as [? ? ? ? dn dd dr].
    destruct dr, dd, dn; cbn; repeat split; try reflexivity;
      match goal with |- context [match ?b with Some _ => _ | None => _ end] =>
        destruct b; reflexivity end.
  - destruct u as [? ? ? ? un ud ur].
    destruct ud, un; cbn; repeat split; reflexivity.
  - cbn. repeat split; reflexivity.
Qed.

Lemma canDiff_follows_classification_witness :
  pristine twice_modified_state
  /\ fst (canDiffStagedVsWorking twice_modified_state) = true
  /\ getHeadBlob (snd (isStagedModified twice_modified_state))
     = Some (mkBlob "h1" 33188%N).
Proof.
  assert (P : pristine twice_modified_state)
    by (apply pristine_addUnstaged, pristine_addStaged, pristine_new).
  split; [exact P|].
  destruct (canDiff_follows_classification twice_modified_state P)
    as (_ & _ & H3 & _ & H5).
  split; [rewrite H3; reflexivity | rewrite H5; reflexivity].
Defined.

Lemma calculateState_setUntracked (s : WbGitFileState) :
  calculateState (_setUntracked s) = _setUntracked (calculateState s).
Proof.
  unfold calculateState. cbn [_setUntracked state_calculated].
  destruct (state_calculated s); [reflexivity|].
  unfold calculateStaged, calculateUnstaged. cbn [_setUntracked staged_diff].
  destruct (staged_diff s) as [d|]; cbn.
  - destruct (renamed d), (deleted_file d), (new_file d); cbn;
      destruct (unstaged_diff s) as [u|]; cbn; try reflexivity;
      destruct (deleted_file u), (new_file u); reflexivity.
  - destruct (unstaged_diff s) as [u|]; cbn; try reflexivity;
      destruct (deleted_file u), (new_file u); reflexivity.
Qed.

(** X9: [_setUntracked] sets the untracked flag and nothing that an
    accessor reads: every accessor answers after it as before it, and a
    calculated state stays calculated. *)
Theorem setUntracked_keeps_classification :
  forall (s : WbGitFileState) (a : Accessor),
    isUntracked (_setUntracked s) = true
    /\ state_calculated (_setUntracked s) = state_calculated s
    /\ fst (call a (_setUntracked s)) = fst (call a s)
    /\ snd (call a (_setUntracked s)) = _setUntracked (snd (call a s)).
Proof.
  intros s a. split; [reflexivity|]. split; [reflexivity|].
  rewrite !call_state. split; [|apply calculateState_setUntracked].
  destruct a; unfold call, getStagedAbbreviatedStatus, getUnstagedAbbreviatedStatus,
    isStagedNew, isStagedModified, isStagedDeleted, isUnstagedModified,
    isUnstagedDeleted, canDiffHeadVsStaged, canDiffStagedVsWorking,
    canDiffHeadVsWorking; cbn [fst]; rewrite calculateState_setUntracked; reflexivity.
Qed.

Lemma split_no_sep (sep : ascii) (s : string) :
  Forall (fun l => has_char sep l = false) (split sep s).
Proof.
  induction s as [|c s IH]; cbn [split].
  - constructor; [reflexivity | constructor].
  - destruct (Ascii.eqb c sep) eqn:E.
    + constructor; [reflexivity | exact IH].
    + destruct (split sep s) as [|h t]; [constructor; [cbn; now rewrite E|constructor]|].
      inversion IH as [|? ? Hh Ht]; subst.
      constructor; [cbn; now rewrite E, Hh | exact Ht].
Qed.

Lemma split_app_sep (sep : ascii) (s rest : string) :
  has_char sep s = false ->
  split sep (s ++ String sep rest) = s :: split sep rest.
Proof.
  induction s as [|c s IH]; cbn [has_char]; intros H.
  - cbn. now rewrite Ascii.eqb_refl.
  - apply orb_false_iff in H. destruct H as [Hc Hs].
    cbn [String.append split]. rewrite Hc, (IH Hs). reflexivity.
Qed.

Lemma split_one (sep : ascii) (s : string) :
  has_char sep s = false -> split sep s = [s].
Proof.
  induction s as [|c s IH]; cbn [has_char]; intros H; [reflexivity|].
  apply orb_false_iff in H. destruct H as [Hc Hs].
  cbn [split]. now rewrite Hc, (IH Hs).
Qed.

Lemma split_join (sep : ascii) (ls : list string) :
  ls <> [] ->
  Forall (fun l => has_char sep l = false) ls ->
  split sep (join (String sep EmptyString) ls) = ls.
Proof.
  induction ls as [|l rest IH]; intros Hne Hall; [contradiction|].
  inversion Hall as [|? ? Hl Hrest]; subst.
  destruct rest as [|l' rest'].
  - cbn [join]. now apply split_one.
  - change (join (String sep EmptyString) (l :: l' :: rest'))
      with (l ++ String sep (join (String sep EmptyString) (l' :: rest')))%string.
    rewrite (split_app_sep sep l _ Hl). f_equal. apply IH; [discriminate | exact Hrest].
Qed.

Lemma string_app_empty (s : string) : (s ++ "")%string = s.
Proof. induction s as [|c s IH]; cbn; [reflexivity | now rewrite IH]. Qed.

Lemma string_app_assoc (a b c : string) :
  ((a ++ b) ++ c)%string = (a ++ (b ++ c))%string.
Proof. induction a as [|x a IH]; cbn; [reflexivity | now rewrite IH]. Qed.

Lemma join_app_empty (sep : string) (ls : list string) :
  ls <> [] -> join sep (ls ++ [""]) = (join sep ls ++ sep)%string.
Proof.
  induction ls as [|l rest IH]; intros Hne; [contradiction|].
  destruct rest as [|l' rest'].
  - cbn. now rewrite string_app_empty.
  - change (join sep ((l :: l' :: rest') ++ [""]))
      with (l ++ sep ++ join sep ((l' :: rest') ++ [""]))%string.
    rewrite IH by discriminate.
    change (join sep (l :: l' :: rest'))
      with (l ++ sep ++ join sep (l' :: rest'))%string.
    now rewrite !string_app_assoc.
Qed.

(** X10: the lines the [getTextLines...] methods make of a text hold no
    newline; joined by newlines they give the text back, up to one final
    newline, which is dropped; and a text written as lines that each end in
    a newline reads back as those lines, as does one whose last line is not
    empty and has no final newline. *)
Theorem text_lines_round_trip :
  forall (text : string) (ls : list string),
    let nl := String newline_char EmptyString in
    Forall (fun l => has_char newline_char l = false) (text_lines text)
    /\ (text = join nl (text_lines text)
        \/ (text_lines text <> [] /\ text = (join nl (text_lines text) ++ nl)%string))
    /\ (ls <> [] -> Forall (fun l => has_char newline_char l = false) ls ->
        text_lines (join nl ls ++ nl) = ls
        /\ (last ls "" <> "" -> text_lines (join nl ls) = ls)).
Proof.
  intros text ls nl.
  pose proof (split_no_sep newline_char text) as Hno.
  pose proof (join_split newline_char text) as Hjoin.
  pose proof (split_nonempty newline_char text) as Hne.
  unfold text_lines.
  split; [|split].
  - destruct (String.eqb (last (split newline_char text) "") ""); [|exact Hno].
    rewrite (app_removelast_last "" Hne) in Hno.
    apply Forall_app in Hno. now destruct Hno.
  - destruct (String.eqb (last (split newline_char text) "") "") eqn:E.
    + apply String.eqb_eq in E.
      pose proof (app_removelast_last "" Hne) as Hl. rewrite E in Hl.
      destruct (removelast (split newline_char text)) as [|l rest] eqn:Er.
      * left. rewrite <- Hjoin, Hl. reflexivity.
      * right. split; [discriminate|].
        rewrite <- join_app_empty by discriminate.
        rewrite <- Hl. symmetry. exact Hjoin.
    + left. symmetry. exact Hjoin.
  - intros Hls Hall. split.
    + rewrite <- join_app_empty by exact Hls.
      unfold nl. rewrite split_join.
      * rewrite last_last, String.eqb_refl. apply removelast_last.
      * destruct ls; discriminate.
      * apply Forall_app. split; [exact Hall|]. constructor; [reflexivity|constructor].
    + intros Hlast. unfold nl. rewrite split_join by assumption.
      apply String.eqb_neq in Hlast. now rewrite Hlast.
Qed.

Lemma text_lines_round_trip_witness :
  ["a"; ""; "b"] <> []
  /\ Forall (fun l => has_char newline_char l = false) ["a"; ""; "b"]
  /\ text_lines (join (String newline_char EmptyString) ["a"; ""; "b"]
                 ++ String newline_char EmptyString)
     = ["a"; ""; "b"].
Proof.
  assert (H1 : ["a"; ""; "b"] <> []) by discriminate.
  assert (H2 : Forall (fun l => has_char newline_char l = false) ["a"; ""; "b"])
    by (repeat constructor).
  split; [exact H1|]. split; [exact H2|].
  destruct (text_lines_round_trip "" ["a"; ""; "b"]) as (_ & _ & H).
  exact (proj1 (H H1 H2)).
Defined.

Lemma calculated_blobs (s : WbGitFileState) (d : Diff) (head_side index_side : Blob) :
  pristine s ->
  staged_diff s = Some d ->
  fst (isStagedModified s) = true ->
  b_blob d = Some head_side ->
  a_blob d = Some index_side ->
  getStagedBlob (snd (isStagedModified s)) = Some index_side
  /\ getHeadBlob (snd (isStagedModified s)) = Some head_side.
Proof.
  intros P Hd Hm Hb Ha. rewrite (pristine_record s P) in Hm |- *.
  rewrite Hd in Hm |- *.
  destruct d as [? ? ? ? dn dd dr]. cbn in Hb, Ha. subst.
  destruct (unstaged_diff s) as [[? ? ? ? un ud ur]|].
  - destruct dr, dd, dn, ud, un; cbn in Hm |- *;
      try discriminate; split; reflexivity.
  - destruct dr, dd, dn; cbn in Hm |- *;
      try discriminate; split; reflexivity.
Qed.

(** X11: the text methods do not calculate the state themselves: on a file
    state that has not been calculated, [getTextLinesHead] and
    [getTextLinesStaged] raise [AttributeError] whatever the diffs are, and
    [getTextLinesWorking] raises it when there is no unstaged diff; once an
    accessor has run on a file with a modified staged diff,
    [getTextLinesHead] gives the lines of the diff's HEAD side and
    [getTextLinesStaged] those of its index side. *)
Theorem text_lines_need_calculated_state :
  forall (blob_text : Blob -> outcome string) (working_text : string -> outcome string)
         (s : WbGitFileState),
    pristine s ->
    (exists msg, getTextLinesHead blob_text s = Raise (AttributeError msg))
    /\ (exists msg, getTextLinesStaged blob_text s = Raise (AttributeError msg))
    /\ (unstaged_diff s = None ->
        exists msg, getTextLinesWorking working_text s = Raise (AttributeError msg))
    /\ (forall u, unstaged_diff s = Some u ->
          getTextLinesWorking working_text s
          = bind (working_text (a_path u)) (fun text => Normal (text_lines text)))
    /\ (forall d head_side index_side,
          staged_diff s = Some d ->
          fst (isStagedModified s) = true ->
          b_blob d = Some head_side ->
          a_blob d = Some index_side ->
          getTextLinesHead blob_text (snd (isStagedModified s))
          = bind (blob_text head_side) (fun text => Normal (text_lines text))
          /\ getTextLinesStaged blob_text (snd (isStagedModified s))
             = bind (blob_text index_side) (fun text => Normal (text_lines text))).
Proof.
  intros blob_text working_text s P.
  pose proof P as (_ & _ & _ & _ & _ & Hh & Hs).
  split; [unfold getTextLinesHead, getHeadBlob; rewrite Hh; eauto|].
  split; [unfold getTextLinesStaged, getStagedBlob; rewrite Hs; eauto|].
  split; [intros Hu; unfold getTextLinesWorking; rewrite Hu; eauto|].
  split; [intros u Hu; unfold getTextLinesWorking; now rewrite Hu|].
  intros d head_side index_side Hd Hm Hb Ha.
  destruct (calculated_blobs s d head_side index_side P Hd Hm Hb Ha) as [H4 H5].
  unfold getTextLinesHead, getTextLinesStaged. now rewrite H4, H5.
Qed.

Lemma text_lines_need_calculated_state_witness :
  pristine twice_modified_state
  /\ getTextLinesHead (fun b => Normal (blob_hexsha b)) twice_modified_state
     = Raise (AttributeError "'NoneType' object has no attribute 'data_stream'")
  /\ getTextLinesHead (fun b => Normal (blob_hexsha b))
       (snd (isStagedModified twice_modified_state))
     = Normal ["h1"].
Proof.
  assert (P : pristine twice_modified_state)
    by (apply pristine_addUnstaged, pristine_addStaged, pristine_new).
  split; [exact P|]. split; [reflexivity|].
  destruct (text_lines_need_calculated_state (fun b => Normal (blob_hexsha b))
              (fun _ => Normal "") twice_modified_state P) as (_ & _ & _ & _ & H).
  destruct (H _ (mkBlob "h1" 33188%N) (mkBlob "h2" 33188%N) eq_refl eq_refl eq_refl eq_refl)
    as [H1 _].
  rewrite H1. reflexivity.
Defined.

End FileStateMore.

(** ** The project: the status map *)

Section StatusMapFacts.
Import FileState Project.

Lemma last_with_app {X : Type} (key : X -> string) (path : string)
    (xs : list X) (x : X) :
  last_with key path (xs ++ [x])
  = if String.eqb (key x) path then Some x else last_with key path xs.
Proof.
  unfold last_with. rewrite filter_app. cbn [filter].
  destruct (String.eqb (key x) path).
  - rewrite map_app. cbn [map]. apply last_last.
  - now rewrite app_nil_r.
Qed.

Lemma last_with_none {X : Type} (key : X -> string) (path : string) (xs : list X) :
  existsb (fun x => String.eqb (key x) path) xs = false ->
  last_with key path xs = None.
Proof.
  unfold last_with. induction xs as [|x xs IH]; cbn; [reflexivity|].
  intros H. apply orb_false_iff in H. destruct H as [H1 H2].
  rewrite H1. now apply IH.
Qed.

Lemma last_with_some {X : Type} (key : X -> string) (path : string) (xs : list X) (x : X) :
  last_with key path xs = Some x -> In x xs /\ key x = path.
Proof.
  induction xs as [|y xs IH] using rev_ind; [discriminate|].
  rewrite last_with_app. destruct (String.eqb (key y) path) eqn:E.
  - intros H. injection H as ->. apply String.eqb_eq in E.
    split; [apply in_or_app; right; now left | exact E].
  - intros H. destruct (IH H) as [H1 H2]. split; [apply in_or_app; now left | exact H2].
Qed.

Lemma last_with_exists {X : Type} (key : X -> string) (path : string) (xs : list X) :
  existsb (fun x => String.eqb (key x) path) xs = true ->
  exists x, last_with key path xs = Some x.
Proof.
  induction xs as [|y xs IH] using rev_ind; [discriminate|].
  rewrite existsb_app, last_with_app. cbn [existsb].
  destruct (String.eqb (key y) path); [eauto|].
  rewrite !orb_false_r. exact IH.
Qed.

Lemma touch_state_get (path p : string) (f : WbGitFileState -> WbGitFileState)
    (states : dict WbGitFileState) :
  dict_get p (touch_state path f states)
  = if String.eqb path p
    then Some (f (match dict_get path states with
                  | Some fs => fs
                  | None => newWbGitFileState None
                  end))
    else dict_get p states.
Proof.
  unfold touch_state. destruct (String.eqb path p) eqn:E.
  - apply String.eqb_eq in E. subst p.
    destruct (dict_get path states); apply dict_get_set_same.
  - apply String.eqb_neq in E.
    destruct (dict_get path states); apply dict_get_set_other; congruence.
Qed.

Lemma entries_loop (entries : list IndexEntry) :
  forall (done : list IndexEntry) (states : dict WbGitFileState),
    (forall p, dict_get p states = expected_state done [] [] [] p) ->
    forall p,
      dict_get p (fold_left
                    (fun s entry =>
                       dict_set (entry_path entry) (newWbGitFileState (Some entry)) s)
                    entries states)
      = expected_state (done ++ entries) [] [] [] p.
Proof.
  induction entries as [|e rest IH]; intros done states Inv p; cbn [fold_left].
  - now rewrite app_nil_r.
  - change (e :: rest) with ([e] ++ rest). rewrite app_assoc. apply IH.
    intros q. unfold expected_state. cbn [existsb]. rewrite !orb_false_r.
    rewrite existsb_app, last_with_app. cbn [existsb]. rewrite orb_false_r.
    destruct (String.eqb (entry_path e) q) eqn:E.
    + apply String.eqb_eq in E. subst q. rewrite dict_get_set_same, orb_true_r.
      reflexivity.
    + apply String.eqb_neq in E.
      rewrite dict_get_set_other by congruence.
      rewrite orb_false_r, Inv. unfold expected_state. cbn [existsb].
      now rewrite !orb_false_r.
Qed.

Lemma staged_loop (entries : list IndexEntry) (staged : list Diff) :
  forall (done : list Diff) (states : dict WbGitFileState),
    (forall p, dict_get p states = expected_state entries done [] [] p) ->
    forall p,
      dict_get p (fold_left
                    (fun s diff => touch_state (b_path diff) (_addStaged diff) s)
                    staged states)
      = expected_state entries (done ++ staged) [] [] p.
Proof.
  induction staged as [|d rest IH]; intros done states Inv p; cbn [fold_left].
  - now rewrite app_nil_r.
  - change (d :: rest) with ([d] ++ rest). rewrite app_assoc. apply IH.
    intros q. rewrite touch_state_get. unfold expected_state.
    cbn [existsb]. rewrite !orb_false_r.
    rewrite existsb_app, last_with_app. cbn [existsb]. rewrite orb_false_r.
    destruct (String.eqb (b_path d) q) eqn:E.
    + apply String.eqb_eq in E. subst q. rewrite orb_true_r, orb_true_r.
      rewrite Inv. unfold expected_state. cbn [existsb]. rewrite !orb_false_r.
      destruct (existsb (fun e => String.eqb (entry_path e) (b_path d)) entries) eqn:Ee;
        destruct (existsb (fun d0 => String.eqb (b_path d0) (b_path d)) done) eqn:Ed;
        cbn [orb]; try reflexivity.
      now rewrite (last_with_none entry_path _ _ Ee).
    + rewrite orb_false_r, Inv. unfold expected_state. cbn [existsb].
      now rewrite !orb_false_r.
Qed.

Lemma unstaged_loop (entries : list IndexEntry) (staged unstaged : list Diff) :
  forall (done : list Diff) (states : dict WbGitFileState),
    (forall p, dict_get p states = expected_state entries staged done [] p) ->
    forall p,
      dict_get p (fold_left
                    (fun s diff => touch_state (a_path diff) (_addUnstaged diff) s)
                    unstaged states)
      = expected_state entries staged (done ++ unstaged) [] p.
Proof.
  induction unstaged as [|d rest IH]; intros done states Inv p; cbn [fold_left].
  - now rewrite app_nil_r.
  - change (d :: rest) with ([d] ++ rest). rewrite app_assoc. apply IH.
    intros q. rewrite touch_state_get. unfold expected_state.
    cbn [existsb]. rewrite !orb_false_r.
    rewrite existsb_app, last_with_app. cbn [existsb]. rewrite orb_false_r.
    destruct (String.eqb (a_path d) q) eqn:E.
    + apply String.eqb_eq in E. subst q. rewrite !orb_true_r.
      rewrite Inv. unfold expected_state. cbn [existsb]. rewrite !orb_false_r.
      destruct (existsb (fun e => String.eqb (entry_path e) (a_path d)) entries) eqn:Ee;
        destruct (existsb (fun d0 => String.eqb (b_path d0) (a_path d)) staged) eqn:Es;
        destruct (existsb (fun d0 => String.eqb (a_path d0) (a_path d)) done) eqn:Ed;
        cbn [orb]; try reflexivity.
      now rewrite (last_with_none entry_path _ _ Ee), (last_with_none b_path _ _ Es).
    + rewrite orb_false_r, Inv. unfold expected_state. cbn [existsb].
      now rewrite !orb_false_r.
Qed.

Lemma untracked_loop (entries : list IndexEntry) (staged unstaged : list Diff)
    (untracked_paths : list string) :
  forall (done : list string) (states : dict WbGitFileState),
    (forall p, dict_get p states = expected_state entries staged unstaged done p) ->
    forall p,
      dict_get p (fold_left (fun s path => touch_state path _setUntracked s)
                    untracked_paths states)
      = expected_state entries staged unstaged (done ++ untracked_paths) p.
Proof.
  induction untracked_paths as [|u rest IH]; intros done states Inv p; cbn [fold_left].
  - now rewrite app_nil_r.
  - change (u :: rest) with ([u] ++ rest). rewrite app_assoc. apply IH.
    intros q. rewrite touch_state_get. unfold expected_state.
    rewrite existsb_app. cbn [existsb]. rewrite orb_false_r.
    destruct (String.eqb u q) eqn:E.
    + apply String.eqb_eq in E. subst q. rewrite !orb_true_r.
      rewrite Inv. unfold expected_state.
      destruct (existsb (fun e => String.eqb (entry_path e) u) entries) eqn:Ee;
        destruct (existsb (fun d0 => String.eqb (b_path d0) u) staged) eqn:Es;
        destruct (existsb (fun d0 => String.eqb (a_path d0) u) unstaged) eqn:Eu;
        destruct (existsb (fun p0 => String.eqb p0 u) done) eqn:Ed;
        cbn [orb]; try reflexivity.
      now rewrite (last_with_none entry_path _ _ Ee), (last_with_none b_path _ _ Es),
        (last_with_none a_path _ _ Eu).
    + rewrite orb_false_r, Inv. reflexivity.
Qed.

(** What [__calculateStatus] leaves under every path. *)
Lemma status_of_repo_get (r : Repo) (path : string) :
  dict_get path (status_of_repo r)
  = expected_state (index_entries r) (head_vs_index r) (index_vs_working r)
      (untracked_files r) path.
Proof.
  unfold status_of_repo.
  apply (untracked_loop _ _ _ _ []).
  apply (unstaged_loop _ _ _ []).
  apply (staged_loop _ _ []).
  apply (entries_loop _ []).
  reflexivity.
Qed.

Lemma existsb_key_In {X : Type} (key : X -> string) (path : string) (xs : list X) :
  existsb (fun x => String.eqb (key x) path) xs = true
  <-> exists x, In x xs /\ key x = path.
Proof.
  rewrite existsb_exists. split; intros (x & H1 & H2); exists x; split; auto.
  - now apply String.eqb_eq.
  - now apply String.eqb_eq.
Qed.

Lemma dict_set_keys_NoDup {V : Type} (d : dict V) (k : string) (v : V) :
  NoDup (dict_keys d) -> NoDup (dict_keys (dict_set k v d)).
Proof.
  induction d as [|[k' v'] d IH]; cbn; intros Hnd.
  - constructor; [intros [] | constructor].
  - inversion Hnd as [|? ? Hnot Hnd']; subst.
    destruct (String.eqb k k') eqn:E; cbn.
    + constructor; assumption.
    + constructor; [|now apply IH].
      intros Hin. apply (dict_keys_set k' k v d) in Hin.
      destruct Hin as [->|Hin]; [|contradiction].
      now rewrite String.eqb_refl in E.
Qed.

Lemma In_dict_get_any {V : Type} (d : dict V) (k : string) (v : V) :
  NoDup (dict_keys d) -> In (k, v) d -> dict_get k d = Some v.
Proof.
  induction d as [|[k' v'] d IH]; cbn; [intros _ []|].
  intros Hnd [H|H].
  - injection H as -> ->. now rewrite String.eqb_refl.
  - inversion Hnd as [|? ? Hnot Hnd']; subst.
    destruct (String.eqb k k') eqn:E.
    + apply String.eqb_eq in E. subst k'. exfalso. apply Hnot.
      change (In (fst (k, v)) (map fst d)). now apply in_map.
    + now apply IH.
Qed.

Lemma touch_state_NoDup (path : string) (f : WbGitFileState -> WbGitFileState)
    (states : dict WbGitFileState) :
  NoDup (dict_keys states) -> NoDup (dict_keys (touch_state path f states)).
Proof.
  unfold touch_state. destruct (dict_get path states); apply dict_set_keys_NoDup.
Qed.

Lemma fold_left_NoDup {X : Type} (step : dict WbGitFileState -> X -> dict WbGitFileState)
    (xs : list X) :
  (forall s x, NoDup (dict_keys s) -> NoDup (dict_keys (step s x))) ->
  forall s, NoDup (dict_keys s) -> NoDup (dict_keys (fold_left step xs s)).
Proof.
  intros Hstep. induction xs as [|x xs IH]; intros s Hs; cbn; [exact Hs|].
  apply IH, Hstep, Hs.
Qed.

Lemma status_of_repo_NoDup (r : Repo) : NoDup (dict_keys (status_of_repo r)).
Proof.
  unfold status_of_repo.
  repeat (apply fold_left_NoDup;
          [intros; first [now apply touch_state_NoDup | now apply dict_set_keys_NoDup]|]).
  constructor.
Qed.

Section OnProject.
Variable PurePath : Type.
Variable T_ : string -> string.

(** X6: after [__calculateStatus] the status map has a key exactly for the
    paths the library reported: the path of an index entry, the [b_path] of
    a staged diff, the [a_path] of an unstaged diff, or an untracked file;
    no key twice. *)
Theorem status_map_keys :
  forall (self : GitProject PurePath) (path : string),
    (dict_mem path (all_file_state _ (calculateStatus _ self)) = true
     <-> (exists e, In e (index_entries (repo _ self)) /\ entry_path e = path)
         \/ (exists d, In d (head_vs_index (repo _ self)) /\ b_path d = path)
         \/ (exists d, In d (index_vs_working (repo _ self)) /\ a_path d = path)
         \/ In path (untracked_files (repo _ self)))
    /\ numStagedFiles _ (calculateStatus _ self)
       = List.length (head_vs_index (repo _ self)).
Proof.
  intros self path. split; [|reflexivity].
  cbn [calculateStatus all_file_state]. unfold dict_mem.
  rewrite status_of_repo_get. unfold expected_state.
  rewrite <- !existsb_key_In.
  assert (Hu : existsb (fun p => String.eqb p path) (untracked_files (repo _ self)) = true
               <-> In path (untracked_files (repo _ self))).
  { rewrite (existsb_key_In (fun p => p)). split.
    - intros (x & H & ->). exact H.
    - intros H. eauto. }
  rewrite <- Hu.
  destruct (existsb _ (index_entries _)), (existsb _ (head_vs_index _)),
    (existsb _ (index_vs_working _)), (existsb _ (untracked_files _)); cbn;
    intuition discriminate.
Qed.

(** X7: every file state [__calculateStatus] stores has not been calculated
    yet (so it is one of the states the classification properties are about);
    it holds the last index entry with its path, the last staged diff with
    that [b_path], the last unstaged diff with that [a_path], and is marked
    untracked exactly when the path is an untracked file. *)
Theorem status_map_states :
  forall (self : GitProject PurePath) (path : string) (fs : WbGitFileState),
    dict_get path (all_file_state _ (calculateStatus _ self)) = Some fs ->
    pristine fs
    /\ reachable fs
    /\ index_entry fs = last_with entry_path path (index_entries (repo _ self))
    /\ staged_diff fs = last_with b_path path (head_vs_index (repo _ self))
    /\ unstaged_diff fs = last_with a_path path (index_vs_working (repo _ self))
    /\ (isUntracked fs = true <-> In path (untracked_files (repo _ self)))
    /\ (forall e, index_entry fs = Some e -> entry_path e = path)
    /\ (forall d, staged_diff fs = Some d ->
                  In d (head_vs_index (repo _ self)) /\ b_path d = path)
    /\ (forall d, unstaged_diff fs = Some d ->
                  In d (index_vs_working (repo _ self)) /\ a_path d = path).
Proof.
  intros self path fs H.
  cbn [calculateStatus all_file_state] in H.
  rewrite status_of_repo_get in H. unfold expected_state in H.
  destruct (_ || _ || _ || _); [|discriminate]. injection H as <-.
  assert (P : pristine (mkFileState
                          (last_with entry_path path (index_entries (repo _ self)))
                          (last_with a_path path (index_vs_working (repo _ self)))
                          (last_with b_path path (head_vs_index (repo _ self)))
                          (existsb (fun p => String.eqb p path)
                             (untracked_files (repo _ self)))
                          false false false None None None None))
    by (repeat split).
  split; [exact P|]. split; [now apply pristine_reachable|].
  cbn [index_entry staged_diff unstaged_diff isUntracked untracked].
  split; [reflexivity|]. split; [reflexivity|]. split; [reflexivity|].
  split; [|split; [|split]].
  - rewrite (existsb_key_In (fun p => p)). split.
    + intros (x & Hx & ->). exact Hx.
    + intros Hx. eauto.
  - intros e He. now apply last_with_some in He.
  - intros d Hd. now apply last_with_some in Hd.
  - intros d Hd. now apply last_with_some in Hd.
Qed.

Lemma reportItems_spec
    (item : string -> WbGitFileState -> list (string * string) * WbGitFileState)
    (items : dict WbGitFileState) :
  reportItems item items
  = (flat_map (fun x => fst (item (fst x) (snd x))) items,
     map (fun x => (fst x, snd (item (fst x) (snd x)))) items).
Proof.
  induction items as [|[filename fs] rest IH]; [reflexivity|].
  cbn [reportItems flat_map map fst snd]. rewrite IH.
  destruct (item filename fs) as [rows fs']. reflexivity.
Qed.

Lemma getReportStagedFiles_eq (self : GitProject PurePath) :
  getReportStagedFiles _ T_ self
  = (flat_map (fun x => fst (reportStagedItem T_ (fst x) (snd x)))
       (all_file_state _ self),
     set_all_file_state _
       (map (fun x => (fst x, snd (reportStagedItem T_ (fst x) (snd x))))
          (all_file_state _ self)) self).
Proof. unfold getReportStagedFiles. now rewrite reportItems_spec. Qed.

Lemma getReportUntrackedFiles_eq (self : GitProject PurePath) :
  getReportUntrackedFiles _ T_ self
  = (flat_map (fun x => fst (reportUntrackedItem T_ (fst x) (snd x)))
       (all_file_state _ self),
     set_all_file_state _
       (map (fun x => (fst x, snd (reportUntrackedItem T_ (fst x) (snd x))))
          (all_file_state _ self)) self).
Proof. unfold getReportUntrackedFiles. now rewrite reportItems_spec. Qed.

Lemma all_file_state_set (a : dict WbGitFileState) (self : GitProject PurePath) :
  all_file_state _ (set_all_file_state _ a self) = a.
Proof. reflexivity. Qed.

Lemma set_all_file_state_twice (a b : dict WbGitFileState) (self : GitProject PurePath) :
  set_all_file_state _ a (set_all_file_state _ b self) = set_all_file_state _ a self.
Proof. reflexivity. Qed.

Lemma calculateState_twice (fs : WbGitFileState) :
  calculateState (calculateState fs) = calculateState fs.
Proof. apply calculateState_cached, calculateState_calculated. Qed.

Lemma reportStagedItem_spec (filename : string) (fs : WbGitFileState) :
  reportStagedItem T_ filename fs
  = (match staged_abbrev (calculateState fs) with
     | Some code =>
         match staged_report_label code with
         | Some label => [(T_ label, filename)]
         | None => []
         end
     | None => []
     end, calculateState fs).
Proof.
  unfold reportStagedItem, isStagedNew, isStagedModified, isStagedDeleted.
  rewrite !calculateState_twice. unfold abbrev_is, staged_report_label.
  destruct (staged_abbrev (calculateState fs)) as [code|]; [|reflexivity].
  destruct (String.eqb code "A"); [reflexivity|].
  destruct (String.eqb code "M"); [reflexivity|].
  destruct (String.eqb code "D"); reflexivity.
Qed.

Lemma reportUntrackedItem_spec (filename : string) (fs : WbGitFileState) :
  reportUntrackedItem T_ filename fs
  = if untracked fs then ([(T_ "New file", filename)], fs)
    else (match unstaged_abbrev (calculateState fs) with
          | Some code =>
              match untracked_report_label false code with
              | Some label => [(T_ label, filename)]
              | None => []
              end
          | None => []
          end, calculateState fs).
Proof.
  unfold reportUntrackedItem, isUntracked, isUnstagedModified, isUnstagedDeleted.
  destruct (untracked fs); [reflexivity|].
  rewrite !calculateState_twice. unfold abbrev_is, untracked_report_label.
  destruct (unstaged_abbrev (calculateState fs)) as [code|]; [|reflexivity].
  destruct (String.eqb code "M"); [reflexivity|].
  destruct (String.eqb code "D"); reflexivity.
Qed.

Lemma flat_map_ext_in {X Y : Type} (f g : X -> list Y) (l : list X) :
  (forall x, In x l -> f x = g x) -> flat_map f l = flat_map g l.
Proof.
  induction l as [|x l IH]; intros H; [reflexivity|].
  cbn. rewrite (H x (or_introl eq_refl)), IH; [reflexivity|].
  intros y Hy. apply H. now right.
Qed.

Lemma status_of_repo_state (r : Repo) (path : string) (fs : WbGitFileState) :
  In (path, fs) (status_of_repo r) ->
  pristine fs
  /\ (forall d, staged_diff fs = Some d -> In d (head_vs_index r) /\ b_path d = path).
Proof.
  intros Hin.
  apply In_dict_get_any in Hin; [|apply status_of_repo_NoDup].
  rewrite status_of_repo_get in Hin. unfold expected_state in Hin.
  destruct (_ || _ || _ || _); [|discriminate]. injection Hin as <-.
  split; [repeat split|].
  cbn [staged_diff]. intros d Hd. now apply last_with_some in Hd.
Qed.

Lemma calculateStatus_states_reachable (self : GitProject PurePath) :
  states_reachable (all_file_state _ (calculateStatus _ self)).
Proof.
  intros path fs Hin. apply pristine_reachable.
  now apply (status_of_repo_state (repo _ self) path fs).
Qed.

Lemma getReportStagedFiles_rows_eq (self : GitProject PurePath) :
  states_reachable (all_file_state _ self) ->
  fst (getReportStagedFiles _ T_ self)
  = flat_map (staged_rows T_) (all_file_state _ self).
Proof.
  intros Hr. rewrite getReportStagedFiles_eq. cbn [fst].
  apply flat_map_ext_in. intros [filename fs] Hin. cbn [fst snd].
  rewrite reportStagedItem_spec. cbn [fst]. unfold staged_rows. cbn [fst snd].
  destruct (calculateState_codes fs (Hr _ _ Hin)) as [-> _]. reflexivity.
Qed.

(** X12: when the file states of the map were made by the class's methods,
    [getReportStagedFiles] lists, in the order of the map, one row for every
    file whose staged code is A ('New file'), M ('Modified') or D
    ('Deleted'), labels translated by [T_], and nothing for the others: a
    staged rename has no row.  It changes nothing of the project but the
    caches of the file states. *)
Theorem getReportStagedFiles_rows :
  forall (self : GitProject PurePath),
    states_reachable (all_file_state _ self) ->
    fst (getReportStagedFiles _ T_ self)
    = flat_map (staged_rows T_) (all_file_state _ self)
    /\ snd (getReportStagedFiles _ T_ self)
       = set_all_file_state _
           (map (fun '(filename, fs) => (filename, calculateState fs))
              (all_file_state _ self)) self
    /\ (forall filename fs,
          In (filename, fs) (all_file_state _ self) ->
          staged_code (staged_diff fs) = "R" \/ staged_code (staged_diff fs) = "" ->
          staged_rows T_ (filename, fs) = []).
Proof.
  intros self Hr. rewrite getReportStagedFiles_eq. cbn [fst snd]. split; [|split].
  - apply flat_map_ext_in. intros [filename fs] Hin. cbn [fst snd].
    rewrite reportStagedItem_spec. cbn [fst]. unfold staged_rows. cbn [fst snd].
    destruct (calculateState_codes fs (Hr _ _ Hin)) as [-> _]. reflexivity.
  - f_equal. apply map_ext. intros [filename fs]. cbn [fst snd].
    now rewrite reportStagedItem_spec.
  - intros filename fs _ [H|H]; unfold staged_rows; cbn [snd]; now rewrite H.
Qed.

(** X13: under the same condition [getReportUntrackedFiles] lists one row
    for every untracked file ('New file', whatever its unstaged diff), and
    for the other files one row when the unstaged code is M ('Modified') or
    D ('Deleted'); an untracked file's state is not calculated by it. *)
Theorem getReportUntrackedFiles_rows :
  forall (self : GitProject PurePath),
    states_reachable (all_file_state _ self) ->
    fst (getReportUntrackedFiles _ T_ self)
    = flat_map (untracked_rows T_) (all_file_state _ self)
    /\ snd (getReportUntrackedFiles _ T_ self)
       = set_all_file_state _
           (map (fun '(filename, fs) =>
                   (filename, if untracked fs then fs else calculateState fs))
              (all_file_state _ self)) self
    /\ (forall filename fs,
          In (filename, fs) (all_file_state _ self) ->
          untracked fs = true ->
          untracked_rows T_ (filename, fs) = [(T_ "New file", filename)]).
Proof.
  intros self Hr. rewrite getReportUntrackedFiles_eq. cbn [fst snd]. split; [|split].
  - apply flat_map_ext_in. intros [filename fs] Hin. cbn [fst snd].
    rewrite reportUntrackedItem_spec. unfold untracked_rows. cbn [fst snd].
    destruct (untracked fs); [reflexivity|]. cbn [fst].
    destruct (calculateState_codes fs (Hr _ _ Hin)) as [_ ->]. reflexivity.
  - f_equal. apply map_ext. intros [filename fs]. cbn [fst snd].
    rewrite reportUntrackedItem_spec. now destruct (untracked fs).
  - intros filename fs _ H. unfold untracked_rows. cbn [fst snd]. now rewrite H.
Qed.

Lemma calculateState_untracked (fs : WbGitFileState) :
  untracked (calculateState fs) = untracked fs.
Proof.
  pose proof (calculateState_setUntracked fs) as H.
  unfold calculateState. destruct (state_calculated fs); [reflexivity|].
  cbn [untracked].
  destruct (calculateUnstaged_abbrev (calculateStaged fs)) as (_ & _ & _ & _ & _ & ->).
  now destruct (calculateStaged_abbrev fs) as (_ & _ & _ & _ & ->).
Qed.

(** X14: the reports can be repeated and do not disturb each other: a
    second [getReportStagedFiles] gives the same rows and leaves the project
    as the first did, likewise [getReportUntrackedFiles], and either report
    gives the same rows whether or not the other ran before it. *)
Theorem reports_repeatable :
  forall (self : GitProject PurePath),
    getReportStagedFiles _ T_ (snd (getReportStagedFiles _ T_ self))
    = getReportStagedFiles _ T_ self
    /\ getReportUntrackedFiles _ T_ (snd (getReportUntrackedFiles _ T_ self))
       = getReportUntrackedFiles _ T_ self
    /\ fst (getReportUntrackedFiles _ T_ (snd (getReportStagedFiles _ T_ self)))
       = fst (getReportUntrackedFiles _ T_ self)
    /\ fst (getReportStagedFiles _ T_ (snd (getReportUntrackedFiles _ T_ self)))
       = fst (getReportStagedFiles _ T_ self).
Proof.
  intros self.
  assert (Sst : forall fs filename,
             snd (reportStagedItem T_ filename fs) = calculateState fs)
    by (intros; now rewrite reportStagedItem_spec).
  assert (Sun : forall fs filename,
             snd (reportUntrackedItem T_ filename fs)
             = if untracked fs then fs else calculateState fs)
    by (intros fs filename; rewrite reportUntrackedItem_spec; now destruct (untracked fs)).
  assert (Fst : forall fs filename,
             fst (reportStagedItem T_ filename (calculateState fs))
             = fst (reportStagedItem T_ filename fs))
    by (intros; rewrite !reportStagedItem_spec; cbn [fst];
        now rewrite calculateState_twice).
  assert (Fun : forall fs filename,
             fst (reportUntrackedItem T_ filename (calculateState fs))
             = fst (reportUntrackedItem T_ filename fs)).
  { intros fs filename. rewrite !reportUntrackedItem_spec.
    rewrite calculateState_untracked. destruct (untracked fs); [reflexivity|].
    cbn [fst]. now rewrite calculateState_twice. }
  rewrite !getReportStagedFiles_eq, !getReportUntrackedFiles_eq.
  cbn [fst snd]. rewrite !all_file_state_set, !set_all_file_state_twice.
  rewrite !flat_map_concat_map, !map_map. cbn [fst snd].
  split; [|split; [|split]].
  - f_equal.
    + f_equal. apply map_ext. intros [filename fs]. cbn [fst snd].
      now rewrite Sst, Fst.
    + f_equal. apply map_ext. intros [filename fs]. cbn [fst snd].
      now rewrite !Sst, calculateState_twice.
  - f_equal.
    + f_equal. apply map_ext. intros [filename fs]. cbn [fst snd].
      rewrite Sun. destruct (untracked fs); [reflexivity | apply Fun].
    + f_equal. apply map_ext. intros [filename fs]. cbn [fst snd].
      rewrite !Sun. destruct (untracked fs) eqn:E; [now rewrite E|].
      now rewrite calculateState_untracked, E, calculateState_twice.
  - f_equal. apply map_ext. intros [filename fs]. cbn [fst snd].
    now rewrite Sst, Fun.
  - f_equal. apply map_ext. intros [filename fs]. cbn [fst snd].
    rewrite Sun. destruct (untracked fs); [reflexivity | apply Fst].
Qed.

End OnProject.

End StatusMapFacts.

Section StatusMapExamples.
Import FileState Project Examples.

Lemma status_map_states_witness :
  exists fs,
    dict_get "src/a.py" (all_file_state _ (calculateStatus string demo_project)) = Some fs
    /\ pristine fs
    /\ staged_diff fs = Some staged_new_diff.
Proof.
  eexists. split; [reflexivity|].
  destruct (status_map_states string demo_project "src/a.py" _ eq_refl)
    as (P & _ & _ & S & _).
  split; [exact P | exact S].
Defined.

Lemma getReportStagedFiles_rows_witness :
  states_reachable (all_file_state _ (calculateStatus string demo_project))
  /\ fst (getReportStagedFiles string (fun s => s) (calculateStatus string demo_project))
     = [("New file", "src/a.py")].
Proof.
  pose proof (calculateStatus_states_reachable string demo_project) as R.
  split; [exact R|].
  rewrite (proj1 (getReportStagedFiles_rows string (fun s => s) _ R)). reflexivity.
Defined.

Lemma getReportUntrackedFiles_rows_witness :
  states_reachable (all_file_state _ (calculateStatus string demo_project))
  /\ fst (getReportUntrackedFiles string (fun s => s) (calculateStatus string demo_project))
     = [("New file", "doc/x/notes.txt")].
Proof.
  pose proof (calculateStatus_states_reachable string demo_project) as R.
  split; [exact R|].
  rewrite (proj1 (getReportUntrackedFiles_rows string (fun s => s) _ R)). reflexivity.
Defined.

End StatusMapExamples.

(** ** The project tree: what it holds comes from the status map *)

Section TreeMore.
Import FileState Project.

Variable PurePath : Type.
Variable pathlib_Path : string -> PurePath.
Variable path_str : PurePath -> string.

#[local, warnings="-notation-for-abbreviation"]
Notation Node := (GitProjectTreeNode PurePath).
#[local, warnings="-notation-for-abbreviation"]
Notation insertFile := (insertFile pathlib_Path).

Lemma descend_new (name : string) (p : PurePath) (loc : list string) (nd : Node) :
  descend loc (newGitProjectTreeNode _ name p) = Some nd ->
  loc = [] /\ nd = newGitProjectTreeNode _ name p.
Proof.
  destruct loc as [|c l]; cbn; [|discriminate].
  intros H. injection H as <-. auto.
Qed.

(** Where a node of the tree after [insertFile] comes from: it was there
    before, or it is one of the folders made on the way to the file. *)
Lemma insertFile_descend_inv (path fname : string) :
  forall dirs prefix (node : Node) loc nd',
    descend loc (insertFile path fname prefix dirs node) = Some nd' ->
    (exists nd,
        descend loc node = Some nd
        /\ node_name _ nd' = node_name _ nd
        /\ ((loc <> dirs /\ all_files _ nd' = all_files _ nd)
            \/ (loc = dirs
                /\ all_files _ nd' = dict_set fname path (all_files _ nd))))
    \/ (descend loc node = None
        /\ loc <> []
        /\ node_name _ nd' = last loc ""
        /\ exists rest,
             dirs = loc ++ rest
             /\ all_files _ nd' = match rest with
                                  | [] => [(fname, path)]
                                  | _ :: _ => []
                                  end).
Proof.
  induction dirs as [|d rest IH]; intros prefix node loc nd' H.
  - left. destruct loc as [|c l].
    + injection H as <-. exists node. split; [reflexivity|]. cbn. auto.
    + exists nd'. split; [exact H|]. split; [reflexivity|].
      left. split; [discriminate | reflexivity].
  - destruct loc as [|c l].
    + left. injection H as <-. exists node. split; [reflexivity|]. cbn.
      split; [reflexivity|]. left. split; [discriminate | reflexivity].
    + cbn [Project.insertFile descend all_folders] in H.
      destruct (string_dec c d) as [->|Hne].
      * rewrite dict_get_set_same in H. cbn [descend].
        destruct (dict_get d (all_folders _ node)) as [child|] eqn:Ec.
        -- destruct (IH _ _ _ _ H) as [(nd & H1 & H2 & H3)|(H1 & H2 & H3 & r & H4 & H5)].
           ++ left. exists nd. split; [exact H1|]. split; [exact H2|].
              destruct H3 as [[H3 H3']|[H3 H3']]; [left | right];
                (split; [congruence | exact H3']).
           ++ right. split; [exact H1|]. split; [discriminate|].
              split; [destruct l; [contradiction | exact H3]|].
              exists r. split; [cbn; now rewrite H4 | exact H5].
        -- right. split; [reflexivity|]. split; [discriminate|].
           destruct (IH _ _ _ _ H) as [(nd & H1 & H2 & H3)|(H1 & H2 & H3 & r & H4 & H5)].
           ++ apply descend_new in H1. destruct H1 as [-> ->].
              split; [exact H2|]. exists rest. split; [reflexivity|].
              destruct H3 as [[H3 H3']|[H3 H3']].
              ** destruct rest; [contradiction | exact H3'].
              ** subst rest. exact H3'.
           ++ split; [destruct l; [contradiction | exact H3]|].
              exists r. split; [cbn; now rewrite H4 | exact H5].
      * rewrite (dict_get_set_other _ _ _ _ Hne) in H. left.
        exists nd'. split; [exact H|]. split; [reflexivity|].
        left. split; [congruence | reflexivity].
Qed.

Lemma updateTree_files_from (P : string -> Prop) (path : string) (t : Node) :
  files_from P t ->
  files_from (fun p => P p \/ p = path) (updateTree _ pathlib_Path path t).
Proof.
  intros Hok loc nd' name p Hd Hf. rewrite updateTree_insertFile in Hd.
  pose proof (app_removelast_last "" (split_nonempty "/" path)) as Hsplit.
  destruct (insertFile_descend_inv _ _ _ _ _ _ _ Hd)
    as [(nd & H1 & _ & H3)|(_ & _ & _ & r & H4 & H5)].
  - destruct H3 as [[_ H3]|[H3 H3']].
    + rewrite H3 in Hf. destruct (Hok _ _ _ _ H1 Hf) as [Hp Hs]. auto.
    + rewrite H3' in Hf.
      destruct (string_dec name (last (split "/" path) "")) as [->|Hne].
      * rewrite dict_get_set_same in Hf. injection Hf as <-.
        split; [now right|]. now rewrite H3.
      * rewrite (dict_get_set_other _ _ _ _ Hne) in Hf.
        destruct (Hok _ _ _ _ H1 Hf) as [Hp Hs]. auto.
  - rewrite H5 in Hf. destruct r as [|r0 r']; [|discriminate].
    cbn in Hf. destruct (String.eqb name (last (split "/" path) "")) eqn:E;
      [|discriminate].
    apply String.eqb_eq in E. injection Hf as <-. subst name.
    split; [now right|]. rewrite app_nil_r in H4. now rewrite <- H4.
Qed.

Lemma updateTree_names_follow (path : string) (t : Node) :
  names_follow t -> names_follow (updateTree _ pathlib_Path path t).
Proof.
  intros Hok loc nd' Hne Hd. rewrite updateTree_insertFile in Hd.
  destruct (insertFile_descend_inv _ _ _ _ _ _ _ Hd)
    as [(nd & H1 & H2 & _)|(_ & _ & H3 & _)].
  - rewrite H2. now apply Hok.
  - exact H3.
Qed.

Lemma fold_updateTree_more (paths : list string) :
  forall (P : string -> Prop) (t : Node),
    files_from P t -> names_follow t ->
    let t' := fold_left (fun t path => updateTree _ pathlib_Path path t) paths t in
    files_from (fun p => P p \/ In p paths) t'
    /\ names_follow t'
    /\ node_name _ t' = node_name _ t.
Proof.
  induction paths as [|p paths IH]; intros P t Hf Hn; cbn [fold_left].
  - split; [|split; [exact Hn | reflexivity]].
    intros loc nd name path Hd Hg. destruct (Hf _ _ _ _ Hd Hg). auto.
  - destruct (IH _ _ (updateTree_files_from P p t Hf) (updateTree_names_follow p t Hn))
      as (H1 & H2 & H3).
    split; [|split; [exact H2|]].
    + intros loc nd name path Hd Hg. destruct (H1 _ _ _ _ Hd Hg) as [Hp Hs].
      split; [|exact Hs]. cbn [In]. destruct Hp as [[Hp|Hp]|Hp]; auto.
    + rewrite H3, updateTree_insertFile. apply insertFile_root.
Qed.

(** X15: after [updateState] every file entry of the tree, at any node,
    names a path of the status map, and sits where the components of that
    path lead ([split] of the path is the folder names to the node and then
    the file name); so [getStatusEntry] never falls back to a fresh state
    there: it returns what [getFileState] returns for the path. *)
Theorem tree_files_have_status :
  forall (self : GitProject PurePath),
    dirty_index _ self = false ->
    exists self',
      updateState _ pathlib_Path self = (Normal tt, self')
      /\ forall loc nd name path,
           descend loc (tree _ self') = Some nd ->
           dict_get name (all_files _ nd) = Some path ->
           dict_mem path (all_file_state _ self') = true
           /\ split "/" path = loc ++ [name]
           /\ (exists fs, getStatusEntry _ self' name nd = Normal fs
                          /\ dict_get path (all_file_state _ self') = Some fs)
           /\ (forall filename, path_str filename = path ->
                  getStatusEntry _ self' name nd
                  = getFileState _ path_str filename self').
Proof.
  intros self Hd.
  destruct (updateState_normal _ pathlib_Path self Hd)
    as (self' & E & _ & _ & _ & _ & Ha & _ & Ht).
  exists self'. split; [exact E|].
  destruct (fold_updateTree_more (dict_keys (status_of_repo (repo _ self)))
              (fun _ => False)
              (newGitProjectTreeNode _ (prefs_name _ self) (pathlib_Path ".")))
    as (Hf & _ & _).
  { intros loc nd name path Hl Hg. apply descend_new in Hl.
    destruct Hl as [_ ->]. discriminate. }
  { intros loc nd Hne Hl. apply descend_new in Hl. destruct Hl as [-> _].
    contradiction. }
  rewrite <- Ht in Hf.
  intros loc nd name path Hl Hg.
  destruct (Hf _ _ _ _ Hl Hg) as [[[]|Hin] Hs].
  rewrite <- Ha in Hin. apply dict_mem_In_keys in Hin.
  split; [exact Hin|]. split; [exact Hs|].
  unfold Project.getStatusEntry, Project.getFileState, dict_index.
  rewrite Hg. cbn [bind]. rewrite Hin.
  unfold dict_mem in Hin.
  destruct (dict_get path (all_file_state _ self')) as [fs|] eqn:Eg; [|discriminate].
  split; [eauto|]. intros filename ->. now rewrite Eg.
Qed.

(** X16: after [updateState] the root of the tree is named by the project
    and every node below it by the last of the folder names that lead to it,
    which is also its key in its parent's [all_folders]. *)
Theorem tree_node_names :
  forall (self : GitProject PurePath),
    dirty_index _ self = false ->
    exists self',
      updateState _ pathlib_Path self = (Normal tt, self')
      /\ node_name _ (tree _ self') = prefs_name _ self
      /\ (forall loc nd, loc <> [] -> descend loc (tree _ self') = Some nd ->
                         node_name _ nd = last loc "")
      /\ (forall loc nd key child,
            descend loc (tree _ self') = Some nd ->
            dict_get key (all_folders _ nd) = Some child ->
            node_name _ child = key).
Proof.
  intros self Hd.
  destruct (updateState_normal _ pathlib_Path self Hd)
    as (self' & E & _ & _ & _ & _ & _ & _ & Ht).
  exists self'. split; [exact E|].
  destruct (fold_updateTree_more (dict_keys (status_of_repo (repo _ self)))
              (fun _ => False)
              (newGitProjectTreeNode _ (prefs_name _ self) (pathlib_Path ".")))
    as (_ & Hn & Hroot).
  { intros loc nd name path Hl Hg. apply descend_new in Hl.
    destruct Hl as [_ ->]. discriminate. }
  { intros loc nd Hne Hl. apply descend_new in Hl. destruct Hl as [-> _].
    contradiction. }
  rewrite <- Ht in Hn, Hroot.
  split; [exact Hroot|]. split; [exact Hn|].
  intros loc nd key child Hl Hc.
  assert (Hd' : descend (loc ++ [key]) (tree _ self') = Some child).
  { clear - Hl Hc. revert Hl. generalize (tree _ self') as t.
    induction loc as [|c l IH]; intros t Hl; cbn in *.
    - injection Hl as ->. now rewrite Hc.
    - destruct (dict_get c (all_folders _ t)); [now apply IH | discriminate]. }
  assert (Hne : loc ++ [key] <> []) by (destruct loc; discriminate).
  rewrite (Hn _ _ Hne Hd'). apply last_last.
Qed.

End TreeMore.

Section TreeExamples.
Import FileState Project Examples.

Lemma tree_files_have_status_witness :
  dirty_index _ demo_project = false
  /\ exists self',
       updateState string demo_Path demo_project
       = (Normal tt, self')
       /\ exists nd,
            descend ["src"] (tree _ self') = Some nd
            /\ dict_get "a.py" (all_files _ nd) = Some "src/a.py"
            /\ dict_mem "src/a.py" (all_file_state _ self') = true.
Proof.
  split; [reflexivity|].
  destruct (tree_files_have_status string demo_Path (fun s => s) demo_project eq_refl)
    as (self' & E & H).
  exists self'. split; [exact E|].
  assert (Hnd : exists nd,
             descend ["src"] (tree _ self') = Some nd
             /\ dict_get "a.py" (all_files _ nd) = Some "src/a.py").
  { injection E as <-. eexists. split; reflexivity. }
  destruct Hnd as (nd & H1 & H2). exists nd. split; [exact H1|]. split; [exact H2|].
  exact (proj1 (H _ _ _ _ H1 H2)).
Defined.

Lemma tree_node_names_witness :
  dirty_index _ demo_project = false
  /\ exists self',
       updateState string demo_Path demo_project = (Normal tt, self')
       /\ node_name _ (tree _ self') = "demo"
       /\ exists nd, descend ["doc"; "x"] (tree _ self') = Some nd
                     /\ node_name _ nd = "x".
Proof.
  split; [reflexivity|].
  destruct (tree_node_names string demo_Path demo_project eq_refl)
    as (self' & E & Hroot & Hn & _).
  exists self'. split; [exact E|]. split; [exact Hroot|].
  assert (Hnd : exists nd, descend ["doc"; "x"] (tree _ self') = Some nd).
  { injection E as <-. eexists. reflexivity. }
  destruct Hnd as (nd & H1). exists nd. split; [exact H1|].
  assert (Hne : ["doc"; "x"] <> []) by discriminate.
  apply (Hn _ _ Hne H1).
Defined.

End TreeExamples.

(** ** The project: the flags over any run, and what can be pushed *)

Section ProjectRuns.
Import FileState Project.

Variable PurePath : Type.
Variable pathlib_Path : string -> PurePath.
Variable ext_exec : ExtCall PurePath -> Repo -> outcome string * Repo.
Variable T_ : string -> string.

#[local, warnings="-notation-for-abbreviation"]
Notation GitProject := (GitProject PurePath).

Lemma command_keeps_invariant (c : ExtCall PurePath) (self : GitProject) :
  c <> IndexWrite PurePath ->
  run_invariant self ->
  run_invariant
    (snd (match call_ext _ ext_exec c self with
          | (Normal _, self) => (Normal tt, set_flags _ (dirty_index _ self) true self)
          | (Raise e, self) => (Raise e, self)
          end)).
Proof.
  intros Hc (Hd & Hw & Hs). unfold Project.call_ext.
  destruct (ext_exec c (repo _ self)) as [[a|e] r'];
    cbn [snd set_flags dirty_index ext_calls all_file_state];
    (split; [exact Hd|]); (split; [|exact Hs]);
    intros H; apply in_app_or in H; destruct H as [H|[H|[]]];
    solve [now apply Hw | now apply Hc].
Qed.

Lemma updateState_keeps_invariant (self : GitProject) :
  ~ In (IndexWrite PurePath) (ext_calls _ self) ->
  dirty_index _ self = false ->
  run_invariant (snd (updateState _ pathlib_Path self)).
Proof.
  intros Hw Hd.
  destruct (updateState_normal _ pathlib_Path self Hd)
    as (self' & E & H1 & _ & H3 & _ & H5 & _).
  rewrite E. cbn [snd]. split; [exact H1|]. split; [now rewrite H3|].
  rewrite H5. apply (calculateStatus_states_reachable PurePath self).
Qed.

Lemma run_op_keeps_invariant (op : ProjectOp PurePath) (self : GitProject) :
  run_invariant self -> run_invariant (run_op pathlib_Path ext_exec T_ op self).
Proof.
  intros Hinv. pose proof Hinv as (Hd & Hw & Hs).
  destruct op; cbn [run_op].
  - apply command_keeps_invariant; [discriminate | exact Hinv].
  - apply command_keeps_invariant; [discriminate | exact Hinv].
  - apply command_keeps_invariant; [discriminate | exact Hinv].
  - apply command_keeps_invariant; [discriminate | exact Hinv].
  - unfold Project.cmdCommit. cbn [index set_flags].
    destruct (index _ self); [|cbn; auto].
    unfold Project.call_ext. cbn [repo ext_calls].
    destruct (ext_exec _ _) as [r repo'].
    cbn [snd dirty_index ext_calls all_file_state].
    split; [exact Hd|]. split; [|exact Hs].
    intros H. apply in_app_or in H. destruct H as [H|[H|[]]];
      [now apply Hw | discriminate].
  - unfold Project.saveChanges. rewrite Hd. cbn [orb].
    destruct (stale_index _ self); cbn [negb snd]; [|exact Hinv].
    apply updateState_keeps_invariant; [exact Hw | exact Hd].
  - apply updateState_keeps_invariant; [exact Hw | exact Hd].
  - rewrite (getReportStagedFiles_eq PurePath T_). cbn [snd].
    split; [exact Hd|]. split; [exact Hw|].
    rewrite all_file_state_set. intros path fs Hin.
    apply in_map_iff in Hin. destruct Hin as ([k fs0] & E & Hin).
    cbn [fst snd] in E. injection E as <- <-.
    rewrite (reportStagedItem_spec T_). cbn [snd].
    apply reach_calculateState. eapply Hs; eauto.
  - rewrite (getReportUntrackedFiles_eq PurePath T_). cbn [snd].
    split; [exact Hd|]. split; [exact Hw|].
    rewrite all_file_state_set. intros path fs Hin.
    apply in_map_iff in Hin. destruct Hin as ([k fs0] & E & Hin).
    cbn [fst snd] in E. injection E as <- <-.
    rewrite (reportUntrackedItem_spec T_).
    destruct (untracked fs0); cbn [snd];
      [|apply reach_calculateState]; eapply Hs; eauto.
Qed.

(** X18: whatever methods run on a project, in any order and whether they
    return or raise, the index is never marked dirty: [saveChanges] never
    writes the index, [updateState] never trips its assertion, and every
    file state of the status map is one the class's own methods made, so
    the reports and the classification hold for it. *)
Theorem index_never_dirty :
  forall (self : GitProject),
    project_reachable pathlib_Path ext_exec T_ self ->
    dirty_index _ self = false
    /\ ~ In (IndexWrite PurePath) (ext_calls _ self)
    /\ fst (updateState _ pathlib_Path self) = Normal tt
    /\ states_reachable (all_file_state _ self)
    /\ fst (getReportStagedFiles _ T_ self)
       = flat_map (staged_rows T_) (all_file_state _ self).
Proof.
  intros self R.
  assert (Hinv : run_invariant self).
  { induction R as [name path r|op self _ IH].
    - split; [reflexivity|]. split; [intros []|]. intros p fs [].
    - now apply run_op_keeps_invariant. }
  destruct Hinv as (Hd & Hw & Hs).
  split; [exact Hd|]. split; [exact Hw|].
  split; [|split; [exact Hs|]].
  - destruct (updateState_normal _ pathlib_Path self Hd) as (self' & E & _).
    now rewrite E.
  - apply (getReportStagedFiles_rows_eq PurePath T_ self Hs).
Qed.

(** X17: [saveChanges] on a project that is stale and not dirty returns
    without any call that changes the repository, with the status map of the
    repository as it is; called again at once it raises its
    [AssertionError], while [updateState] may be called freely. *)
Theorem saveChanges_once :
  forall (self : GitProject),
    dirty_index _ self = false ->
    stale_index _ self = true ->
    exists self',
      saveChanges _ pathlib_Path ext_exec self = (Normal tt, self')
      /\ ext_calls _ self' = ext_calls _ self
      /\ repo _ self' = repo _ self
      /\ all_file_state _ self' = status_of_repo (repo _ self)
      /\ saveChanges _ pathlib_Path ext_exec self'
         = (Raise (AssertionError "Only call saveChanges if something was changed"),
            self')
      /\ updateState _ pathlib_Path self' = (Normal tt, self').
Proof.
  intros self Hd Hs.
  unfold Project.saveChanges, Project.updateState.
  rewrite Hd, Hs. cbn [orb negb set_flags dirty_index stale_index].
  rewrite Hd.
  eexists. split; [reflexivity|].
  cbn [calculateStatus set_tree set_flags dirty_index stale_index ext_calls repo
       all_file_state prefs_name prefs_path index tree num_staged_files orb negb].
  repeat split.
Qed.

End ProjectRuns.

Section ProjectRunExamples.
Import FileState Project Examples.

Lemma index_never_dirty_witness :
  project_reachable demo_Path demo_exec (fun s => s)
    (run_op demo_Path demo_exec (fun s => s) (OpSaveChanges string)
       (run_op demo_Path demo_exec (fun s => s) (OpStage string "README")
          demo_project))
  /\ ext_calls _
       (run_op demo_Path demo_exec (fun s => s) (OpSaveChanges string)
          (run_op demo_Path demo_exec (fun s => s) (OpStage string "README")
             demo_project))
     = [GitAdd string "README"].
Proof.
  assert (R : project_reachable demo_Path demo_exec (fun s => s)
                (run_op demo_Path demo_exec (fun s => s) (OpSaveChanges string)
                   (run_op demo_Path demo_exec (fun s => s) (OpStage string "README")
                      demo_project)))
    by (do 2 apply reach_run_op; apply reach_newGitProject).
  split; [exact R|].
  pose proof (index_never_dirty string demo_Path demo_exec (fun s => s) _ R) as H.
  reflexivity.
Defined.

Lemma saveChanges_once_witness :
  dirty_index _ (snd (cmdStage string demo_exec "README" demo_project)) = false
  /\ stale_index _ (snd (cmdStage string demo_exec "README" demo_project)) = true
  /\ exists self',
       saveChanges string demo_Path demo_exec
         (snd (cmdStage string demo_exec "README" demo_project)) = (Normal tt, self')
       /\ fst (saveChanges string demo_Path demo_exec self')
          = Raise (AssertionError "Only call saveChanges if something was changed").
Proof.
  split; [reflexivity|]. split; [reflexivity|].
  destruct (saveChanges_once string demo_Path demo_exec
              (snd (cmdStage string demo_exec "README" demo_project))
              eq_refl eq_refl) as (self' & E & _ & _ & _ & E2 & _).
  exists self'. split; [exact E|]. now rewrite E2.
Defined.

End ProjectRunExamples.

(** ** What can be pushed *)

Section PushFacts.
Import Project.

Variable PurePath : Type.
Variable iter_commits : CommitLog.IterCommitsCall -> list CommitLog.Commit.
Variable remotes : list (list string).

Lemma firstRefDiffers_concat (commit_id : string) (rs : list (list string)) :
  firstRefDiffers commit_id rs
  = match List.concat rs with
    | [] => None
    | remote_id :: _ => Some (negb (String.eqb commit_id remote_id))
    end.
Proof.
  induction rs as [|remote rest IH]; [reflexivity|].
  destruct remote as [|r refs]; [exact IH | reflexivity].
Qed.

Lemma last_cons_default {X : Type} (l : list X) :
  forall a d, last (a :: l) d = last l a.
Proof.
  induction l as [|b l IH]; intros a d; [reflexivity|].
  change (last (a :: b :: l) d) with (last (b :: l) d).
  now rewrite !IH.
Qed.

Lemma last_app_default {X : Type} (l1 l2 : list X) :
  forall d, last (l1 ++ l2) d = last l2 (last l1 d).
Proof.
  induction l1 as [|a l1 IH]; intros d; [reflexivity|].
  cbn [app]. now rewrite !last_cons_default, IH.
Qed.

Lemma lastPushedCommitId_concat :
  lastPushedCommitId remotes = last (List.concat remotes) "".
Proof.
  unfold lastPushedCommitId.
  assert (Hin : forall refs acc,
             fold_left (fun (_ : string) (ref : string) => ref) refs acc = last refs acc).
  { induction refs as [|r refs IH]; intros acc; [reflexivity|].
    cbn [fold_left]. now rewrite IH, last_cons_default. }
  generalize "" as acc. induction remotes as [|remote rest IH]; intros acc;
    [reflexivity|].
  cbn [fold_left List.concat]. now rewrite IH, Hin, last_app_default.
Qed.

Lemma unpushedFrom_spec (last_id : string) (commits : list CommitLog.Commit) :
  exists rest,
    commits = unpushedFrom last_id commits ++ rest
    /\ Forall (fun c => CommitLog.commit_hexsha c <> last_id)
         (unpushedFrom last_id commits)
    /\ match rest with
       | [] => True
       | c :: _ => CommitLog.commit_hexsha c = last_id
       end.
Proof.
  induction commits as [|c cs IH]; cbn [unpushedFrom].
  - exists []. repeat split. constructor.
  - destruct (String.eqb last_id (CommitLog.commit_hexsha c)) eqn:E.
    + apply String.eqb_eq in E. exists (c :: cs). split; [reflexivity|].
      split; [constructor | now symmetry].
    + apply String.eqb_neq in E. destruct IH as (rest & H1 & H2 & H3).
      exists rest. split; [cbn; now rewrite <- H1|].
      split; [constructor; [congruence | exact H2] | exact H3].
Qed.

(** X19: on a repository with a commit, where the iterator limited to
    one commit yields one, [canPush] compares that commit with one ref only,
    the first ref of the first remote that has any: it is [True] exactly
    when there is such a ref and the two ids differ, and [False] when no
    remote has a ref. *)
Theorem canPush_first_ref :
  forall (commit : CommitLog.Commit) (rest : list CommitLog.Commit),
    iter_commits (CommitLog.mkIterCall PyNone [] [("max_count", PyInt 1)])
    = commit :: rest ->
    canPush iter_commits remotes
    = match List.concat remotes with
      | remote_id :: _ =>
          negb (String.eqb (CommitLog.commit_hexsha commit) remote_id)
      | [] => false
      end
    /\ (canPush iter_commits remotes = true
        <-> exists remote_id,
              hd_error (List.concat remotes) = Some remote_id
              /\ CommitLog.commit_hexsha commit <> remote_id).
Proof.
  intros commit rest Hiter.
  assert (E : canPush iter_commits remotes
              = match List.concat remotes with
                | remote_id :: _ =>
                    negb (String.eqb (CommitLog.commit_hexsha commit) remote_id)
                | [] => false
                end).
  { unfold canPush. rewrite Hiter. cbn [canPushFrom].
    rewrite firstRefDiffers_concat.
    destruct (List.concat remotes) as [|r rs] eqn:Ec; [|reflexivity].
    clear Hiter. induction rest as [|c cs IH]; [reflexivity|].
    cbn [canPushFrom]. rewrite firstRefDiffers_concat, Ec. exact IH. }
  split; [exact E|]. rewrite E.
  destruct (List.concat remotes) as [|r rs]; cbn [hd_error].
  - split; [discriminate | intros (r & H & _); discriminate].
  - destruct (String.eqb_spec (CommitLog.commit_hexsha commit) r) as [Heq|Hne]; cbn [negb].
    + split; [discriminate|]. intros (r' & H & Hd). injection H as <-.
      now contradiction Hd.
    + split; [|reflexivity]. intros _. exists r. split; [reflexivity | exact Hne].
Qed.

(** X20: [getUnpushedCommits] takes as pushed the commit of the last ref of
    the last remote that has any.  It returns the commits the iterator
    yields before the first one with that id: none of them has the id, they
    are an initial part of what the iterator yields, and what follows them,
    if anything, starts with the pushed commit.  Without any ref it returns
    every commit up to one with the empty id. *)
Theorem getUnpushedCommits_prefix :
  let last_id := last (List.concat remotes) "" in
  let commits := iter_commits (CommitLog.mkIterCall PyNone [] []) in
  exists rest,
    commits = getUnpushedCommits iter_commits remotes ++ rest
    /\ Forall (fun c => CommitLog.commit_hexsha c <> last_id)
         (getUnpushedCommits iter_commits remotes)
    /\ match rest with
       | [] => True
       | c :: _ => CommitLog.commit_hexsha c = last_id
       end.
Proof.
  intros last_id commits. unfold getUnpushedCommits.
  rewrite lastPushedCommitId_concat. apply unpushedFrom_spec.
Qed.

(** X21: when the first ref and the last ref name the same commit (as with
    a single remote branch) and the iterator limited to one commit yields the
    first of the commits it yields unlimited, [canPush] is [True] exactly
    when [getUnpushedCommits] is not empty. *)
Theorem canPush_iff_unpushed :
  forall (remote_id : string),
    hd_error (List.concat remotes) = Some remote_id ->
    last (List.concat remotes) "" = remote_id ->
    iter_commits (CommitLog.mkIterCall PyNone [] [("max_count", PyInt 1)])
    = firstn 1 (iter_commits (CommitLog.mkIterCall PyNone [] [])) ->
    (canPush iter_commits remotes = true
     <-> getUnpushedCommits iter_commits remotes <> []).
Proof.
  intros remote_id Hhd Hlast Hiter.
  unfold canPush, getUnpushedCommits.
  rewrite Hiter, lastPushedCommitId_concat, Hlast.
  destruct (iter_commits (CommitLog.mkIterCall PyNone [] [])) as [|c cs].
  - cbn. split; [discriminate | intros H; now contradiction H].
  - cbn [firstn canPushFrom unpushedFrom]. rewrite firstRefDiffers_concat.
    destruct (List.concat remotes) as [|r rs]; [discriminate|].
    injection Hhd as ->. rewrite String.eqb_sym.
    destruct (String.eqb remote_id (CommitLog.commit_hexsha c)); cbn.
    + split; [discriminate | intros H; now contradiction H].
    + split; [discriminate | reflexivity].
Qed.

End PushFacts.

Section PushExamples.
Import Project CommitLog.

Lemma canPush_first_ref_witness :
  canPush (fun _ => [edit_commit]) [[]; ["c5"; "c7"]] = true
  /\ canPush (fun _ => [edit_commit]) [["c7"; "c5"]] = false
  /\ canPush (fun _ => [edit_commit]) [[]; []] = false.
Proof.
  split; [|split].
  - apply (canPush_first_ref (fun _ => [edit_commit]) [[]; ["c5"; "c7"]]
             edit_commit [] eq_refl).
    exists "c5". split; [reflexivity | discriminate].
  - rewrite (proj1 (canPush_first_ref (fun _ => [edit_commit]) [["c7"; "c5"]]
                      edit_commit [] eq_refl)).
    reflexivity.
  - rewrite (proj1 (canPush_first_ref (fun _ => [edit_commit]) [[]; []]
                      edit_commit [] eq_refl)).
    reflexivity.
Defined.

Lemma canPush_iff_unpushed_witness :
  hd_error (List.concat [["c5"]]) = Some "c5"
  /\ last (List.concat [["c5"]]) "" = "c5"
  /\ canPush (fun call => match ic_kwds call with
                          | [] => [edit_commit; rename_commit; rename_parent]
                          | _ => [edit_commit]
                          end) [["c5"]] = true
  /\ getUnpushedCommits (fun call => match ic_kwds call with
                                     | [] => [edit_commit; rename_commit; rename_parent]
                                     | _ => [edit_commit]
                                     end) [["c5"]]
     <> [].
Proof.
  split; [reflexivity|]. split; [reflexivity|].
  assert (C : canPush (fun call => match ic_kwds call with
                          | [] => [edit_commit; rename_commit; rename_parent]
                          | _ => [edit_commit]
                          end) [["c5"]] = true) by reflexivity.
  split; [exact C|].
  apply (canPush_iff_unpushed _ [["c5"]] "c5" eq_refl eq_refl eq_refl). exact C.
Defined.

End PushExamples.

(** ** The unified-diff view: the registry and the text *)

Section DiffViewMore.
Import DiffView.

Lemma existsb_nat_In (k : nat) (l : list nat) :
  existsb (Nat.eqb k) l = true <-> In k l.
Proof.
  rewrite existsb_exists. split.
  - intros (x & Hx & E). apply Nat.eqb_eq in E. now subst x.
  - intros H. exists k. split; [exact H | apply Nat.eqb_refl].
Qed.

Lemma filter_not_in (k : nat) (l : list nat) :
  ~ In k l -> filter (fun x => negb (Nat.eqb k x)) l = l.
Proof.
  induction l as [|x l IH]; intros H; [reflexivity|].
  cbn. destruct (Nat.eqb k x) eqn:E.
  - apply Nat.eqb_eq in E. subst x. exfalso. apply H. now left.
  - cbn. f_equal. apply IH. intros Hin. apply H. now right.
Qed.

Lemma class_reachable_bounds (cls : DiffViewClass) :
  class_reachable cls ->
  (forall k, In k (all_diff_views cls) -> 1 <= k <= uid cls)
  /\ NoDup (all_diff_views cls).
Proof.
  induction 1 as [|cls _ [IH1 IH2]|w cls _ [IH1 IH2]].
  - split; [intros k [] | constructor].
  - unfold registerView. cbn [snd uid all_diff_views].
    destruct (existsb (Nat.eqb (uid cls + 1)) (all_diff_views cls)) eqn:E.
    + apply existsb_nat_In in E. apply IH1 in E. lia.
    + split.
      * intros k Hk. apply in_app_or in Hk. destruct Hk as [Hk|[<-|[]]]; [|lia].
        apply IH1 in Hk. lia.
      * apply NoDup_app; [exact IH2 | repeat constructor; intros [] |].
        intros k Hk [<-|[]]. apply IH1 in Hk. lia.
  - unfold closeEvent.
    destruct (existsb (Nat.eqb w) (all_diff_views cls)); cbn [snd uid all_diff_views].
    + split; [|now apply NoDup_filter].
      intros k Hk. apply filter_In in Hk. now apply IH1.
    + auto.
Qed.

(** X22: in every state of the registry a program can reach, a new view
    gets the uid after the last one given, which no registered view has, and
    is added without replacing any; closing it takes it, and it only, out of
    the registry and keeps the counter, so no later view gets its uid; closing
    a view that is not registered (one closed before) raises [KeyError]. *)
Theorem view_uids_unique :
  forall (cls : DiffViewClass),
    class_reachable cls ->
    let window_uid := fst (registerView cls) in
    let cls' := snd (registerView cls) in
    window_uid = uid cls + 1
    /\ ~ In window_uid (all_diff_views cls)
    /\ all_diff_views cls' = all_diff_views cls ++ [window_uid]
    /\ NoDup (all_diff_views cls')
    /\ closeEvent window_uid cls'
       = (Normal tt, mkClass (uid cls') (all_diff_views cls))
    /\ fst (closeEvent window_uid (snd (closeEvent window_uid cls')))
       = Raise (KeyError "window_uid")
    /\ fst (registerView (snd (closeEvent window_uid cls'))) = window_uid + 1.
Proof.
  intros cls R window_uid cls'.
  destruct (class_reachable_bounds cls R) as [Hb Hnd].
  assert (Hnot : ~ In (uid cls + 1) (all_diff_views cls)).
  { intros H. apply Hb in H. lia. }
  assert (E : existsb (Nat.eqb (uid cls + 1)) (all_diff_views cls) = false).
  { destruct (existsb _ _) eqn:E; [|reflexivity].
    apply existsb_nat_In in E. contradiction. }
  assert (Hviews : all_diff_views cls' = all_diff_views cls ++ [uid cls + 1]).
  { subst cls'. unfold registerView. cbn [snd all_diff_views]. now rewrite E. }
  assert (Hclose : closeEvent window_uid cls'
                   = (Normal tt, mkClass (uid cls') (all_diff_views cls))).
  { unfold closeEvent. rewrite Hviews. subst window_uid. cbn [fst registerView].
    rewrite existsb_app. cbn [existsb]. rewrite Nat.eqb_refl, orb_true_r.
    rewrite filter_app, (filter_not_in _ _ Hnot). cbn [filter].
    rewrite Nat.eqb_refl. cbn [negb]. now rewrite app_nil_r. }
  split; [reflexivity|]. split; [exact Hnot|]. split; [exact Hviews|].
  split; [apply (class_reachable_bounds cls'), reach_register, R|].
  split; [exact Hclose|]. rewrite Hclose. cbn [snd]. split.
  - unfold closeEvent. cbn [all_diff_views]. subst window_uid.
    cbn [fst registerView]. now rewrite E.
  - reflexivity.
Qed.

Lemma view_uids_unique_witness :
  class_reachable (snd (closeEvent 1 (snd (registerView initialDiffViewClass))))
  /\ fst (registerView (snd (closeEvent 1 (snd (registerView initialDiffViewClass)))))
     = 2.
Proof.
  assert (R : class_reachable
                (snd (closeEvent 1 (snd (registerView initialDiffViewClass)))))
    by (apply reach_close, reach_register, reach_initial).
  split; [exact R|].
  exact (proj1 (view_uids_unique _ R)).
Defined.

Lemma before_empty_app (l1 l2 : list string) :
  ~ In "" l1 -> before_empty (l1 ++ l2) = l1 ++ before_empty l2.
Proof.
  induction l1 as [|l l1 IH]; intros H; [reflexivity|].
  destruct l as [|c s]; [exfalso; apply H; now left|].
  cbn. f_equal. apply IH. intros Hin. apply H. now right.
Qed.

(** X23: [setUnifiedDiffText] only ever adds to the text: what the view
    held stays in front, whether the call returns or raises, and one run of
    text is added for each line before the first empty one.  Two calls in a
    row leave the text that one call on the two lists in a row leaves, when
    the first list has no empty line. *)
Theorem setUnifiedDiffText_appends :
  forall (l1 l2 : list string) (v : WbDiffView),
    initial_formats v ->
    (exists added,
        text_edit (snd (setUnifiedDiffText l1 v)) = text_edit v ++ added
        /\ List.length added = List.length (before_empty l1)
        /\ map fst added = map (fun line => (line ++ newline)%string) (before_empty l1))
    /\ initial_formats (snd (setUnifiedDiffText l1 v))
    /\ (~ In "" l1 ->
        text_edit (snd (setUnifiedDiffText l2 (snd (setUnifiedDiffText l1 v))))
        = text_edit (snd (setUnifiedDiffText (l1 ++ l2) v))
        /\ fst (setUnifiedDiffText l2 (snd (setUnifiedDiffText l1 v)))
           = fst (setUnifiedDiffText (l1 ++ l2) v)).
Proof.
  intros l1 l2 v Hf.
  assert (Hset : forall l w, initial_formats w ->
             initial_formats (snd (setUnifiedDiffText l w))
             /\ text_edit (snd (setUnifiedDiffText l w))
                = text_edit w ++ flat_map rendered (before_empty l)
             /\ fst (setUnifiedDiffText l w)
                = (if existsb (String.eqb "") l then Raise IndexError else Normal tt)).
  { intros l w Hw. pose proof (writeDiffLines_text l w Hw) as H.
    unfold setUnifiedDiffText.
    destruct (writeDiffLines l w) as [r w']. destruct H as (H1 & H2 & H3).
    subst r. destruct (existsb (String.eqb "") l); cbn [fst snd]; auto. }
  assert (Hrun : forall l, Forall (fun line => line <> "") l ->
             List.length (flat_map rendered l) = List.length l
             /\ map fst (flat_map rendered l)
                = map (fun line => (line ++ newline)%string) l).
  { induction l as [|line l IH]; intros Hl; [auto|].
    inversion Hl as [|? ? Hne Hl']; subst. destruct (IH Hl') as [IH1 IH2].
    destruct line as [|c s]; [contradiction|].
    unfold flat_map at 1 2. fold (flat_map rendered l).
    unfold rendered at 1 3, style_of_first.
    destruct (Ascii.eqb c "-"); [cbn; split; [now rewrite IH1 | now rewrite IH2]|].
    destruct (Ascii.eqb c "+"); [cbn; split; [now rewrite IH1 | now rewrite IH2]|].
    destruct (Ascii.eqb c " "); cbn; split; solve [now rewrite IH1 | now rewrite IH2]. }
  assert (Hbe : forall l, Forall (fun line => line <> "") (before_empty l)).
  { induction l as [|line l IH]; [constructor|].
    destruct line as [|c s]; [constructor|]. cbn. constructor; [discriminate | exact IH]. }
  destruct (Hset l1 v Hf) as (H1 & H2 & H3).
  split; [|split; [exact H1|]].
  - exists (flat_map rendered (before_empty l1)). split; [exact H2|].
    apply Hrun, Hbe.
  - intros Hno.
    destruct (Hset l2 _ H1) as (_ & G2 & G3).
    destruct (Hset (l1 ++ l2) v Hf) as (_ & K2 & K3).
    assert (He : existsb (String.eqb "") l1 = false).
    { destruct (existsb (String.eqb "") l1) eqn:E; [|reflexivity].
      apply existsb_exists in E. destruct E as (x & Hx & Ex).
      apply String.eqb_eq in Ex. subst x. contradiction. }
    split.
    + rewrite G2, H2, K2, (before_empty_all _ He), (before_empty_app _ _ Hno).
      now rewrite flat_map_app, app_assoc.
    + rewrite G3, K3, existsb_app, He. reflexivity.
Qed.

Lemma setUnifiedDiffText_appends_witness :
  initial_formats newWbDiffView
  /\ ~ In "" ["--- a"; "+++ b"]
  /\ text_edit (snd (setUnifiedDiffText ["+x"]
                       (snd (setUnifiedDiffText ["--- a"; "+++ b"] newWbDiffView))))
     = text_edit (snd (setUnifiedDiffText ["--- a"; "+++ b"; "+x"] newWbDiffView)).
Proof.
  assert (Hno : ~ In "" ["--- a"; "+++ b"])
    by (intros [H|[H|[]]]; discriminate).
  split; [reflexivity|]. split; [exact Hno|].
  destruct (setUnifiedDiffText_appends ["--- a"; "+++ b"] ["+x"] newWbDiffView eq_refl)
    as (_ & _ & H).
  exact (proj1 (H Hno)).
Defined.

End DiffViewMore.

(** ** The staged report against the staged count *)

Section ReportBound.
Import FileState Project.

Variable PurePath : Type.
Variable pathlib_Path : string -> PurePath.
Variable T_ : string -> string.

Lemma staged_rows_length (l : dict WbGitFileState) :
  List.length (flat_map (staged_rows T_) l)
  <= List.length (filter has_staged_diff l).
Proof.
  induction l as [|[k fs] l IH]; [apply le_n|].
  cbn [flat_map filter]. rewrite length_app.
  unfold staged_rows at 1, has_staged_diff at 1. cbn [fst snd].
  destruct (staged_diff fs) as [d|]; cbn [staged_code].
  - destruct (staged_report_label _); cbn; lia.
  - cbn. exact IH.
Qed.

Lemma filter_keys_NoDup {V : Type} (f : string * V -> bool) (l : dict V) :
  NoDup (dict_keys l) -> NoDup (dict_keys (filter f l)).
Proof.
  induction l as [|[k v] l IH]; intros H; [constructor|].
  inversion H as [|? ? Hnot Hnd]; subst. cbn [filter].
  destruct (f (k, v)); [|now apply IH].
  cbn. constructor; [|now apply IH].
  intros Hin. apply Hnot. unfold dict_keys in *.
  apply in_map_iff in Hin. destruct Hin as (x & <- & Hx).
  apply filter_In in Hx. apply in_map. now destruct Hx.
Qed.

(** X24: after [updateState] the staged report has at most
    [numStagedFiles()] rows, and every row names the [b_path] of a staged
    diff the library reported. *)
Theorem staged_report_within_count :
  forall (self : GitProject PurePath),
    dirty_index _ self = false ->
    exists self',
      updateState _ pathlib_Path self = (Normal tt, self')
      /\ List.length (fst (getReportStagedFiles _ T_ self')) <= numStagedFiles _ self'
      /\ forall label filename,
           In (label, filename) (fst (getReportStagedFiles _ T_ self')) ->
           exists d, In d (head_vs_index (repo _ self)) /\ b_path d = filename.
Proof.
  intros self Hd.
  destruct (updateState_normal _ pathlib_Path self Hd)
    as (self' & E & _ & _ & _ & _ & Ha & Hn & _).
  exists self'. split; [exact E|].
  assert (Hr : states_reachable (all_file_state _ self')).
  { rewrite Ha. apply (calculateStatus_states_reachable PurePath self). }
  rewrite (getReportStagedFiles_rows_eq PurePath T_ self' Hr).
  unfold numStagedFiles. rewrite Hn, Ha.
  assert (Hdiff : forall k fs d,
             In (k, fs) (status_of_repo (repo _ self)) -> staged_diff fs = Some d ->
             In d (head_vs_index (repo _ self)) /\ b_path d = k).
  { intros k fs d Hin Hs.
    now apply (proj2 (status_of_repo_state (repo _ self) k fs Hin)). }
  split.
  - eapply Nat.le_trans; [apply staged_rows_length|].
    rewrite <- (length_map fst), <- (length_map b_path (head_vs_index (repo _ self))).
    apply NoDup_incl_length.
    + apply (filter_keys_NoDup has_staged_diff), status_of_repo_NoDup.
    + intros k Hk. apply in_map_iff in Hk. destruct Hk as ([k' fs] & <- & Hin).
      apply filter_In in Hin. destruct Hin as [Hin Hs].
      unfold has_staged_diff in Hs. cbn [fst snd] in *.
      destruct (staged_diff fs) as [d|] eqn:Es; [|discriminate].
      destruct (Hdiff _ _ _ Hin Es) as [H1 <-]. now apply in_map.
  - intros label filename Hin. apply in_flat_map in Hin.
    destruct Hin as ([k fs] & Hin & Hrow). unfold staged_rows in Hrow.
    cbn [fst snd] in Hrow.
    destruct (staged_diff fs) as [d|] eqn:Es; [|destruct Hrow].
    destruct (staged_report_label _); [|destruct Hrow].
    destruct Hrow as [Hrow|[]]. injection Hrow as _ <-.
    exists d. now apply (Hdiff k fs).
Qed.

End ReportBound.

Section ReportBoundExample.
Import FileState Project Examples.

Lemma staged_report_within_count_witness :
  dirty_index _ demo_project = false
  /\ exists self',
       updateState string demo_Path demo_project = (Normal tt, self')
       /\ List.length (fst (getReportStagedFiles string (fun s => s) self'))
          <= numStagedFiles string self'.
Proof.
  split; [reflexivity|].
  destruct (staged_report_within_count string demo_Path (fun s => s) demo_project eq_refl)
    as (self' & E & H & _).
  exists self'. split; [exact E | exact H].
Defined.

End ReportBoundExample.
